(** * RYDS Car Hunter: the scraping orchestrator and the result normaliser

    A shallow embedding of
    - [src/frontend/src/services/api/vehicleApi.ts]
      ([convertApiVehicleToVehicle], [convertSearchParamsToApi]),
    - [src/backend/index.ts] ([runInBatches], [processSite],
      [scrapeAllSites], the route handler of
      [setupSiteSpecificResourceBlocking]),
    - the two site drivers [cartotradeConfig] and [disposalnetworkConfig],
    - the front end: [handleSSEStream] and [handleSSEEvent] of
      [scrapeSSEApi.ts], the progress handlers of [RealTimeScraper.tsx] and
      [Index.tsx], the filter and the tabs of [VehicleResults.tsx],
      [handleSubmit] of [SearchForm.tsx],
    together with the properties the specification states about them and
    further properties the code has. *)

From Stdlib Require Import ZArith String Ascii List Lia Permutation Sorted.
From stdpp Require Import base tactics option list strings pretty gmap.

Local Open Scope string_scope.
Local Open Scope list_scope.
Local Open Scope nat_scope.

(** ** JavaScript values *)

Module Js.

(** The values that flow through the code: what JSON can carry, plus
    [undefined].  Numbers are the integers (prices, mileages and ages are
    whole numbers everywhere in the code); [NaN] and fractions are not
    modelled. *)
Local Unset Elimination Schemes.
Inductive JsVal : Type :=
| JUndefined
| JNull
| JBool (b : bool)
| JNum (z : Z)
| JStr (s : string)
| JArr (l : list JsVal)
| JObj (fields : list (string * JsVal)).
Local Set Elimination Schemes.

(** [ToBoolean]. *)
Definition truthy (v : JsVal) : bool :=
  match v with
  | JUndefined | JNull => false
  | JBool b => b
  | JNum z => negb (z =? 0)%Z
  | JStr s => negb (String.eqb s "")
  | JArr _ | JObj _ => true
  end.

(** [a || b]. *)
Definition or (a b : JsVal) : JsVal := if truthy a then a else b.

(** [!a]. *)
Definition not (a : JsVal) : bool := negb (truthy a).

Fixpoint join (sep : string) (l : list string) : string :=
  match l with
  | [] => ""
  | [x] => x
  | x :: rest => x +:+ sep +:+ join sep rest
  end.

(** [ToString]; a number is written in decimal digits, as JavaScript
    writes the integers below 1e21. *)
Fixpoint toString (v : JsVal) : string :=
  match v with
  | JUndefined => "undefined"
  | JNull => "null"
  | JBool true => "true"
  | JBool false => "false"
  | JNum z => pretty z
  | JStr s => s
  | JArr l =>
      join ","
        ((fix elems (l : list JsVal) : list string :=
            match l with
            | [] => []
            | JUndefined :: r | JNull :: r => "" :: elems r
            | x :: r => toString x :: elems r
            end) l)
  | JObj _ => "[object Object]"
  end.

(** [a + b] when one operand is known to be a string. *)
Definition add (a b : JsVal) : JsVal := JStr (toString a +:+ toString b).

Fixpoint assoc (k : string) (fields : list (string * JsVal)) : JsVal :=
  match fields with
  | [] => JUndefined
  | (k', v) :: r => if String.eqb k k' then v else assoc k r
  end.

(** [v.k]: reading a property of [null] or [undefined] is a [TypeError];
    the primitives have none of the property names the code reads. *)
Definition prop (v : JsVal) (k : string) : option JsVal :=
  match v with
  | JUndefined | JNull => None
  | JObj fields => Some (assoc k fields)
  | JArr l => Some (if String.eqb k "length" then JNum (Z.of_nat (length l)) else JUndefined)
  | JStr s => Some (if String.eqb k "length" then JNum (Z.of_nat (String.length s)) else JUndefined)
  | _ => Some JUndefined
  end.

Definition isSpace (c : ascii) : bool :=
  match c with
  | " "%char | "009"%char | "010"%char | "011"%char | "012"%char | "013"%char => true
  | _ => false
  end.

Fixpoint trimStart (s : string) : string :=
  match s with
  | String c r => if isSpace c then trimStart r else s
  | EmptyString => EmptyString
  end.

Fixpoint allSpace (s : string) : bool :=
  match s with
  | String c r => isSpace c && allSpace r
  | EmptyString => true
  end.

Fixpoint trimEnd (s : string) : string :=
  match s with
  | String c r => if allSpace s then EmptyString else String c (trimEnd r)
  | EmptyString => EmptyString
  end.

(** [s.trim()] (on the ASCII white space). *)
Definition trim (s : string) : string := trimEnd (trimStart s).

Definition upper (c : ascii) : ascii :=
  let n := nat_of_ascii c in
  if (97 <=? n)%nat && (n <=? 122)%nat then ascii_of_nat (n - 32) else c.

Fixpoint toUpperCase (s : string) : string :=
  match s with
  | String c r => String (upper c) (toUpperCase r)
  | EmptyString => EmptyString
  end.

Definition lower (c : ascii) : ascii :=
  let n := nat_of_ascii c in
  if (65 <=? n)%nat && (n <=? 90)%nat then ascii_of_nat (n + 32) else c.

Fixpoint toLowerCase (s : string) : string :=
  match s with
  | String c r => String (lower c) (toLowerCase r)
  | EmptyString => EmptyString
  end.

Fixpoint prefixb (p s : string) : bool :=
  match p, s with
  | EmptyString, _ => true
  | String a p', String b s' => Ascii.eqb a b && prefixb p' s'
  | String _ _, EmptyString => false
  end.

(** [s.includes(p)]. *)
Fixpoint includes (s p : string) : bool :=
  prefixb p s ||
  match s with
  | String _ r => includes r p
  | EmptyString => false
  end.

(** The strings of the model are sequences of bytes.  On a text of ASCII
    characters [trim], [toUpperCase] and [toLowerCase] above are the methods
    of JavaScript: the white space of [trim] below U+0080 is the six
    characters of [isSpace], and the letters with another case are [a-z]
    and [A-Z].  Beyond ASCII they are not (U+00A0 is white space, the upper
    case of U+00DF is two letters), so what is stated about them is stated
    of ASCII text. *)
Definition isAscii (s : string) : bool :=
  forallb (fun c => nat_of_ascii c <? 128) (list_ascii_of_string s).

(** [s && s.trim()] on an optional string parameter, as a condition. *)
Definition given (o : option string) : bool :=
  match o with
  | Some s => negb (String.eqb s "") && negb (String.eqb (trim s) "")
  | None => false
  end.

(** [n || d] on an optional number parameter. *)
Definition numOr (o : option Z) (d : Z) : Z :=
  match o with
  | Some z => if (z =? 0)%Z then d else z
  | None => d
  end.

End Js.

Import Js.

(** ** The result normaliser ([vehicleApi.ts]) *)

Module VehicleApi.

(** [interface Vehicle].  The casts of the source ([as string],
    [as number]) are erased at run time, so every field holds whatever
    value the raw record had. *)
Record Vehicle : Type := mkVehicle {
  id : JsVal;
  title : JsVal;
  price : JsVal;
  imageUrl : JsVal;
  location : JsVal;
  registration : JsVal;
  source : JsVal;
  url : JsVal;
  timestamp : JsVal;
  mileage : JsVal
}.

(** What [Date.now()], [Math.random().toString(36).substring(2)] and
    [new Date().toISOString()] return at the call. *)
Record Clock : Type := mkClock {
  dateNow : Z;
  randomSuffix : string;
  isoNow : string
}.

(** [apiVehicle.k] on a [Record<string, unknown>]. *)
Definition get (apiVehicle : gmap string JsVal) (k : string) : JsVal :=
  default JUndefined (apiVehicle !! k).

Definition convertApiVehicleToVehicle (clk : Clock)
    (apiVehicle : gmap string JsVal) : Vehicle :=
  let f := get apiVehicle in
  {| id := or (f "id") (JStr (pretty (dateNow clk) +:+ "-" +:+ randomSuffix clk));
     title :=
       or (f "title")
         (or (f "primaryVehicleDescription")
            (or (add (add (f "make") (JStr " ")) (f "model"))
               (JStr "Unknown Vehicle")));
     price := or (f "price") (or (f "price") (JStr "0"));
     imageUrl :=
       or (f "imageUrl") (or (f "image") (JStr "https://via.placeholder.com/400"));
     location :=
       or (f "location")
         (or (f "localSaleLocation") (or (f "dealer") (JStr "Unknown")));
     registration :=
       or (f "registration") (or (f "reg") (or (f "vrm") (JStr "Unknown")));
     source := or (f "source") (or (f "website") (JStr "Unknown Source"));
     url := or (f "url") (JStr "#");
     timestamp := JStr (isoNow clk);
     mileage := or (f "mileage") JUndefined |}.

End VehicleApi.


(** ** Effects: state, exceptions and non-termination *)

Module Eff.

(** The outcome of running an [async] function to completion: it resolves
    with a value, rejects with an error, or never settles.  The state
    reached is kept in both settled cases: what was done before a [throw]
    stays done. *)
Inductive Res (S A : Type) : Type :=
| Ok (a : A) (s : S)
| Throw (e : string) (s : S)
| Diverge.
Arguments Ok {S A} a s.
Arguments Throw {S A} e s.
Arguments Diverge {S A}.

Definition M (S A : Type) : Type := S -> Res S A.

Definition ret {S A} (a : A) : M S A := fun s => Ok a s.

Definition bind {S A B} (m : M S A) (k : A -> M S B) : M S B :=
  fun s =>
    match m s with
    | Ok a s' => k a s'
    | Throw e s' => Throw e s'
    | Diverge => Diverge
    end.

Definition throw {S A} (e : string) : M S A := fun s => Throw e s.

Definition get {S} : M S S := fun s => Ok s s.

Definition modify {S} (f : S -> S) : M S unit := fun s => Ok tt (f s).

(** [try { m } catch (e) { h e }]. *)
Definition tryCatch {S A} (m : M S A) (h : string -> M S A) : M S A :=
  fun s =>
    match m s with
    | Ok a s' => Ok a s'
    | Throw e s' => h e s'
    | Diverge => Diverge
    end.

(** [try { m } finally { fin }]: [fin] always runs; when it throws, its
    exception replaces the outcome of [m]. *)
Definition tryFinally {S A} (m : M S A) (fin : M S unit) : M S A :=
  fun s =>
    match m s with
    | Ok a s' =>
        match fin s' with
        | Ok _ s'' => Ok a s''
        | Throw e s'' => Throw e s''
        | Diverge => Diverge
        end
    | Throw e s' =>
        match fin s' with
        | Ok _ s'' => Throw e s''
        | Throw e' s'' => Throw e' s''
        | Diverge => Diverge
        end
    | Diverge => Diverge
    end.

#[global] Instance M_ret {S} : MRet (M S) := @ret S.
#[global] Instance M_bind {S} : MBind (M S) := fun A B k m => bind m k.

End Eff.

Import Eff.

(** ** The orchestrator ([src/backend/index.ts]) *)

Module Backend.

(** [SearchParams]: every field optional. *)
Record SearchParams : Type := mkSearchParams {
  make : option string;
  model : option string;
  color : option string;
  minPrice : option Z;
  maxPrice : option Z;
  minMileage : option Z;
  maxMileage : option Z;
  minAge : option Z;
  maxAge : option Z
}.

Record LoginCredentials : Type := mkCredentials {
  username : string;
  password : string
}.

(** A captured network response; [json] is [None] when [resp.json()]
    rejects. *)
Record Response : Type := mkResponse { json : option JsVal }.

(** The properties the drivers attach to the page object
    ([(page as any)._cartotradeSearchExecuted = false] and the like).  A page
    fresh from [context.newPage()] has none of them. *)
Record Page : Type := mkPage {
  cartotradeSearchExecuted : option bool;
  disposalnetworkMakeApplied : option bool;
  disposalnetworkModelApplied : option bool;
  disposalnetworkNoResults : option bool;
  lastDisposalNetworkResponse : option Response
}.

Definition newPage : Page :=
  {| cartotradeSearchExecuted := None;
     disposalnetworkMakeApplied := None;
     disposalnetworkModelApplied := None;
     disposalnetworkNoResults := None;
     lastDisposalNetworkResponse := None |}.

(** The elements of the [any[]] a driver extracts. *)
Definition Car : Type := JsVal.

(** A driver function runs against its page only: the orchestrator's
    variables ([currentSiteIndex], [onProgress]) are not in its scope. *)
Definition D (A : Type) : Type := M Page A.

(** [type SiteConfig]. *)
Record SiteConfig : Type := mkSiteConfig {
  name : string;
  baseUrl : string;
  loginUrl : string;
  buildSearchUrl : option (SearchParams -> string);
  login : LoginCredentials -> D unit;
  applyFilters : option (SearchParams -> D unit);
  filtersViaUI : bool;
  shouldNavigateToSearchUrl : bool;
  extractCars : option (option SearchParams -> D (list Car));
  useProxies : bool
}.

(** What the orchestrator does to the outside world, in the order it does
    it.  The [bool] of [EvInit], [EvNewPage] and [EvClose] tells the
    proxy-enabled Stagehand instance ([true]) from the standard one. *)
Inductive Event : Type :=
| EvInit (proxied : bool)
| EvNewPage (site : string) (proxied : bool)
| EvPageRoute (site : string)
| EvContextRoute (site : string)
| EvLogin (site : string)
| EvWaitForLoadState (site : string)
| EvWaitForTimeout (site : string)
| EvGoto (site : string) (url : string)
| EvApplyFilters (site : string)
| EvExtractCars (site : string) (withParams : bool)
| EvProgress (site : string) (cars : list Car) (totalSites currentSite : nat)
| EvConsoleError (site : string) (error : string)
| EvClosePage (site : string)
| EvClose (proxied : bool).

(** The variables of [scrapeAllSites] that [processSite] updates. *)
Record Orch : Type := mkOrch {
  currentSiteIndex : nat;
  events : list Event
}.

Definition O (A : Type) : Type := M Orch A.

Definition log (ev : Event) (s : Orch) : Orch :=
  {| currentSiteIndex := currentSiteIndex s; events := events s ++ [ev] |}.

Definition incrSiteIndex (s : Orch) : Orch :=
  {| currentSiteIndex := S (currentSiteIndex s); events := events s |}.

(** [tasks.slice(i, j)] for indices [0 <= i]. *)
Definition slice {A} (i j : nat) (l : list A) : list A := take (j - i) (drop i l).

(** [await Promise.all(ps)], the promises run one after the other to
    completion: every promise of the list is started and runs whether or not
    another one rejects; the results come in the order of the list; one
    rejection rejects the whole. *)
Fixpoint promiseAll {S A} (ps : list (M S A)) : M S (list A) :=
  fun s =>
    match ps with
    | [] => Ok [] s
    | p :: rest =>
        match p s with
        | Ok a s1 =>
            match promiseAll rest s1 with
            | Ok l s2 => Ok (a :: l) s2
            | Throw e s2 => Throw e s2
            | Diverge => Diverge
            end
        | Throw e s1 =>
            match promiseAll rest s1 with
            | Ok _ s2 | Throw _ s2 => Throw e s2
            | Diverge => Diverge
            end
        | Diverge => Diverge
        end
    end.

(** The [for] loop of [runInBatches], [i] and [results] being its two
    variables.  The loop has no bound of its own ([batchSize = 0] never
    leaves it), hence the fuel. *)
Fixpoint runInBatches_loop {S T} (fuel : nat) (tasks : list (M S T))
    (batchSize i : nat) (results : list T) : M S (list T) :=
  match fuel with
  | 0 => fun _ => Diverge
  | Datatypes.S fuel' =>
      if i <? length tasks then
        batchResults ← promiseAll (slice i (i + batchSize) tasks);
        runInBatches_loop fuel' tasks batchSize (i + batchSize)
          (results ++ batchResults)
      else mret results
  end.

(** [runInBatches(tasks, batchSize)]: a task [() => Promise<T>] is a
    suspended computation, and [batchSize] a whole number (a fractional or
    negative one is not modelled).  One unit of fuel per task and one for
    the last test of the loop are all a [batchSize >= 1] can use. *)
Definition runInBatches {S T} (tasks : list (M S T)) (batchSize : nat)
    : M S (list T) :=
  runInBatches_loop (Datatypes.S (length tasks)) tasks batchSize 0 [].

Section ScrapeAllSites.

(** The browser: which of the orchestrator's calls reject. *)
Variable fails : Event -> bool.
(** [siteCredentials], built from the environment. *)
Variable siteCredentials : gmap string LoginCredentials.
(** [customParams]. *)
Variable searchParams : SearchParams.
(** Whether the caller passed an [onProgress] callback. *)
Variable onProgress : bool.
(** [Object.values(siteConfigs)]. *)
Variable siteConfigs : list SiteConfig.
(** [Number(process.env.CONCURRENCY_LIMIT)], [0] when unset or not a
    number; a negative or fractional value is not modelled. *)
Variable CONCURRENCY_LIMIT : nat.

(** A call into the browser or into the caller's callback: it is recorded,
    and it rejects when the world says so. *)
Definition ext (ev : Event) : O unit :=
  fun s => if fails ev then Throw "rejected" (log ev s) else Ok tt (log ev s).

(** Runs a driver function on the job's page. *)
Definition onPage {A} (m : D A) (page : Page) : O (A * Page) :=
  fun s =>
    match m page with
    | Ok a page' => Ok (a, page') s
    | Throw e _ => Throw e s
    | Diverge => Diverge
    end.

Definition totalSites : nat := length siteConfigs.

Definition setupSiteSpecificResourceBlocking (siteConfig : SiteConfig) : O unit :=
  ext (EvPageRoute (name siteConfig)).

(** The body of the [try] block of [processSite]. *)
Definition processSite_try (siteConfig : SiteConfig) : O (option (list Car)) :=
  match siteCredentials !! name siteConfig with
  | None => throw ("No credentials found for " +:+ name siteConfig)
  | Some credentials =>
      if String.eqb (username credentials) "" || String.eqb (password credentials) ""
      then throw ("Missing username or password for " +:+ name siteConfig)
      else
        ext (EvLogin (name siteConfig));;
        '(_, page1) ← onPage (login siteConfig credentials) newPage;
        ext (EvWaitForLoadState (name siteConfig));;
        ext (EvWaitForTimeout (name siteConfig));;
        match shouldNavigateToSearchUrl siteConfig, buildSearchUrl siteConfig with
        | true, Some build =>
            ext (EvGoto (name siteConfig) (build searchParams));;
            ext (EvWaitForLoadState (name siteConfig))
        | _, _ => mret tt
        end;;
        page2 ← match applyFilters siteConfig with
                | Some apply =>
                    ext (EvApplyFilters (name siteConfig));;
                    '(_, p) ← onPage (apply searchParams) page1;
                    mret p
                | None => mret page1
                end;
        match extractCars siteConfig with
        | Some extract =>
            let withParams := String.eqb (name siteConfig) "disposalnetwork" in
            ext (EvExtractCars (name siteConfig) withParams);;
            '(extractedData, _) ←
              onPage (extract (if withParams then Some searchParams else None)) page2;
            (if onProgress then
               s ← get;
               ext (EvProgress (name siteConfig) extractedData totalSites
                      (currentSiteIndex s + 1))
             else mret tt);;
            modify incrSiteIndex;;
            mret (Some extractedData)
        | None =>
            modify incrSiteIndex;;
            mret None
        end
  end.

(** [processSite]: the value is the array of extracted cars or [null]. *)
Definition processSite (siteConfig : SiteConfig) : O (option (list Car)) :=
  ext (EvNewPage (name siteConfig) (useProxies siteConfig));;
  setupSiteSpecificResourceBlocking siteConfig;;
  (if useProxies siteConfig && negb (String.eqb (name siteConfig) "bca")
   then ext (EvContextRoute (name siteConfig))
   else mret tt);;
  tryFinally
    (tryCatch (processSite_try siteConfig)
       (fun error =>
          modify (log (EvConsoleError (name siteConfig) error));;
          modify incrSiteIndex;;
          mret None))
    (ext (EvClosePage (name siteConfig))).

Definition concurrencyLimit : nat :=
  if CONCURRENCY_LIMIT =? 0 then 5 else CONCURRENCY_LIMIT.

(** One of the two arguments of the [Promise.all] of [scrapeAllSites]:
    the batches of one group, then the closing of its Stagehand instance. *)
Definition runGroup (proxied : bool) (group : list SiteConfig)
    : O (list (option (list Car))) :=
  if 0 <? length group then
    results ← runInBatches (map processSite group)
                (Nat.min concurrencyLimit (length group));
    ext (EvClose proxied);;
    mret results
  else mret [].

(** The loop that compiles [allCarData]: [null] results are skipped. *)
Fixpoint compileResults (results : list (option (list Car))) : list Car :=
  match results with
  | [] => []
  | Some siteData :: rest => siteData ++ compileResults rest
  | None :: rest => compileResults rest
  end.

Definition scrapeAllSites : O (list Car) :=
  promiseAll [ext (EvInit true); ext (EvInit false)];;
  let proxySiteConfigs := List.filter useProxies siteConfigs in
  let nonProxySiteConfigs := List.filter (fun config => negb (useProxies config)) siteConfigs in
  groups ← promiseAll [runGroup true proxySiteConfigs; runGroup false nonProxySiteConfigs];
  let results := List.concat groups in
  mret (compileResults results).

End ScrapeAllSites.

Definition initialOrch : Orch := {| currentSiteIndex := 0; events := [] |}.

End Backend.

(** ** The CarToTrade driver ([cartotradeConfig]) *)

Module CarToTrade.
Import Backend.

(** The calls of the driver into the browser.  Consecutive awaits between
    which the driver neither branches nor writes a variable are one call:
    the driver sees none of their results, only whether one of them
    rejects. *)
Inductive Op : Type :=
| OpLogin
| OpCheckMake (make : string)
| OpSetPrice (minPrice maxPrice : Z)
| OpSetMileage (minMileage maxMileage : Z)
| OpSetAge (minAge maxAge : Z)
| OpSearch
| OpOpenRange
| OpSelectRange (value : string)
| OpLoadPage (currentPage : nat).

(** A listing card ([.panel]) of a result page. *)
Inductive Card : Type :=
| CardSkipped
| CardListing (urlRaw : option string)
    (imageUrl title price location reg mileage : JsVal).

(** What the pagination block at the end of a loop iteration meets. *)
Inductive Nav : Type :=
| NavNoNext
| NavDetectRejects
| NavNotVisible
| NavClickRejects
| NavClicked (loadRejects recheckRejects : bool).

Record ResultPage : Type := mkResultPage {
  cards : list Card;
  nav : Nav
}.

(** The site as the driver meets it. *)
Record World : Type := mkWorld {
  rejects : Op -> bool;
  rangeOptions : list (string * option string);
  firstPage : ResultPage;
  morePages : list ResultPage;
  now : string
}.

Section Driver.

Variable w : World.

Definition op (o : Op) : D unit :=
  fun page => if rejects w o then Throw "rejected" page else Ok tt page.

Definition setSearchExecuted (b : bool) (page : Page) : Page :=
  {| cartotradeSearchExecuted := Some b;
     disposalnetworkMakeApplied := disposalnetworkMakeApplied page;
     disposalnetworkModelApplied := disposalnetworkModelApplied page;
     disposalnetworkNoResults := disposalnetworkNoResults page;
     lastDisposalNetworkResponse := lastDisposalNetworkResponse page |}.

Definition login (credentials : LoginCredentials) : D unit := op OpLogin.

(** The predicate of [options.find]: the option's text includes the model,
    case-insensitively. *)
Definition matchesModel (model : string) (opt : string * option string) : bool :=
  match snd opt with
  | Some text =>
      negb (String.eqb text "") && negb (String.eqb model "")
      && includes (toUpperCase text) (toUpperCase model)
  | None => false
  end.

Definition applyFilters (params : SearchParams) : D unit :=
  (if given (make params)
   then op (OpCheckMake (toUpperCase (default "" (make params))))
   else mret tt);;
  op (OpSetPrice (numOr (minPrice params) 0) (numOr (maxPrice params) 100000));;
  op (OpSetMileage (numOr (minMileage params) 0) (numOr (maxMileage params) 100000));;
  op (OpSetAge (numOr (minAge params) 0) (numOr (maxAge params) 25));;
  op OpSearch;;
  if given (model params) then
    op OpOpenRange;;
    match List.find (matchesModel (default "" (model params))) (rangeOptions w) with
    | Some opt =>
        op (OpSelectRange (fst opt));;
        modify (setSearchExecuted true)
    | None => modify (setSearchExecuted false)
    end
  else modify (setSearchExecuted true).

(** The object pushed for one card; a card whose extraction throws is
    skipped. *)
Definition carOfCard (c : Card) : list Car :=
  match c with
  | CardSkipped => []
  | CardListing urlRaw imageUrl title price location reg mileage =>
      let url :=
        match urlRaw with
        | None => JNull
        | Some raw =>
            let u := trim raw in
            if prefixb "/" u then JStr ("https://www.cartotrade.com" +:+ u) else JStr u
        end in
      [JObj [("url", url); ("imageUrl", imageUrl); ("title", title);
             ("price", price); ("location", location); ("registration", reg);
             ("mileage", mileage); ("source", JStr "CarToTrade");
             ("timestamp", JStr (now w))]]
  end.

(** Whether the pagination block leaves [hasMorePages] true: it found a
    control, clicked it, and panels are there afterwards. *)
Definition navContinues (n : Nav) (newCards : nat) : bool :=
  match n with
  | NavClicked false _ => 0 <? newCards
  | NavClicked true false => 0 <? newCards
  | NavClicked true true => false
  | NavNoNext | NavDetectRejects | NavNotVisible | NavClickRejects => false
  end.

(** The [while (hasMorePages)] loop, at the page [p] with the pages [rest]
    behind it. *)
Fixpoint extractPages (p : ResultPage) (rest : list ResultPage)
    (currentPage : nat) (allCarData : list Car) : D (list Car) :=
  op (OpLoadPage currentPage);;
  let allCarData' := allCarData ++ flat_map carOfCard (cards p) in
  match rest with
  | q :: rest' =>
      if navContinues (nav p) (length (cards q))
      then extractPages q rest' (Datatypes.S currentPage) allCarData'
      else mret allCarData'
  | [] => mret allCarData'
  end.

Definition extractCars (params : option SearchParams) : D (list Car) :=
  page ← get;
  match cartotradeSearchExecuted page with
  | Some false => mret []
  | _ => extractPages (firstPage w) (morePages w) 0 []
  end.

Definition cartotradeConfig : SiteConfig :=
  {| name := "CarToTrade";
     baseUrl := "https://www.cartotrade.co.uk";
     loginUrl := "https://www.cartotrade.com/Account/Login?ReturnUrl=%2FHome%2FVehiclesOffered";
     buildSearchUrl := None;
     Backend.login := login;
     Backend.applyFilters := Some applyFilters;
     filtersViaUI := false;
     shouldNavigateToSearchUrl := false;
     Backend.extractCars := Some extractCars;
     useProxies := false |}.

End Driver.

End CarToTrade.

(** ** The Disposal Network driver ([disposalnetworkConfig]) *)

Module DisposalNetwork.
Import Backend.

(** The calls of the driver into the browser, grouped as for CarToTrade. *)
Inductive Op : Type :=
| OpLogin
| OpInitialSearch
| OpOpenMake
| OpFindMake (make : string)
| OpCheckMake (make : string)
| OpOpenRange (model : string)
| OpCheckModel (model : string)
| OpWait
| OpOpenOdometer
| OpSelectMileage (text : string)
| OpMileageWait
| OpSearch
| OpOpenFilter
| OpOpenPrice
| OpOpenAge
| OpSelectOption (text : string)
| OpCloseFilter
| OpFinalWindow
| OpOpenColour (colour : string)
| OpClickColour (colour : string)
| OpCloseColour
| OpFinalWait
| OpFindPageButton (pageNum : nat)
| OpClickPageButton (pageNum : nat).

(** The site as the driver meets it.  An option of a radio group or of a
    drop-down is its text ([null] when the element has none) and whether
    it is disabled. *)
Record World : Type := mkWorld {
  rejects : Op -> bool;
  makeLabel : string -> bool;
  modelLabels : string -> nat;
  mileageOptions : list (option string * bool);
  priceOptions : list (option string * bool);
  ageOptions : list (option string * bool);
  colourLabel : string -> bool;
  capturedBefore : list Response;
  finalSearchResponses : list Response;
  capturedAfter : list Response;
  pageButton : nat -> bool;
  pageResponses : nat -> list Response;
  now : string
}.

Definition mileageRanges : list (Z * string) :=
  [(10000, "Up to 10,000"); (20000, "Up to 20,000"); (30000, "Up to 30,000");
   (40000, "Up to 40,000"); (50000, "Up to 50,000"); (60000, "Up to 60,000");
   (70000, "Up to 70,000"); (80000, "Up to 80,000"); (90000, "Up to 90,000");
   (100000, "Up to 100,000")]%Z.

Definition priceRanges : list (Z * string) :=
  [(2500, "Up to £2,500"); (5000, "Up to £5,000"); (10000, "Up to £10,000");
   (15000, "Up to £15,000"); (20000, "Up to £20,000"); (30000, "Up to £30,000");
   (50000, "Up to £50,000")]%Z.

Definition ageRanges : list (Z * string) :=
  [(1, "Up to 1 year"); (2, "Up to 2 years"); (3, "Up to 3 years");
   (4, "Up to 4 years"); (5, "Up to 5 years")]%Z.

(** [ranges.slice(ranges.indexOf(ranges.find(r => v <= r.max)))]: the
    target range first, then the larger ones. *)
Fixpoint fromTarget (v : Z) (ranges : list (Z * string)) : list (Z * string) :=
  match ranges with
  | [] => []
  | r :: rest => if (v <=? fst r)%Z then ranges else fromTarget v rest
  end.

(** The texts of the options that are not disabled. *)
Definition enabledOptions (options : list (option string * bool)) : list (option string) :=
  map fst (List.filter (fun opt => negb (snd opt)) options).

(** [enabledOptions.find(opt => opt.text === text)], as a condition. *)
Definition hasOption (enabled : list (option string)) (text : string) : bool :=
  existsb (fun t => match t with Some t' => String.eqb t' text | None => false end) enabled.

Section Driver.

Variable w : World.

Definition op (o : Op) : D unit :=
  fun page => if rejects w o then Throw "rejected" page else Ok tt page.

Definition setMakeApplied (b : bool) (page : Page) : Page :=
  {| cartotradeSearchExecuted := cartotradeSearchExecuted page;
     disposalnetworkMakeApplied := Some b;
     disposalnetworkModelApplied := disposalnetworkModelApplied page;
     disposalnetworkNoResults := disposalnetworkNoResults page;
     lastDisposalNetworkResponse := lastDisposalNetworkResponse page |}.

Definition setModelApplied (b : bool) (page : Page) : Page :=
  {| cartotradeSearchExecuted := cartotradeSearchExecuted page;
     disposalnetworkMakeApplied := disposalnetworkMakeApplied page;
     disposalnetworkModelApplied := Some b;
     disposalnetworkNoResults := disposalnetworkNoResults page;
     lastDisposalNetworkResponse := lastDisposalNetworkResponse page |}.

Definition setNoResults (page : Page) : Page :=
  {| cartotradeSearchExecuted := cartotradeSearchExecuted page;
     disposalnetworkMakeApplied := disposalnetworkMakeApplied page;
     disposalnetworkModelApplied := disposalnetworkModelApplied page;
     disposalnetworkNoResults := Some true;
     lastDisposalNetworkResponse := lastDisposalNetworkResponse page |}.

Definition setLastResponse (r : Response) (page : Page) : Page :=
  {| cartotradeSearchExecuted := cartotradeSearchExecuted page;
     disposalnetworkMakeApplied := disposalnetworkMakeApplied page;
     disposalnetworkModelApplied := disposalnetworkModelApplied page;
     disposalnetworkNoResults := disposalnetworkNoResults page;
     lastDisposalNetworkResponse := Some r |}.

Definition login (credentials : LoginCredentials) : D unit := op OpLogin.

(** How a step of [applyFilters] ends: the function goes on, or it has
    executed a [return]. *)
Inductive Flow : Type := Continue | Return.

(** STEP 4.5, the [try] block of the mileage filter. *)
Definition mileageFilter (maxMileage : Z) : D Flow :=
  tryCatch
    (op OpOpenOdometer;;
     let enabled := enabledOptions (mileageOptions w) in
     flow ←
       (if length enabled =? 0 then mret Continue
        else
          match fromTarget maxMileage mileageRanges with
          | targetRange :: _ =>
              if hasOption enabled (snd targetRange)
              then op (OpSelectMileage (snd targetRange));; mret Continue
              else
                match List.find (fun r => hasOption enabled (snd r))
                        (fromTarget maxMileage mileageRanges) with
                | Some fallbackRange =>
                    op (OpSelectMileage (snd fallbackRange));; mret Continue
                | None => modify setNoResults;; mret Return
                end
          | [] =>
              if hasOption enabled "100,000 +"
              then op (OpSelectMileage "100,000 +");; mret Continue
              else modify setNoResults;; mret Return
          end);
     match flow with
     | Return => mret Return
     | Continue => op OpMileageWait;; mret Continue
     end)
    (fun error => mret Continue).

(** The price and the age filter have one shape: open the drop-down, pick
    the target range when it is enabled, give up the search when it is
    not. *)
Definition dropdownFilter (open : Op) (options : list (option string * bool))
    (ranges : list (Z * string)) (v : Z) : D Flow :=
  op open;;
  let enabled := enabledOptions options in
  if length enabled =? 0 then mret Continue
  else
    match fromTarget v ranges with
    | targetRange :: _ =>
        if hasOption enabled (snd targetRange)
        then op (OpSelectOption (snd targetRange));; mret Continue
        else op OpCloseFilter;; modify setNoResults;; mret Return
    | [] => mret Continue
    end.

(** STEP 5.1, the [try] block of the price and age filters. *)
Definition uiFilters (params : SearchParams) : D Flow :=
  tryCatch
    (op OpOpenFilter;;
     flow ← match maxPrice params with
            | Some v => dropdownFilter OpOpenPrice (priceOptions w) priceRanges v
            | None => mret Continue
            end;
     match flow with
     | Return => mret Return
     | Continue =>
         flow' ← match maxAge params with
                 | Some v => dropdownFilter OpOpenAge (ageOptions w) ageRanges v
                 | None => mret Continue
                 end;
         match flow' with
         | Return => mret Return
         | Continue => op OpCloseFilter;; mret Continue
         end
     end)
    (fun error => mret Continue).

(** [color.charAt(0).toUpperCase() + color.slice(1).toLowerCase()]. *)
Definition capitalise (s : string) : string :=
  match s with
  | String c r => String (upper c) (toLowerCase r)
  | EmptyString => EmptyString
  end.

(** STEPS 5 to 7: the search, the filters of the result page, the colour,
    and the response kept for the extraction. *)
Definition searchAndCapture (params : SearchParams) : D unit :=
  op OpSearch;;
  flow ← (if bool_decide (maxPrice params = None) && bool_decide (maxAge params = None)
          then mret Continue else uiFilters params);
  match flow with
  | Return => mret tt
  | Continue =>
      op OpFinalWindow;;
      (if given (color params) then
         let colour := capitalise (default "" (color params)) in
         op (OpOpenColour colour);;
         (if colourLabel w colour then op (OpClickColour colour) else mret tt);;
         op OpCloseColour
       else mret tt);;
      let responses := capturedBefore w ++ finalSearchResponses w ++ capturedAfter w in
      match last responses with
      | None =>
          throw "No matching API response found for vehicle search. Expected '/uk/micro/vehicles/Search' POST request."
      | Some r =>
          modify (setLastResponse r);;
          op OpFinalWait
      end
  end.

Definition applyFilters (params : SearchParams) : D unit :=
  op OpInitialSearch;;
  op OpOpenMake;;
  let MAKE := toUpperCase (default "" (make params)) in
  let MODEL := toUpperCase (default "" (model params)) in
  flow ←
    (if given (make params) then
       op (OpFindMake MAKE);;
       if makeLabel w MAKE
       then op (OpCheckMake MAKE);; modify (setMakeApplied true);; mret Continue
       else modify (setMakeApplied false);; mret Return
     else modify (setMakeApplied true);; mret Continue);
  match flow with
  | Return => mret tt
  | Continue =>
      flow' ←
        (if given (make params) && given (model params) then
           op (OpOpenRange MODEL);;
           if 0 <? modelLabels w MODEL
           then op (OpCheckModel MODEL);; modify (setModelApplied true);; mret Continue
           else modify (setModelApplied false);; mret Return
         else modify (setModelApplied true);; mret Continue);
      match flow' with
      | Return => mret tt
      | Continue =>
          op OpWait;;
          flow'' ← match maxMileage params with
                   | Some v => mileageFilter v
                   | None => mret Continue
                   end;
          match flow'' with
          | Return => mret tt
          | Continue => searchAndCapture params
          end
      end
  end.

(** [data.vehicles] when it is an array. *)
Definition vehiclesOf (data : JsVal) : option (list JsVal) :=
  match data with
  | JObj fields =>
      match assoc "vehicles" fields with
      | JArr l => Some l
      | _ => None
      end
  | _ => None
  end.

(** How one turn of the [for] loop ends. *)
Inductive Turn : Type := Break | Next.

(** The body of the [try] of the loop for the response [latest] of the page:
    an unreadable body or a [null] one throws (and the [catch] breaks), a
    body without a [vehicles] array is skipped, a short page ends the
    loop. *)
Definition readPage (latest : Response) (allCarData : list JsVal)
    : Turn * list JsVal :=
  match json latest with
  | None => (Break, allCarData)
  | Some data =>
      match prop data "vehicles" with
      | None => (Break, allCarData)
      | Some _ =>
          match vehiclesOf data with
          | None => (Next, allCarData)
          | Some vehicles =>
              (if length vehicles <? 25 then Break else Next,
               allCarData ++ vehicles)
          end
      end
  end.

(** The turns of [for (let pageNum = 1; pageNum <= maxPages; pageNum++)]
    for the page numbers [pageNums], with the variables [allResponses] and
    [allCarData].  Nothing escapes the [try] of the body. *)
Fixpoint extractLoop (page : Page) (pageNums : list nat)
    (allResponses : list Response) (allCarData : list JsVal) : list JsVal :=
  match pageNums with
  | [] => allCarData
  | pageNum :: later =>
      let arrived : option (list Response) :=
        if pageNum =? 1 then
          match lastDisposalNetworkResponse page with
          | None => None
          | Some lastResponse => Some (allResponses ++ [lastResponse])
          end
        else if rejects w (OpFindPageButton pageNum) then None
        else if negb (pageButton w pageNum) then None
        else if rejects w (OpClickPageButton pageNum) then None
        else Some (allResponses ++ pageResponses w pageNum) in
      match arrived with
      | None => allCarData
      | Some allResponses' =>
          match last allResponses' with
          | None => extractLoop page later allResponses' allCarData
          | Some latest =>
              match readPage latest allCarData with
              | (Break, allCarData') => allCarData'
              | (Next, allCarData') => extractLoop page later allResponses' allCarData'
              end
          end
      end
  end.

(** STEP 5 of [extractCars]: a [null] or [undefined] vehicle throws inside
    the [try] of the [map] and is filtered out. *)
Definition toCar (vehicle : JsVal) : list Car :=
  match vehicle with
  | JUndefined | JNull => []
  | _ =>
      let f k := default JUndefined (prop vehicle k) in
      [JObj
         [("url", JStr ("https://disposalnetwork.1link.co.uk/uk/tb/app/vehicle/"
                        +:+ toString (or (f "vehicleId") (JStr "unknown"))));
          ("imageUrl", or (f "thumbnail") (JStr ""));
          ("title", JStr (trim (toString (or (f "make") (JStr "Unknown")) +:+ " "
                                +:+ toString (or (f "model") (JStr "Unknown")) +:+ " "
                                +:+ toString (or (f "derivative") (JStr "")))));
          ("price", or (f "buyNowPrice") (JNum 0));
          ("location", or (f "vehicleLocationPostCode") (JStr ""));
          ("registration", or (f "regNo") (JStr ""));
          ("mileage", or (f "mileage") (JNum 0));
          ("source", JStr "DisposalNetwork");
          ("timestamp", JStr (now w))]]
  end.

Definition maxPages : nat := 3.

Definition extractCars (params : option SearchParams) : D (list Car) :=
  page ← get;
  if bool_decide (disposalnetworkNoResults page = Some true) then mret []
  else if bool_decide (disposalnetworkMakeApplied page = Some false) then mret []
  else if bool_decide (disposalnetworkModelApplied page = Some false) then mret []
  else mret (flat_map toCar (extractLoop page (seq 1 maxPages) [] [])).

Definition disposalnetworkConfig : SiteConfig :=
  {| name := "disposalnetwork";
     baseUrl := "https://disposalnetwork.1link.co.uk";
     loginUrl := "https://disposalnetwork.1link.co.uk/uk/tb/app/login";
     buildSearchUrl := None;
     Backend.login := login;
     Backend.applyFilters := Some applyFilters;
     filtersViaUI := false;
     shouldNavigateToSearchUrl := false;
     Backend.extractCars := Some extractCars;
     useProxies := false |}.

End Driver.

End DisposalNetwork.

(** ** The schedule of [runInBatches] and of the two groups

    [runInBatches_loop] above runs the promises of a batch one after the
    other.  On the event loop they are in flight together and settle in any
    order; what the loop itself does in between is fixed by its code.  The
    machine below keeps the loop ([i], [batchSize], the slice) and leaves
    the order of settlement open. *)

Module Scheduler.
Import Backend.

(** A job is known by its index in [tasks]. *)
Inductive Event : Type :=
| Start (k : nat)
| Resolve (k : nat)
| Reject (k : nat).

(** Where the [async] function [runInBatches] stands: at the test of its
    [for] loop, suspended at [await Promise.all(batch)], resolved, or
    rejected. *)
Inductive Phase : Type :=
| AtLoop (i : nat)
| Awaiting (i : nat)
| Returned
| Failed.

(** [running]: the jobs started and not yet settled. *)
Record Thread : Type := mkThread {
  phase : Phase;
  running : list nat
}.

Section RunInBatches.

(** [tasks.length] and [batchSize]. *)
Variables n batchSize : nat.

(** The indices of [tasks.slice(i, i + batchSize)]. *)
Definition batch (i : nat) : list nat := slice i (i + batchSize) (seq 0 n).

(** The chunk number [c] of the partition. *)
Definition chunk (c : nat) : list nat := batch (c * batchSize).

Definition afterReject (ph : Phase) : Phase :=
  match ph with
  | Awaiting _ => Failed
  | _ => ph
  end.

Inductive step : Thread -> list Event -> Thread -> Prop :=
| step_start i r :
    i < n ->
    step (mkThread (AtLoop i) r) (map Start (batch i))
         (mkThread (Awaiting i) (r ++ batch i))
| step_return i r :
    ~ i < n ->
    step (mkThread (AtLoop i) r) [] (mkThread Returned r)
| step_resolve ph r1 k r2 :
    step (mkThread ph (r1 ++ k :: r2)) [Resolve k] (mkThread ph (r1 ++ r2))
| step_reject ph r1 k r2 :
    step (mkThread ph (r1 ++ k :: r2)) [Reject k]
         (mkThread (afterReject ph) (r1 ++ r2))
| step_next i :
    step (mkThread (Awaiting i) []) [] (mkThread (AtLoop (i + batchSize)) []).

(** The runs of the machine, with what they emit. *)
Inductive exec : Thread -> list Event -> Thread -> Prop :=
| exec_nil t : exec t [] t
| exec_step t tr t' evs t'' :
    exec t tr t' -> step t' evs t'' -> exec t (tr ++ evs) t''.

Definition init : Thread := mkThread (AtLoop 0) [].

End RunInBatches.

(** *** The two groups of [scrapeAllSites] *)

Inductive GEvent : Type :=
| Job (proxied : bool) (e : Event)
| Close (proxied : bool).

(** One argument of the outer [Promise.all]: the [runInBatches] of the
    group and whether the [then] callback has called [close()]. *)
Record Group : Type := mkGroup {
  thread : Thread;
  closed : bool
}.

Record Groups : Type := mkGroups {
  proxy : Group;
  nonProxy : Group
}.

Section TwoGroups.

(** [proxySiteConfigs.length], [nonProxySiteConfigs.length] and
    [concurrencyLimit]. *)
Variables nProxy nNonProxy limit : nat.

Definition size (proxied : bool) : nat := if proxied then nProxy else nNonProxy.

Definition batchSizeOf (proxied : bool) : nat := Nat.min limit (size proxied).

(** A group without sites is [Promise.resolve([])]: nothing runs and no
    callback is attached. *)
Definition initGroup (proxied : bool) : Group :=
  if 0 <? size proxied then mkGroup (init) false
  else mkGroup (mkThread Returned []) false.

Inductive gstep (proxied : bool) : Group -> list GEvent -> Group -> Prop :=
| gstep_job t evs t' c :
    0 < size proxied ->
    step (size proxied) (batchSizeOf proxied) t evs t' ->
    gstep proxied (mkGroup t c) (map (Job proxied) evs) (mkGroup t' c)
| gstep_close r :
    0 < size proxied ->
    gstep proxied (mkGroup (mkThread Returned r) false) [Close proxied]
          (mkGroup (mkThread Returned r) true).

Inductive sstep : Groups -> list GEvent -> Groups -> Prop :=
| sstep_proxy p evs p' q :
    gstep true p evs p' -> sstep (mkGroups p q) evs (mkGroups p' q)
| sstep_nonProxy p q evs q' :
    gstep false q evs q' -> sstep (mkGroups p q) evs (mkGroups p q').

Inductive sexec : Groups -> list GEvent -> Groups -> Prop :=
| sexec_nil s : sexec s [] s
| sexec_step s tr s' evs s'' :
    sexec s tr s' -> sstep s' evs s'' -> sexec s (tr ++ evs) s''.

Definition sinit : Groups := mkGroups (initGroup true) (initGroup false).

Definition group (proxied : bool) (s : Groups) : Group :=
  if proxied then proxy s else nonProxy s.

(** Nothing is left to happen. *)
Definition terminal (s : Groups) : Prop := forall evs s', ~ sstep s evs s'.

End TwoGroups.

(** The number of [close()] calls on the instance of a group in a trace. *)
Definition closes (proxied : bool) (tr : list GEvent) : nat :=
  length (List.filter
            (fun e => match e with
                      | Close g => Bool.eqb g proxied
                      | Job _ _ => false
                      end) tr).

End Scheduler.

(** ** The route handler of [setupSiteSpecificResourceBlocking]
    ([src/backend/index.ts]) *)

Module ResourceBlocking.

Inductive Decision : Type := Abort | Continue.

(** [blockedTypes], after the [push] made for a proxy site. *)
Definition blockedTypes (isProxySite : bool) : list string :=
  ["image"; "font"; "media"; "other"]
  ++ (if isProxySite then ["stylesheet"] else []).

Definition blockedDomains : list string :=
  ["google-analytics.com"; "googletagmanager.com"; "facebook.com/tr";
   "doubleclick.net"; "googlesyndication.com"; "amazon-adsystem.com";
   "adsystem.amazon.com"; "scorecardresearch.com"; "quantserve.com";
   "outbrain.com"; "taboola.com"; "adsystem.amazon.com"; "amazon-adsystem.com"].

(** [blockedExtensions], after the [push] made for a proxy site. *)
Definition blockedExtensions (isProxySite : bool) : list string :=
  [".jpg"; ".jpeg"; ".png"; ".gif"; ".svg"; ".webp"; ".ico"; ".woff"; ".woff2";
   ".ttf"; ".eot"; ".mp4"; ".webm"; ".ogg"; ".mp3"; ".wav"]
  ++ (if isProxySite then [".css"; ".scss"; ".sass"; ".less"; ".styl"] else []).

(** The handler passed to [page.route("**/*", ...)], for a request of the
    resource type [resourceType] to [url]. *)
Definition routeHandler (isProxySite : bool) (resourceType url : string) : Decision :=
  if existsb (String.eqb resourceType) (blockedTypes isProxySite) then Abort
  else if existsb (fun domain => includes url domain) blockedDomains then Abort
  else if existsb (fun ext => includes (toLowerCase url) ext)
            (blockedExtensions isProxySite) then Abort
  else Continue.

End ResourceBlocking.

(** ** The search request ([convertSearchParamsToApi] of [vehicleApi.ts],
    [handleSubmit] of [SearchForm.tsx]) *)

Module SearchRequest.

(** The numbers [parseInt] and [Math.max] produce. *)
Inductive Num : Type := NaN | Int (z : Z).

(** [interface SearchParams] of the front end: the values of the form. *)
Record SearchParams : Type := mkSearchParams {
  make : option string;
  model : option string;
  color : option string;
  vatQualifying : option bool;
  minYear : option string;
  maxYear : option string;
  minMileage : option string;
  maxMileage : option string;
  minPrice : option string;
  maxPrice : option string
}.

(** [interface ApiSearchRequest].  [None] is a property that is absent or
    [undefined]: [JSON.stringify] sends neither.  [color] is [null],
    [undefined] or a string. *)
Record ApiSearchRequest : Type := mkApiSearchRequest {
  apiMake : option string;
  apiModel : option string;
  apiMinPrice : option Num;
  apiMaxPrice : option Num;
  apiMinMileage : option Num;
  apiMaxMileage : option Num;
  apiColor : JsVal;
  apiMinAge : option Num;
  apiMaxAge : option Num;
  apiVatQualifying : option bool
}.

(** The value of a character as a digit in the radix, if it is one. *)
Definition digitValue (radix : Z) (c : ascii) : option Z :=
  let n := Z.of_nat (nat_of_ascii c) in
  let v := if ((48 <=? n) && (n <=? 57))%Z then Some (n - 48)%Z
           else if ((97 <=? n) && (n <=? 122))%Z then Some (n - 87)%Z
           else if ((65 <=? n) && (n <=? 90))%Z then Some (n - 55)%Z
           else None in
  match v with
  | Some d => if (d <? radix)%Z then Some d else None
  | None => None
  end.

(** The value of the longest prefix of digits; [acc] is [None] as long as
    no digit was read. *)
Fixpoint digits (radix : Z) (s : string) (acc : option Z) : option Z :=
  match s with
  | String c r =>
      match digitValue radix c with
      | Some d => digits radix r (Some (default 0 acc * radix + d)%Z)
      | None => acc
      end
  | EmptyString => acc
  end.

(** [parseInt(s)], without radix argument: leading white space, a sign, a
    [0x] prefix, then the digits; integers beyond the exact range of the
    doubles are not rounded here. *)
Definition parseInt (s : string) : Num :=
  let s1 := trimStart s in
  let '(sign, s2) :=
    match s1 with
    | String "-" r => ((-1)%Z, r)
    | String "+" r => (1%Z, r)
    | _ => (1%Z, s1)
    end in
  let '(radix, s3) :=
    match s2 with
    | String "0" (String "x" r) | String "0" (String "X" r) => (16%Z, r)
    | _ => (10%Z, s2)
    end in
  match digits radix s3 None with
  | Some z => Int (sign * z)
  | None => NaN
  end.

(** [Math.max(a, b)] for an integer [a]. *)
Definition mathMax (a : Z) (b : Num) : Num :=
  match b with
  | NaN => NaN
  | Int z => Int (Z.max a z)
  end.

(** [a - b] for an integer [a]. *)
Definition minus (a : Z) (b : Num) : Num :=
  match b with
  | NaN => NaN
  | Int z => Int (a - z)
  end.

(** [x < 1]. *)
Definition belowOne (x : Num) : bool :=
  match x with
  | NaN => false
  | Int z => (z <? 1)%Z
  end.

(** [!!s] on an optional string. *)
Definition truthyS (o : option string) : bool :=
  match o with
  | Some s => negb (String.eqb s "")
  | None => false
  end.

(** [s || d] on an optional string. *)
Definition orS (o : option string) (d : string) : string :=
  if truthyS o then default "" o else d.

(** [!s || s.trim() === ""]. *)
Definition blank (o : option string) : bool :=
  negb (truthyS o) || String.eqb (trim (default "" o)) "".

(** [s === v] on an optional string. *)
Definition equals (o : option string) (v : string) : bool :=
  match o with
  | Some s => String.eqb s v
  | None => false
  end.

Definition deleteMake (r : ApiSearchRequest) : ApiSearchRequest :=
  {| apiMake := None; apiModel := apiModel r; apiMinPrice := apiMinPrice r;
     apiMaxPrice := apiMaxPrice r; apiMinMileage := apiMinMileage r;
     apiMaxMileage := apiMaxMileage r; apiColor := apiColor r;
     apiMinAge := apiMinAge r; apiMaxAge := apiMaxAge r;
     apiVatQualifying := apiVatQualifying r |}.

Definition deleteModel (r : ApiSearchRequest) : ApiSearchRequest :=
  {| apiMake := apiMake r; apiModel := None; apiMinPrice := apiMinPrice r;
     apiMaxPrice := apiMaxPrice r; apiMinMileage := apiMinMileage r;
     apiMaxMileage := apiMaxMileage r; apiColor := apiColor r;
     apiMinAge := apiMinAge r; apiMaxAge := apiMaxAge r;
     apiVatQualifying := apiVatQualifying r |}.

Definition deleteMinMileage (r : ApiSearchRequest) : ApiSearchRequest :=
  {| apiMake := apiMake r; apiModel := apiModel r; apiMinPrice := apiMinPrice r;
     apiMaxPrice := apiMaxPrice r; apiMinMileage := None;
     apiMaxMileage := apiMaxMileage r; apiColor := apiColor r;
     apiMinAge := apiMinAge r; apiMaxAge := apiMaxAge r;
     apiVatQualifying := apiVatQualifying r |}.

Definition deleteMaxMileage (r : ApiSearchRequest) : ApiSearchRequest :=
  {| apiMake := apiMake r; apiModel := apiModel r; apiMinPrice := apiMinPrice r;
     apiMaxPrice := apiMaxPrice r; apiMinMileage := apiMinMileage r;
     apiMaxMileage := None; apiColor := apiColor r;
     apiMinAge := apiMinAge r; apiMaxAge := apiMaxAge r;
     apiVatQualifying := apiVatQualifying r |}.

Definition deleteMinPrice (r : ApiSearchRequest) : ApiSearchRequest :=
  {| apiMake := apiMake r; apiModel := apiModel r; apiMinPrice := None;
     apiMaxPrice := apiMaxPrice r; apiMinMileage := apiMinMileage r;
     apiMaxMileage := apiMaxMileage r; apiColor := apiColor r;
     apiMinAge := apiMinAge r; apiMaxAge := apiMaxAge r;
     apiVatQualifying := apiVatQualifying r |}.

Definition deleteMaxPrice (r : ApiSearchRequest) : ApiSearchRequest :=
  {| apiMake := apiMake r; apiModel := apiModel r; apiMinPrice := apiMinPrice r;
     apiMaxPrice := None; apiMinMileage := apiMinMileage r;
     apiMaxMileage := apiMaxMileage r; apiColor := apiColor r;
     apiMinAge := apiMinAge r; apiMaxAge := apiMaxAge r;
     apiVatQualifying := apiVatQualifying r |}.

Definition deleteMinAge (r : ApiSearchRequest) : ApiSearchRequest :=
  {| apiMake := apiMake r; apiModel := apiModel r; apiMinPrice := apiMinPrice r;
     apiMaxPrice := apiMaxPrice r; apiMinMileage := apiMinMileage r;
     apiMaxMileage := apiMaxMileage r; apiColor := apiColor r;
     apiMinAge := None; apiMaxAge := apiMaxAge r;
     apiVatQualifying := apiVatQualifying r |}.

Definition deleteMaxAge (r : ApiSearchRequest) : ApiSearchRequest :=
  {| apiMake := apiMake r; apiModel := apiModel r; apiMinPrice := apiMinPrice r;
     apiMaxPrice := apiMaxPrice r; apiMinMileage := apiMinMileage r;
     apiMaxMileage := apiMaxMileage r; apiColor := apiColor r;
     apiMinAge := apiMinAge r; apiMaxAge := None;
     apiVatQualifying := apiVatQualifying r |}.

(** [if (c) delete ...]. *)
Definition when (c : bool) (f : ApiSearchRequest -> ApiSearchRequest)
    (r : ApiSearchRequest) : ApiSearchRequest :=
  if c then f r else r.

(** [convertSearchParamsToApi(params)], [currentYear] being what
    [new Date().getFullYear()] returns. *)
Definition convertSearchParamsToApi (currentYear : Z) (params : SearchParams)
    : ApiSearchRequest :=
  let apiRequest :=
    {| apiMake := if truthyS (make params) then make params else None;
       apiModel := if truthyS (model params) then model params else None;
       apiMinPrice := Some (parseInt (orS (minPrice params) "0"));
       apiMaxPrice := Some (parseInt (orS (maxPrice params) "1000000"));
       apiMinMileage := Some (parseInt (orS (minMileage params) "0"));
       apiMaxMileage := Some (parseInt (orS (maxMileage params) "1000000"));
       apiColor :=
         if equals (color params) "any_color" then JNull
         else match color params with
              | Some c => JStr c
              | None => JUndefined
              end;
       apiMinAge :=
         if truthyS (minYear params) && negb (equals (minYear params) "any_min_year")
         then Some (mathMax 0 (minus currentYear (parseInt (default "" (minYear params)))))
         else None;
       apiMaxAge :=
         if truthyS (maxYear params) && negb (equals (maxYear params) "any_max_year")
         then Some (mathMax 1 (minus currentYear (parseInt (default "" (maxYear params)))))
         else None;
       apiVatQualifying := vatQualifying params |} in
  let r1 := when (blank (make params) || equals (make params) "any_make")
              deleteMake apiRequest in
  let r2 := when (blank (model params) || equals (model params) "any_model")
              deleteModel r1 in
  let r3 := when (blank (minMileage params)) deleteMinMileage r2 in
  let r4 := when (blank (maxMileage params)) deleteMaxMileage r3 in
  let r5 := when (blank (minPrice params)) deleteMinPrice r4 in
  let r6 := when (blank (maxPrice params)) deleteMaxPrice r5 in
  let r7 := when (negb (truthyS (minYear params))
                  || equals (minYear params) "any_min_year"
                  || bool_decide (apiMinAge r6 = None))
              deleteMinAge r6 in
  when (negb (truthyS (maxYear params))
        || equals (maxYear params) "any_max_year"
        || bool_decide (apiMaxAge r7 = None)
        || match apiMaxAge r7 with Some x => belowOne x | None => false end)
    deleteMaxAge r7.

(** [handleSubmit] of the search form: what it passes to [onSubmit]. *)
Definition handleSubmit (values : SearchParams) : SearchParams :=
  {| make := if equals (make values) "any_make" then None else make values;
     model := if equals (make values) "any_make" then None else model values;
     color := color values;
     vatQualifying := vatQualifying values;
     minYear := minYear values;
     maxYear := maxYear values;
     minMileage := minMileage values;
     maxMileage := maxMileage values;
     minPrice := minPrice values;
     maxPrice := maxPrice values |}.

End SearchRequest.

(** ** The event stream ([handleSSEStream] and [handleSSEEvent] of
    [scrapeSSEApi.ts]) *)

Module Sse.

(** A call of one of the callbacks of [SSEScrapingOptions]. *)
Inductive Call : Type :=
| OnConnected (event : JsVal)
| OnProgress (event : JsVal)
| OnComplete (results : JsVal)
| OnError (error : JsVal).

(** Which callbacks the caller passed. *)
Record Options : Type := mkOptions {
  onProgress : bool;
  onConnected : bool;
  onComplete : bool;
  onError : bool
}.

Definition newline : ascii := "010"%char.

(** [s.split("\n")]. *)
Fixpoint split (s : string) : list string :=
  match s with
  | EmptyString => [""]
  | String c r =>
      if Ascii.eqb c newline then "" :: split r
      else match split r with
           | l :: ls => String c l :: ls
           | [] => [String c ""]
           end
  end.

(** [s.slice(n)]. *)
Fixpoint sliceFrom (n : nat) (s : string) : string :=
  match n, s with
  | 0, _ => s
  | Datatypes.S n', String _ r => sliceFrom n' r
  | Datatypes.S _, EmptyString => EmptyString
  end.

(** [handleSSEEvent]: the calls it makes.  That a callback throws changes
    nothing to what follows: the [catch] around the call logs the error. *)
Definition handleSSEEvent (options : Options) (event : JsVal) : list Call :=
  let type := default JUndefined (prop event "type") in
  match type with
  | JStr "connected" => if onConnected options then [OnConnected event] else []
  | JStr "progress" => if onProgress options then [OnProgress event] else []
  | JStr "complete" =>
      if onComplete options
      then [OnComplete (default JUndefined (prop event "results"))] else []
  | JStr "error" =>
      if onError options
      then [OnError (default JUndefined (prop event "error"))] else []
  | _ => []
  end.

Section Stream.

(** [JSON.parse], [None] when it throws. *)
Variable parse : string -> option JsVal.
Variable options : Options.

(** The body of the [for] loop over the complete lines. *)
Definition handleLine (line : string) : list Call :=
  if prefixb "data: " line then
    match parse (sliceFrom 6 line) with
    | None => []
    | Some eventData =>
        match prop eventData "type" with
        | None => []
        | Some _ => handleSSEEvent options eventData
        end
    end
  else [].

(** One turn of the reading loop for a decoded chunk, [buffer] and the
    calls made so far being the state. *)
Definition readChunk (st : string * list Call) (chunk : string)
    : string * list Call :=
  let buffer := fst st +:+ chunk in
  let lines := split buffer in
  (List.last lines "", snd st ++ flat_map handleLine (removelast lines)).

(** The loop over the chunks the reader returns until [done]: the calls
    made, and what is left in [buffer] when the loop ends. *)
Definition handleSSEStream (chunks : list string) : string * list Call :=
  fold_left readChunk chunks ("", []).

End Stream.

End Sse.

(** ** The progress handler of [RealTimeScraper.tsx] *)

Module RealTimeScraper.

(** The state of the component: [stats], [siteResults], [allResults],
    [error], [isScraping].  Dates are the milliseconds of the clock. *)
Record State : Type := mkState {
  isScraping : bool;
  totalCars : nat;
  sitesCompleted : JsVal;
  totalSites : JsVal;
  startTime : option Z;
  endTime : option Z;
  siteResults : gmap string (list JsVal * bool);
  allResults : list JsVal;
  error : option string
}.

(** The state after [resetState()]. *)
Definition resetState (st : State) : State :=
  {| isScraping := isScraping st; totalCars := 0;
     sitesCompleted := JNum 0; totalSites := JNum 0;
     startTime := None; endTime := None;
     siteResults := ∅; allResults := []; error := None |}.

Definition handleError (now : Z) (errorMessage : string) (st : State) : State :=
  {| isScraping := false; totalCars := totalCars st;
     sitesCompleted := sitesCompleted st; totalSites := totalSites st;
     startTime := startTime st; endTime := Some now;
     siteResults := siteResults st; allResults := allResults st;
     error := Some errorMessage |}.

(** The predicate of the filter that keeps the valid cars. *)
Definition validCar (car : JsVal) : bool :=
  let f k := default JUndefined (prop car k) in
  truthy car
  && match car with
     | JObj _ | JArr _ => true
     | _ => false
     end
  && truthy (or (f "make")
               (or (f "model")
                  (or (f "title") (or (f "name") (f "primaryVehicleDescription"))))).

(** The [onProgress] callback.  [message] is the message of the
    [TypeError] the engine throws, [now] the clock when it is caught. *)
Definition onProgress (now : Z) (message : string) (event : JsVal) (st : State)
    : State :=
  match prop event "type" with
  | None => handleError now ("Error processing results: " +:+ message) st
  | Some (JStr "progress") =>
      let f k := default JUndefined (prop event k) in
      let validCars : option (list JsVal) :=
        match f "cars" with
        | JUndefined | JNull => Some []
        | JArr cars => Some (List.filter validCar cars)
        | _ => None
        end in
      match validCars with
      | None => handleError now ("Error processing results: " +:+ message) st
      | Some validCars =>
          {| isScraping := isScraping st;
             totalCars := totalCars st + length validCars;
             sitesCompleted := f "currentSite";
             totalSites := f "totalSites";
             startTime := startTime st; endTime := endTime st;
             siteResults :=
               <[toString (f "siteName") := (validCars, true)]> (siteResults st);
             allResults := allResults st ++ validCars;
             error := error st |}
      end
  | Some _ => st
  end.

(** What [startScraping] sets before it opens the stream, when no session
    is running: [resetState()], [setIsScraping(true)] and the start time. *)
Definition startScraping (now : Z) (st : State) : State :=
  {| isScraping := true; totalCars := 0;
     sitesCompleted := JNum 0; totalSites := JNum 0;
     startTime := Some now; endTime := None;
     siteResults := ∅; allResults := []; error := None |}.

(** The state after the progress events of a session started at [start],
    each with the clock and the message of the error its handling may
    meet. *)
Definition run (start : Z) (events : list (Z * string * JsVal)) (st : State) : State :=
  fold_left (fun st '(now, message, event) => onProgress now message event st)
    events (startScraping start st).

End RealTimeScraper.

(** ** The result list ([VehicleResults.tsx]) *)

Module VehicleResults.
Import VehicleApi.

(** The predicate of the title filter; [None] when [vehicle.title] has no
    [toLowerCase] method to call. *)
Definition titleMatches (titleSearchTerm : string) (vehicle : Vehicle) : option bool :=
  match title vehicle with
  | JStr t => Some (includes (toLowerCase t) (toLowerCase titleSearchTerm))
  | _ => None
  end.

(** [vehicles.filter(p)] for a predicate that may throw. *)
Fixpoint filterM (p : Vehicle -> option bool) (vehicles : list Vehicle)
    : option (list Vehicle) :=
  match vehicles with
  | [] => Some []
  | v :: rest =>
      match p v with
      | None => None
      | Some b =>
          match filterM p rest with
          | None => None
          | Some kept => Some (if b then v :: kept else kept)
          end
      end
  end.

(** [filteredVehicles]; [None] when the rendering throws. *)
Definition filteredVehicles (titleSearchTerm : string) (vehicles : list Vehicle)
    : option (list Vehicle) :=
  if String.eqb (trim titleSearchTerm) "" then Some vehicles
  else filterM (titleMatches titleSearchTerm) vehicles.

(** [v.source === s]. *)
Definition sourceIs (s : string) (v : Vehicle) : bool :=
  match source v with
  | JStr s' => String.eqb s' s
  | _ => false
  end.

Definition knownSources : list string :=
  ["BCA Marketplace"; "BCA"; "Motorway"; "Motorway Pro"; "CarWow"; "CarToTrade";
   "DisposalNetwork"].

(** [resultGroups], without [all]. *)
Record ResultGroups : Type := mkResultGroups {
  bca : list Vehicle;
  motorway : list Vehicle;
  carwow : list Vehicle;
  cartotrade : list Vehicle;
  disposalnetwork : list Vehicle;
  others : list Vehicle
}.

Definition resultGroups (filtered : list Vehicle) : ResultGroups :=
  {| bca := List.filter (fun v => sourceIs "BCA Marketplace" v || sourceIs "BCA" v) filtered;
     motorway := List.filter (fun v => sourceIs "Motorway" v || sourceIs "Motorway Pro" v) filtered;
     carwow := List.filter (sourceIs "CarWow") filtered;
     cartotrade := List.filter (sourceIs "CarToTrade") filtered;
     disposalnetwork := List.filter (sourceIs "DisposalNetwork") filtered;
     others := List.filter (fun v => negb (existsb (fun s => sourceIs s v) knownSources))
                 filtered |}.

(** The record the front end receives for a car the back end extracted
    and the server sent as JSON: the properties of the object. *)
Definition recordOf (car : JsVal) : gmap string JsVal :=
  match car with
  | JObj fields => list_to_map fields
  | _ => ∅
  end.

End VehicleResults.

(** ** The callbacks of the search page ([handleSearch] of [Index.tsx]) *)

Module Index.
Import VehicleApi.

Record SseProgress : Type := mkSseProgress {
  totalSites : JsVal;
  sitesCompleted : JsVal;
  totalCars : nat
}.

Record Toast : Type := mkToast {
  toastTitle : string;
  description : string;
  destructive : bool
}.

(** The state of the page that the search with SSE touches. *)
Record State : Type := mkState {
  isLoading : bool;
  vehicles : list Vehicle;
  searchPerformed : bool;
  isSSESearchActive : bool;
  sseProgress : SseProgress;
  siteResults : gmap string (list JsVal * bool);
  toasts : list Toast
}.

(** What the callbacks of [searchVehiclesWithSSE] receive, the fallback
    timer, and the [catch] around the call.  [cars] is an array, as its
    type [any[]] says; its entries are whatever the event carried. *)
Inductive Callback : Type :=
| Connected (event : JsVal)
| Progress (siteName : string) (cars : list JsVal)
    (totalSites currentSite : JsVal)
| Complete (results : list JsVal)
| Error (errorMessage : string)
| FallbackTimeout
| SseFailed.

(** The state [handleSearch] sets before it opens the stream. *)
Definition start (st : State) : State :=
  {| isLoading := true; vehicles := []; searchPerformed := false;
     isSSESearchActive := true;
     sseProgress := {| totalSites := JNum 0; sitesCompleted := JNum 0; totalCars := 0 |};
     siteResults := ∅; toasts := toasts st |}.

Section Callbacks.

(** The clock at the conversion of the vehicle number [n] of the search. *)
Variable clock : nat -> Clock.

(** [convertApiVehicleToVehicle(apiVehicle)] on an entry of [cars]: the
    first property read of [null] or [undefined] throws; any other value is
    read as a record, with the properties it has. *)
Definition convertEntry (clk : Clock) (apiVehicle : JsVal) : option Vehicle :=
  match apiVehicle with
  | JUndefined | JNull => None
  | _ => Some (convertApiVehicleToVehicle clk (VehicleResults.recordOf apiVehicle))
  end.

(** [cars.map(apiVehicle => convertApiVehicleToVehicle(apiVehicle))], [n]
    vehicles having been converted before; [None] when a conversion
    throws. *)
Fixpoint convertAll (n : nat) (cars : list JsVal) : option (list Vehicle) :=
  match cars with
  | [] => Some []
  | apiVehicle :: rest =>
      match convertEntry (clock n) apiVehicle with
      | None => None
      | Some vehicle =>
          match convertAll (Datatypes.S n) rest with
          | None => None
          | Some converted => Some (vehicle :: converted)
          end
      end
  end.

(** The callbacks.  In [onProgress] the updates of [siteResults] and of
    [sseProgress] are queued before the cars are converted: when the
    conversion throws, the caller catches and logs the error, these two
    updates stay, and neither the vehicles nor the flags nor the toasts
    change. *)
Definition callback (st : State) (c : Callback) : State :=
  match c with
  | Connected event =>
      let total := or (default JUndefined (prop event "totalSites")) (JNum 0) in
      {| isLoading := isLoading st; vehicles := vehicles st;
         searchPerformed := searchPerformed st;
         isSSESearchActive := isSSESearchActive st;
         sseProgress :=
           {| totalSites :=
                match event with
                | JUndefined | JNull => JNum 0
                | _ => total
                end;
              sitesCompleted := sitesCompleted (sseProgress st);
              totalCars := totalCars (sseProgress st) |};
         siteResults := siteResults st; toasts := toasts st |}
  | Progress siteName cars total currentSite =>
      let progress :=
        {| totalSites := total; sitesCompleted := currentSite;
           totalCars := totalCars (sseProgress st) + length cars |} in
      let results := <[siteName := (cars, true)]> (siteResults st) in
      match convertAll (length (vehicles st)) cars with
      | None =>
          {| isLoading := isLoading st; vehicles := vehicles st;
             searchPerformed := searchPerformed st;
             isSSESearchActive := isSSESearchActive st;
             sseProgress := progress; siteResults := results;
             toasts := toasts st |}
      | Some convertedVehicles =>
          let found := 0 <? length convertedVehicles in
          {| isLoading := if found then false else isLoading st;
             vehicles := vehicles st ++ convertedVehicles;
             searchPerformed := if found then true else searchPerformed st;
             isSSESearchActive := isSSESearchActive st;
             sseProgress := progress; siteResults := results;
             toasts :=
               toasts st
               ++ [{| toastTitle := siteName +:+ " Complete";
                      description := "Found " +:+ pretty (length cars)
                                     +:+ " vehicles from " +:+ siteName;
                      destructive := false |}] |}
      end
  | Complete results =>
      {| isLoading := false; vehicles := vehicles st; searchPerformed := true;
         isSSESearchActive := false; sseProgress := sseProgress st;
         siteResults := siteResults st;
         toasts :=
           toasts st
           ++ [{| toastTitle := "Search Complete";
                  description := "Found " +:+ pretty (length results)
                                 +:+ " vehicles across all websites";
                  destructive := false |}] |}
  | Error errorMessage =>
      {| isLoading := false; vehicles := vehicles st;
         searchPerformed := searchPerformed st;
         isSSESearchActive := false; sseProgress := sseProgress st;
         siteResults := siteResults st;
         toasts :=
           toasts st
           ++ [{| toastTitle := "Search Error"; description := errorMessage;
                  destructive := true |}] |}
  | FallbackTimeout =>
      {| isLoading := isLoading st; vehicles := vehicles st;
         searchPerformed := searchPerformed st;
         isSSESearchActive := isSSESearchActive st;
         sseProgress :=
           {| totalSites :=
                match totalSites (sseProgress st) with
                | JNum 0 => JNum 5
                | t => t
                end;
              sitesCompleted := sitesCompleted (sseProgress st);
              totalCars := totalCars (sseProgress st) |};
         siteResults := siteResults st; toasts := toasts st |}
  | SseFailed =>
      {| isLoading := isLoading st; vehicles := vehicles st;
         searchPerformed := searchPerformed st;
         isSSESearchActive := false;
         sseProgress :=
           {| totalSites := JNum 5;
              sitesCompleted := sitesCompleted (sseProgress st);
              totalCars := totalCars (sseProgress st) |};
         siteResults := siteResults st;
         toasts :=
           toasts st
           ++ [{| toastTitle := "SSE Connection Failed";
                  description :=
                    "Real-time search failed, but you can still use regular search.";
                  destructive := true |}] |}
  end.

(** The state after the callbacks of a search, in the order in which they
    come. *)
Definition search (st : State) (callbacks : list Callback) : State :=
  fold_left callback callbacks (start st).

End Callbacks.

End Index.


(** ** Notions used to state the properties *)

Module Settle.
Import Backend.

(** The tasks of a list, run one after the other from the state [s], all
    resolve: the i-th one with the i-th value of [vs]. *)
Inductive resolvesAll {S T} : list (M S T) -> S -> list T -> S -> Prop :=
| resolves_nil s : resolvesAll [] s [] s
| resolves_cons p rest s v s1 vs s2 :
    p s = Ok v s1 ->
    resolvesAll rest s1 vs s2 ->
    resolvesAll (p :: rest) s (v :: vs) s2.

End Settle.

Module Observe.
Import Backend.

Definition isProgress (ev : Event) : bool :=
  match ev with
  | EvProgress _ _ _ _ => true
  | _ => false
  end.

(** How many times [onProgress] has been called. *)
Definition progressCount (s : Orch) : nat :=
  length (List.filter isProgress (events s)).

(** The number of jobs that resolved with extracted data, not [null]. *)
Definition extracted (results : list (option (list Car))) : nat :=
  length (List.filter (fun r => match r with Some _ => true | None => false end)
            results).

(** The calls that work on the site: login, navigation, filters,
    extraction. *)
Definition isSiteCall (ev : Event) : bool :=
  match ev with
  | EvLogin _ | EvWaitForLoadState _ | EvWaitForTimeout _ | EvGoto _ _
  | EvApplyFilters _ | EvExtractCars _ _ | EvProgress _ _ _ _ => true
  | _ => false
  end.

(** The calls [processSite] makes before it enters its [try] block. *)
Definition preEvents (siteConfig : SiteConfig) : list Event :=
  [EvNewPage (name siteConfig) (useProxies siteConfig);
   EvPageRoute (name siteConfig)]
  ++ (if useProxies siteConfig && negb (String.eqb (name siteConfig) "bca")
      then [EvContextRoute (name siteConfig)] else []).

Definition logAll (evs : list Event) (s : Orch) : Orch :=
  {| currentSiteIndex := currentSiteIndex s; events := events s ++ evs |}.

(** The browser opens, routes and closes the page of the site. *)
Definition pageOk (fails : Event -> bool) (siteConfig : SiteConfig) : Prop :=
  forall ev, In ev (EvClosePage (name siteConfig) :: preEvents siteConfig) ->
             fails ev = false.

(** [siteCredentials] has no entry for the site, or one with an empty
    user name or an empty password. *)
Definition credentialsMissing (siteCredentials : gmap string LoginCredentials)
    (siteConfig : SiteConfig) : Prop :=
  match siteCredentials !! name siteConfig with
  | None => True
  | Some credentials => username credentials = "" \/ password credentials = ""
  end.

(** The message of the error thrown for such a site. *)
Definition credentialsError (siteCredentials : gmap string LoginCredentials)
    (siteConfig : SiteConfig) : string :=
  match siteCredentials !! name siteConfig with
  | None => "No credentials found for " +:+ name siteConfig
  | Some _ => "Missing username or password for " +:+ name siteConfig
  end.

(** [siteCredentials] has a user name and a password for the site. *)
Definition credentialsPresent (siteCredentials : gmap string LoginCredentials)
    (siteConfig : SiteConfig) (credentials : LoginCredentials) : Prop :=
  siteCredentials !! name siteConfig = Some credentials
  /\ username credentials <> "" /\ password credentials <> "".

(** The state after a job of a site without search URL went through and
    extracted [data]: the page was opened, the site logged into, the filters
    applied, the cars extracted, the progress reported when a callback was
    passed, the page closed; nothing was written to the error console. *)
Definition okRun (onProgress : bool) (totalSites : nat) (siteConfig : SiteConfig)
    (data : list Car) (s : Orch) : Orch :=
  let site := name siteConfig in
  {| currentSiteIndex := Datatypes.S (currentSiteIndex s);
     events :=
       events s ++ preEvents siteConfig
       ++ [EvLogin site; EvWaitForLoadState site; EvWaitForTimeout site;
           EvApplyFilters site;
           EvExtractCars site (String.eqb site "disposalnetwork")]
       ++ (if onProgress
           then [EvProgress site data totalSites (currentSiteIndex s + 1)]
           else [])
       ++ [EvClosePage site] |}.

End Observe.

(** *** A filter value without an option on the site *)

Module EarlyExit.
Import Backend.

(** The make and the model of the search are ASCII text. *)
Definition asciiParams (params : SearchParams) : Prop :=
  isAscii (default "" (make params)) = true
  /\ isAscii (default "" (model params)) = true.

(** The texts of the options of the range drop-down are ASCII text. *)
Definition asciiOptions (w : CarToTrade.World) : Prop :=
  Forall (fun opt => isAscii (default "" (snd opt)) = true)
    (CarToTrade.rangeOptions w).

(** The search asks a site, in ASCII text, for a make or a model the site
    has no option for, at one of the places where the driver looks the
    option up: the make label and the model labels of Disposal Network, the
    options of the range drop-down of CarToTrade.  No call of the driver
    into the browser rejects. *)
Inductive unavailable (params : SearchParams) : SiteConfig -> Prop :=
| unavailable_dn_make (w : DisposalNetwork.World) :
    (forall o, DisposalNetwork.rejects w o = false) ->
    asciiParams params ->
    given (make params) = true ->
    DisposalNetwork.makeLabel w (toUpperCase (default "" (make params))) = false ->
    unavailable params (DisposalNetwork.disposalnetworkConfig w)
| unavailable_dn_model (w : DisposalNetwork.World) :
    (forall o, DisposalNetwork.rejects w o = false) ->
    asciiParams params ->
    given (make params) = true ->
    DisposalNetwork.makeLabel w (toUpperCase (default "" (make params))) = true ->
    given (model params) = true ->
    DisposalNetwork.modelLabels w (toUpperCase (default "" (model params))) = 0 ->
    unavailable params (DisposalNetwork.disposalnetworkConfig w)
| unavailable_ct_model (w : CarToTrade.World) :
    (forall o, CarToTrade.rejects w o = false) ->
    asciiParams params ->
    asciiOptions w ->
    given (model params) = true ->
    List.find (CarToTrade.matchesModel (default "" (model params)))
      (CarToTrade.rangeOptions w) = None ->
    unavailable params (CarToTrade.cartotradeConfig w).

End EarlyExit.


(** *** Traces of the scheduler *)

Module Trace.
Import Backend Scheduler.

(** Every occurrence of [y] in the trace has an [x] before it. *)
Definition precedes {A} (tr : list A) (x y : A) : Prop :=
  forall tr1 tr2, tr = tr1 ++ y :: tr2 -> x ∈ tr1.

(** The events of the jobs of one group, in the order of the trace. *)
Definition jobsOf (proxied : bool) (tr : list GEvent) : list Event :=
  flat_map (fun e => match e with
                     | Job g e' => if Bool.eqb g proxied then [e'] else []
                     | Close _ => []
                     end) tr.

(** The jobs started, resolved and rejected, in the order of the trace. *)
Definition started (tr : list Event) : list nat :=
  flat_map (fun e => match e with Start k => [k] | _ => [] end) tr.

Definition resolved (tr : list Event) : list nat :=
  flat_map (fun e => match e with Resolve k => [k] | _ => [] end) tr.

Definition rejected (tr : list Event) : list nat :=
  flat_map (fun e => match e with Reject k => [k] | _ => [] end) tr.

(** The function has returned or thrown and no job is in flight: nothing
    is left to happen. *)
Definition finished (t : Thread) : Prop :=
  running t = [] /\ (phase t = Returned \/ phase t = Failed).

(** The task number [k] of a list of tasks that record in the state when
    they start and when they resolve, and resolve with their number. *)
Definition recorder (k : nat) : M (list Event) nat :=
  fun tr => Ok k (tr ++ [Start k; Resolve k]).

Definition recorders (n : nat) : list (M (list Event) nat) :=
  map recorder (seq 0 n).

Section Invariant.

Variables n batchSize : nat.

(** The count of the jobs at each point of a run: the jobs started are the
    first [m] jobs of the list, each started once and in the order of the
    list; each of them has resolved, has rejected or is in flight, one of
    the three and once; at the test of the loop [m] is the loop index (all
    the jobs once the index has passed the end), during a batch it is the
    end of the batch; no job has rejected unless the function has
    thrown. *)
Definition counted (tr : list Event) (t : Thread) : Prop :=
  exists m,
    m <= n
    /\ started tr = seq 0 m
    /\ Permutation (resolved tr ++ rejected tr ++ running t) (seq 0 m)
    /\ match phase t with
       | AtLoop i => m = Nat.min i n /\ running t = [] /\ rejected tr = []
       | Awaiting i => i < n /\ m = Nat.min (i + batchSize) n /\ rejected tr = []
       | Returned => m = n /\ running t = [] /\ rejected tr = []
       | Failed => rejected tr <> []
       end.

(** The jobs below [i] have resolved. *)
Definition resolvedBelow (i : nat) (tr : list Event) : Prop :=
  forall j, j < i -> j < n -> Resolve j ∈ tr.

(** What holds of [runInBatches] at each point of a run: the loop index is
    a multiple of [batchSize]; the jobs in flight are jobs of the batch
    awaited, all of which have been started; the batches before it are
    done. *)
Definition inv (tr : list Event) (t : Thread) : Prop :=
  match phase t with
  | AtLoop i =>
      (exists c, i = c * batchSize) /\ running t = [] /\ resolvedBelow i tr
  | Awaiting i =>
      (exists c, i = c * batchSize) /\ i < n
      /\ running t `sublist_of` batch n batchSize i
      /\ (forall j, j ∈ batch n batchSize i -> Start j ∈ tr)
      /\ (forall j, j ∈ batch n batchSize i -> j ∉ running t -> Resolve j ∈ tr)
      /\ resolvedBelow i tr
  | Returned => running t = [] /\ resolvedBelow n tr
  | Failed =>
      exists i, (exists c, i = c * batchSize)
        /\ running t `sublist_of` batch n batchSize i
        /\ (forall j, j ∈ batch n batchSize i -> Start j ∈ tr)
        /\ (exists k, Reject k ∈ tr)
  end.

(** No job of a chunk starts before the jobs of the chunk before it have
    resolved. *)
Definition chunksInOrder (tr : list Event) : Prop :=
  forall c j k,
    j ∈ chunk n batchSize c -> k ∈ chunk n batchSize (Datatypes.S c) ->
    precedes tr (Resolve j) (Start k).

(** The jobs of a chunk are all started before one of them settles. *)
Definition chunksTogether (tr : list Event) : Prop :=
  forall c j k,
    j ∈ chunk n batchSize c -> k ∈ chunk n batchSize c ->
    precedes tr (Start j) (Resolve k) /\ precedes tr (Start j) (Reject k).

(** The schedule in which the jobs of every batch resolve in the order of
    the list, which is the order [runInBatches_loop] runs them in. *)
Fixpoint inListOrder (fuel i : nat) : list Event :=
  match fuel with
  | 0 => []
  | Datatypes.S fuel' =>
      if i <? n then
        map Start (batch n batchSize i) ++ map Resolve (batch n batchSize i)
        ++ inListOrder fuel' (i + batchSize)
      else []
  end.

End Invariant.

End Trace.

(** ** Concrete inputs *)

Module Inputs.
Import Backend.

Definition clk0 : VehicleApi.Clock :=
  {| VehicleApi.dateNow := 1700000000000; VehicleApi.randomSuffix := "k3x9";
     VehicleApi.isoNow := "2024-01-01T00:00:00.000Z" |}.

(** Three tasks that resolve with [10], [20] and [30] and count the calls
    in the state. *)
Definition countingTasks : list (M nat nat) :=
  [ (fun s => Ok 10 (s + 1)); (fun s => Ok 20 (s + 1)); (fun s => Ok 30 (s + 1)) ].


Definition noFailures : Event -> bool := fun _ => false.

Definition noParams : SearchParams :=
  {| make := None; model := None; color := None;
     minPrice := None; maxPrice := None; minMileage := None;
     maxMileage := None; minAge := None; maxAge := None |}.

Definition withMake (m : string) : SearchParams :=
  {| make := Some m; model := None; color := None;
     minPrice := None; maxPrice := None; minMileage := None;
     maxMileage := None; minAge := None; maxAge := None |}.

Definition withModel (m : string) : SearchParams :=
  {| make := None; model := Some m; color := None;
     minPrice := None; maxPrice := None; minMileage := None;
     maxMileage := None; minAge := None; maxAge := None |}.

Definition vehicle (vehicleId : Z) (mk mdl : string) : JsVal :=
  JObj [("vehicleId", JNum vehicleId); ("make", JStr mk); ("model", JStr mdl);
        ("buyNowPrice", JNum 15000); ("regNo", JStr "AB12CDE")].

Definition searchResponse (vehicles : list JsVal) : Response :=
  {| json := Some (JObj [("vehicles", JArr vehicles)]) |}.

(** A Disposal Network that lists two vehicles, knows the make BMW and its
    model X5, and on which every call succeeds. *)
Definition dnSite : DisposalNetwork.World :=
  {| DisposalNetwork.rejects := fun _ => false;
     DisposalNetwork.makeLabel := fun m => String.eqb m "BMW";
     DisposalNetwork.modelLabels := fun m => if String.eqb m "X5" then 2 else 0;
     DisposalNetwork.mileageOptions := [];
     DisposalNetwork.priceOptions := [];
     DisposalNetwork.ageOptions := [];
     DisposalNetwork.colourLabel := fun _ => false;
     DisposalNetwork.capturedBefore :=
       [searchResponse [vehicle 1 "BMW" "X5"; vehicle 2 "AUDI" "A4"]];
     DisposalNetwork.finalSearchResponses := [];
     DisposalNetwork.capturedAfter := [];
     DisposalNetwork.pageButton := fun _ => false;
     DisposalNetwork.pageResponses := fun _ => [];
     DisposalNetwork.now := "2024-01-01T00:00:00.000Z" |}.

Definition dnConfig : SiteConfig := DisposalNetwork.disposalnetworkConfig dnSite.

Definition dnCredentials : gmap string LoginCredentials :=
  <["disposalnetwork" := {| username := "buyer"; password := "secret" |}]> ∅.

Definition listing (n : string) : CarToTrade.Card :=
  CarToTrade.CardListing (Some ("/vehicle/" +:+ n)) (JStr "") (JStr ("Car " +:+ n))
    (JStr "£9,000") (JStr "Leeds") (JStr "AB12CDE") (JStr "40,000 miles").

(** A CarToTrade with two result pages, two listings on the first and one
    on the second.  [secondPageLoads] tells whether the calls at the top of
    the second turn of the extraction loop succeed; every other call
    does. *)
Definition ctSite (secondPageLoads : bool) : CarToTrade.World :=
  {| CarToTrade.rejects :=
       fun o => match o with
                | CarToTrade.OpLoadPage 1 => negb secondPageLoads
                | _ => false
                end;
     CarToTrade.rangeOptions := [("17", Some "3 SERIES"); ("18", Some "X5")];
     CarToTrade.firstPage :=
       {| CarToTrade.cards := [listing "1"; listing "2"];
          CarToTrade.nav := CarToTrade.NavClicked false false |};
     CarToTrade.morePages :=
       [{| CarToTrade.cards := [listing "3"]; CarToTrade.nav := CarToTrade.NavNoNext |}];
     CarToTrade.now := "2024-01-01T00:00:00.000Z" |}.

(** The same site, when the click on the control of the next page rejects
    on the first page. *)
Definition ctSiteClickRejects : CarToTrade.World :=
  {| CarToTrade.rejects := fun _ => false;
     CarToTrade.rangeOptions := [("17", Some "3 SERIES"); ("18", Some "X5")];
     CarToTrade.firstPage :=
       {| CarToTrade.cards := [listing "1"; listing "2"];
          CarToTrade.nav := CarToTrade.NavClickRejects |};
     CarToTrade.morePages :=
       [{| CarToTrade.cards := [listing "3"]; CarToTrade.nav := CarToTrade.NavNoNext |}];
     CarToTrade.now := "2024-01-01T00:00:00.000Z" |}.

Definition ctCredentials : gmap string LoginCredentials :=
  <["CarToTrade" := {| username := "buyer"; password := "secret" |}]> ∅.

Definition ctConfig (secondPageLoads : bool) : SiteConfig :=
  CarToTrade.cartotradeConfig (ctSite secondPageLoads).

(** The job of one site, alone in the run, with a callback and a browser
    on which the calls of the orchestrator succeed. *)
Definition job (siteCredentials : gmap string LoginCredentials)
    (params : SearchParams) (siteConfig : SiteConfig)
    : Res Orch (option (list Car)) :=
  processSite noFailures siteCredentials params true [siteConfig] siteConfig
    initialOrch.

(** The whole search over this one site. *)
Definition search (siteCredentials : gmap string LoginCredentials)
    (params : SearchParams) (siteConfig : SiteConfig) : Res Orch (list Car) :=
  scrapeAllSites noFailures siteCredentials params true [siteConfig] 0 initialOrch.

End Inputs.

(** ** Further observations on a run *)

Module Observe2.
Import Backend Settle Observe.

Definition isClosePage (site : string) (ev : Event) : bool :=
  match ev with
  | EvClosePage site' => String.eqb site' site
  | _ => false
  end.

(** The number of [newPage.close()] calls made for a site. *)
Definition closeCount (site : string) (s : Orch) : nat :=
  length (List.filter (isClosePage site) (events s)).

(** The calls on a Stagehand instance itself: [init()] and [close()]. *)
Definition isInstanceEvent (ev : Event) : bool :=
  match ev with
  | EvInit _ | EvClose _ => true
  | _ => false
  end.

Definition isClose (proxied : bool) (ev : Event) : bool :=
  match ev with
  | EvClose g => Bool.eqb g proxied
  | _ => false
  end.

(** The number of [close()] calls on the Stagehand instance of a group. *)
Definition instanceCloseCount (proxied : bool) (s : Orch) : nat :=
  length (List.filter (isClose proxied) (events s)).

(** The calls that set a page up before the [try] block. *)
Definition isSetup (ev : Event) : bool :=
  match ev with
  | EvNewPage _ _ | EvPageRoute _ | EvContextRoute _ => true
  | _ => false
  end.

(** The cars handed to [onProgress], call after call. *)
Definition reportedBy (evs : list Event) : list Car :=
  flat_map (fun ev => match ev with
                      | EvProgress _ cars _ _ => cars
                      | _ => []
                      end) evs.

Definition reported (s : Orch) : list Car := reportedBy (events s).

(** An [onProgress] call, if [ev] is one, announces [total] sites and the
    current site [current]. *)
Definition progressAt (total current : nat) (ev : Event) : Prop :=
  match ev with
  | EvProgress _ _ t c => t = total /\ c = current
  | _ => True
  end.

(** Every [onProgress] call of the list announced [total] sites and a
    current site above [lo] and not above [hi]. *)
Definition progressBetween (total lo hi : nat) (evs : list Event) : Prop :=
  Forall (fun ev => match ev with
                    | EvProgress _ _ t c => t = total /\ lo < c <= hi
                    | _ => True
                    end) evs.

(** The caller's callback does not throw. *)
Definition callbackReturns (fails : Event -> bool) : Prop :=
  forall site cars total current, fails (EvProgress site cars total current) = false.

(** What the [try] block of a job has added to the log when it settles,
    [cars] being what it has reported. *)
Definition tryAdded (fails : Event -> bool) (total : nat) (s s1 : Orch)
    (cars : list Car) : Prop :=
  exists added,
    events s1 = events s ++ added
    /\ Forall (fun ev => isSiteCall ev = true) added
    /\ Forall (progressAt total (currentSiteIndex s + 1)) added
    /\ (callbackReturns fails -> reportedBy added = cars).

(** What a job has added to the log when it settles. *)
Definition jobAdded (fails : Event -> bool) (total : nat) (siteConfig : SiteConfig)
    (s s' : Orch) (cars : option (list Car)) : Prop :=
  exists added,
    events s' = events s ++ added
    /\ Forall (fun ev => isInstanceEvent ev = false) added
    /\ Forall (progressAt total (currentSiteIndex s + 1)) added
    /\ length (List.filter (isClosePage (name siteConfig)) added)
       = (if existsb fails (preEvents siteConfig) then 0 else 1)
    /\ (callbackReturns fails -> forall d, cars = Some d -> reportedBy added = d).

(** The cars a job reports when it resolves with [r]. *)
Definition reportOf (onProgress : bool) (r : option (list Car)) : list Car :=
  match r with
  | Some data => if onProgress then data else []
  | None => []
  end.

(** The task [p] keeps the property [P] of the state, however it
    settles. *)
Definition keeps {S T} (P : S -> Prop) (p : M S T) : Prop :=
  forall s, P s -> match p s with
                   | Ok _ s' | Throw _ s' => P s'
                   | Diverge => True
                   end.

(** What [.then(close)] adds for a group with sites. *)
Definition closeIf (proxied : bool) (group : list SiteConfig) (s : Orch) : Orch :=
  if 0 <? length group then log (EvClose proxied) s else s.

(** The state in which the jobs start: both instances initialised. *)
Definition afterInit : Orch := log (EvInit false) (log (EvInit true) initialOrch).

(** What the jobs of a group have added to the log when all have
    resolved. *)
Definition jobsAdded (fails : Event -> bool) (onProgress : bool) (total : nat)
    (group : list SiteConfig) (s s' : Orch) (results : list (option (list Car)))
    : Prop :=
  currentSiteIndex s' = currentSiteIndex s + length group
  /\ length results = length group
  /\ exists added,
       events s' = events s ++ added
       /\ Forall (fun ev => isInstanceEvent ev = false) added
       /\ progressBetween total (currentSiteIndex s)
            (currentSiteIndex s + length group) added
       /\ (callbackReturns fails ->
           reportedBy added = flat_map (reportOf onProgress) results).

End Observe2.

(** ** The site table *)

Module SiteTable.
Import Backend Inputs.

(** The site table of [scrapeAllSites] (index.ts, 246-252): bca built on
    the proxy-enabled instance, motorway, carwow and disposalnetwork on the
    standard one, in this order.  The drivers of the first three are not
    among the sources, so the table takes them as parameters. *)
Definition siteTable (bca motorway carwow : SiteConfig)
    (w : DisposalNetwork.World) : list SiteConfig :=
  [bca; motorway; carwow; DisposalNetwork.disposalnetworkConfig w].

(** What index.ts tells about the three drivers: their names, which are
    the keys of [siteCredentials] and the name [processSite] tests for, and
    the instance each is built on. *)
Definition asConfigured (bca motorway carwow : SiteConfig) : Prop :=
  name bca = "bca" /\ useProxies bca = true
  /\ name motorway = "motorway" /\ useProxies motorway = false
  /\ name carwow = "carwow" /\ useProxies carwow = false.

(** A driver to stand for one of the three: its functions resolve at once
    and its extraction finds nothing. *)
Definition standIn (site : string) (proxied : bool) : SiteConfig :=
  {| name := site; baseUrl := ""; loginUrl := "";
     buildSearchUrl := None;
     login := fun _ => mret tt;
     applyFilters := None;
     filtersViaUI := false;
     shouldNavigateToSearchUrl := false;
     extractCars := Some (fun _ => mret []);
     useProxies := proxied |}.

Definition standInTable : list SiteConfig :=
  siteTable (standIn "bca" true) (standIn "motorway" false)
    (standIn "carwow" false) dnSite.

(** The entry of [siteCredentials] for a site whose two environment
    variables are not set. *)
Definition unset : LoginCredentials := {| username := ""; password := "" |}.

(** [siteCredentials] (index.ts, 260-281) when the environment sets the
    credentials [dn] for Disposal Network and none for the other sites. *)
Definition credentialsWith (dn : LoginCredentials) : gmap string LoginCredentials :=
  <["bca" := unset]> (<["motorway" := unset]> (<["carwow" := unset]>
    (<["CarToTrade" := unset]> (<["disposalnetwork" := dn]> ∅)))).

Definition buyer : LoginCredentials := {| username := "buyer"; password := "secret" |}.

(** A browser whose proxy-enabled context opens no page. *)
Definition proxyPageFails : Event -> bool :=
  fun ev => match ev with
            | EvNewPage _ true => true
            | _ => false
            end.

End SiteTable.

(** ** The order in which the jobs finish *)

Module Completion.
Import Backend Observe.

(** How a job ends, as far as [currentSiteIndex] and [onProgress] go.  In
    [processSite] the lines from the return of the extraction to
    [currentSiteIndex++] (index.ts, 443-484) hold no [await], and neither
    does the [catch] block (487-490): each runs in one piece, whatever the
    other jobs are doing.  A job either calls [onProgress] and counts
    itself (in the [try] block, or in the [catch] block when the callback
    threw), or counts itself without a call, or rejects before its [try]
    block and does neither. *)
Inductive Ending : Type :=
| Reported (site : string) (cars : list Car)
| Counted
| Uncounted.

Definition finish (total : nat) (e : Ending) (s : Orch) : Orch :=
  match e with
  | Reported site cars =>
      incrSiteIndex (log (EvProgress site cars total (currentSiteIndex s + 1)) s)
  | Counted => incrSiteIndex s
  | Uncounted => s
  end.

(** The jobs end in the order [endings]. *)
Definition finishAll (total : nat) (endings : list Ending) (s : Orch) : Orch :=
  fold_left (fun s e => finish total e s) endings s.

(** What is seen of a state here: the counter and the calls of
    [onProgress]. *)
Definition view (s : Orch) : nat * list Event :=
  (currentSiteIndex s, List.filter isProgress (events s)).

(** The current sites announced, call after call. *)
Definition announced (s : Orch) : list nat :=
  flat_map (fun ev => match ev with
                      | EvProgress _ _ _ current => [current]
                      | _ => []
                      end) (events s).

(** The totals announced, call after call. *)
Definition totals (s : Orch) : list nat :=
  flat_map (fun ev => match ev with
                      | EvProgress _ _ total _ => [total]
                      | _ => []
                      end) (events s).

End Completion.

Module Inputs2.
Import Backend Inputs.

Definition bothCredentials : gmap string LoginCredentials :=
  <["CarToTrade" := {| username := "buyer"; password := "secret" |}]> dnCredentials.

(** Disposal Network and CarToTrade, both without proxy. *)
Definition bothConfigs : list SiteConfig := [dnConfig; ctConfig true].

(** The search over the two sites, with a callback and a browser on which
    the calls of the orchestrator succeed. *)
Definition searchBoth (params : SearchParams) : Res Orch (list Car) :=
  scrapeAllSites noFailures bothCredentials params true bothConfigs 0 initialOrch.

(** A browser that cannot set up the routes of a page. *)
Definition routeFails : Event -> bool :=
  fun ev => match ev with
            | EvPageRoute _ => true
            | _ => false
            end.

(** A browser on which the proxy-enabled instance does not start. *)
Definition proxyInitFails : Event -> bool :=
  fun ev => match ev with
            | EvInit true => true
            | _ => false
            end.

(** Four tasks counting the calls in the state; the second one rejects. *)
Definition secondRejects : list (M nat nat) :=
  [ (fun s => Ok 10 (s + 1)); (fun s => Throw "boom" (s + 1));
    (fun s => Ok 30 (s + 1)); (fun s => Ok 40 (s + 1)) ].

End Inputs2.

Module Inputs3.
Import SearchRequest.

(** The form after the user chose the years 2015 to 2020, a maximum
    mileage and the model X5, with [Any make]. *)
Definition yearsForm : SearchRequest.SearchParams :=
  {| make := Some "any_make"; model := Some "X5"; color := Some "";
     vatQualifying := Some false;
     minYear := Some "2015"; maxYear := Some "2020";
     minMileage := Some ""; maxMileage := Some "50000";
     minPrice := Some ""; maxPrice := Some "" |}.

(** The form with the make BMW and the model X5. *)
Definition bmwForm : SearchRequest.SearchParams :=
  {| make := Some "BMW"; model := Some "X5"; color := Some "";
     vatQualifying := Some false;
     minYear := Some "any_min_year"; maxYear := Some "any_max_year";
     minMileage := Some ""; maxMileage := Some "";
     minPrice := Some ""; maxPrice := Some "" |}.

Definition lf : string := String Sse.newline "".

(** A stand-in for [JSON.parse] that knows two texts. *)
Definition parseLetter (s : string) : option JsVal :=
  if String.eqb s "C" then Some (JObj [("type", JStr "connected")])
  else if String.eqb s "P" then Some (JObj [("type", JStr "progress"); ("cars", JArr [])])
  else None.

Definition allCallbacks : Sse.Options :=
  {| Sse.onProgress := true; Sse.onConnected := true;
     Sse.onComplete := true; Sse.onError := true |}.

(** Two events, the second one cut in two by the chunking. *)
Definition twoChunks : list string :=
  ["data: C" +:+ lf +:+ "da"; "ta: P" +:+ lf].

End Inputs3.

(** ** Invariants of the front-end state *)

Module Invariants.

(** The counters of [RealTimeScraper] agree with its lists: [totalCars]
    counts [allResults], which holds valid cars only, and the cars listed
    for a site are among them. *)
Definition scraperConsistent (st : RealTimeScraper.State) : Prop :=
  RealTimeScraper.totalCars st = length (RealTimeScraper.allResults st)
  /\ Forall (fun car => RealTimeScraper.validCar car = true)
       (RealTimeScraper.allResults st)
  /\ forall site cars completed,
       RealTimeScraper.siteResults st !! site = Some (cars, completed) ->
       completed = true /\ incl cars (RealTimeScraper.allResults st).

(** The counters of the search page bound its list: [totalCars] is at
    least the number of vehicles shown, and once a vehicle is shown the
    page is not loading any more and the search is marked as performed. *)
Definition pageConsistent (st : Index.State) : Prop :=
  length (Index.vehicles st) <= Index.totalCars (Index.sseProgress st)
  /\ (Index.vehicles st <> [] ->
      Index.isLoading st = false /\ Index.searchPerformed st = true).

(** No entry of the cars of a progress event is [null] or [undefined]. *)
Definition carsAreValues (c : Index.Callback) : Prop :=
  match c with
  | Index.Progress _ cars _ _ =>
      Forall (fun car => car <> JNull /\ car <> JUndefined) cars
  | _ => True
  end.

End Invariants.

(** ** Notions used for the drivers *)

Module Drivers.
Import Backend.

(** Two searches that differ by the case of the letters of the make and of
    the model only. *)
Definition sameUpToCase (p p' : SearchParams) : Prop :=
  toUpperCase <$> make p = toUpperCase <$> make p'
  /\ toUpperCase <$> model p = toUpperCase <$> model p'
  /\ color p = color p'
  /\ minPrice p = minPrice p' /\ maxPrice p = maxPrice p'
  /\ minMileage p = minMileage p' /\ maxMileage p = maxMileage p'
  /\ minAge p = minAge p' /\ maxAge p = maxAge p'.

(** A flag of the page tells the extraction of Disposal Network to return
    nothing. *)
Definition flagged (page : Page) : Prop :=
  disposalnetworkMakeApplied page = Some false
  \/ disposalnetworkModelApplied page = Some false
  \/ disposalnetworkNoResults page = Some true.

(** The last response to the vehicle search that the filter step of
    Disposal Network has captured. *)
Definition lastCaptured (w : DisposalNetwork.World) : option Response :=
  last (DisposalNetwork.capturedBefore w ++ DisposalNetwork.finalSearchResponses w
        ++ DisposalNetwork.capturedAfter w).

(** The body of a response lists at most [n] vehicles. *)
Definition pageSizeAtMost (n : nat) (r : Response) : Prop :=
  forall data vehicles,
    json r = Some data -> DisposalNetwork.vehiclesOf data = Some vehicles ->
    length vehicles <= n.

(** On the pages 2 and 3 the page button is there and the click succeeds,
    but no response to the search is captured. *)
Definition unanswered (w : DisposalNetwork.World) : Prop :=
  forall pageNum,
    DisposalNetwork.rejects w (DisposalNetwork.OpFindPageButton pageNum) = false
    /\ DisposalNetwork.pageButton w pageNum = true
    /\ DisposalNetwork.rejects w (DisposalNetwork.OpClickPageButton pageNum) = false
    /\ DisposalNetwork.pageResponses w pageNum = [].

End Drivers.

Module Inputs4.
Import Backend Inputs.

Definition lowerBmw : SearchParams :=
  {| make := Some "bmw"; model := Some "x5"; color := None;
     minPrice := None; maxPrice := None; minMileage := None;
     maxMileage := None; minAge := None; maxAge := None |}.

Definition upperBmw : SearchParams :=
  {| make := Some "BMW"; model := Some "X5"; color := None;
     minPrice := None; maxPrice := None; minMileage := None;
     maxMileage := None; minAge := None; maxAge := None |}.

(** Twenty-five vehicles, a full page of the search. *)
Definition fullPage : list JsVal :=
  map (fun n => vehicle (Z.of_nat n) "BMW" "X5") (seq 1 25).

(** A Disposal Network whose search fills a page, and on which the clicks
    on the buttons of the pages 2 and 3 succeed without a new response
    being captured. *)
Definition silentSite : DisposalNetwork.World :=
  {| DisposalNetwork.rejects := fun _ => false;
     DisposalNetwork.makeLabel := fun m => String.eqb m "BMW";
     DisposalNetwork.modelLabels := fun m => if String.eqb m "X5" then 2 else 0;
     DisposalNetwork.mileageOptions := [];
     DisposalNetwork.priceOptions := [];
     DisposalNetwork.ageOptions := [];
     DisposalNetwork.colourLabel := fun _ => false;
     DisposalNetwork.capturedBefore := [searchResponse fullPage];
     DisposalNetwork.finalSearchResponses := [];
     DisposalNetwork.capturedAfter := [];
     DisposalNetwork.pageButton := fun _ => true;
     DisposalNetwork.pageResponses := fun _ => [];
     DisposalNetwork.now := "2024-01-01T00:00:00.000Z" |}.

(** The page after the filters of a search without parameters on this
    site. *)
Definition silentPage : Page :=
  DisposalNetwork.setLastResponse (searchResponse fullPage)
    (DisposalNetwork.setModelApplied true (DisposalNetwork.setMakeApplied true newPage)).

End Inputs4.

Module Inputs5.
Import VehicleApi Inputs.

(** A raw record whose title is a number, as JSON carries it for the
    Peugeot 2008 when the site gives the bare model as title. *)
Definition numericTitle : gmap string JsVal :=
  <["title" := JNum 2008]> (<["source" := JStr "CarToTrade"]> ∅).

Definition plainVehicle : Vehicle :=
  convertApiVehicleToVehicle clk0 (<["title" := JStr "BMW X5 xDrive"]> ∅).

End Inputs5.

(** * Properties *)

(** ** The result normaliser *)

Module VehicleApiProps.
Import VehicleApi Inputs.

Example title_first :
  title (convertApiVehicleToVehicle clk0
           (<["title" := JStr "BMW 320d"]>
              (<["primaryVehicleDescription" := JStr "BMW 3 Series"]> ∅)))
  = JStr "BMW 320d".
Proof. vm_compute. reflexivity. Qed.

Example title_make_model :
  title (convertApiVehicleToVehicle clk0
           (<["make" := JStr "BMW"]> (<["model" := JStr "X5"]> ∅)))
  = JStr "BMW X5".
Proof. vm_compute. reflexivity. Qed.

Example title_make_only :
  title (convertApiVehicleToVehicle clk0 (<["make" := JStr "BMW"]> ∅))
  = JStr "BMW undefined".
Proof. vm_compute. reflexivity. Qed.

Example id_generated :
  id (convertApiVehicleToVehicle clk0 ∅) = JStr "1700000000000-k3x9".
Proof. vm_compute. reflexivity. Qed.

Example price_string_kept :
  price (convertApiVehicleToVehicle clk0 (<["price" := JStr "£12,500"]> ∅))
  = JStr "£12,500".
Proof. vm_compute. reflexivity. Qed.

Lemma append_assoc (a b c : string) : (a +:+ b) +:+ c = a +:+ (b +:+ c).
Proof.
  induction a as [|x a IH]; [reflexivity|].
  change (String x ((a +:+ b) +:+ c) = String x (a +:+ (b +:+ c))).
  rewrite IH. reflexivity.
Qed.

(** The string [make + " " + model] has a space in it whatever [make] and
    [model] are, so it is truthy. *)
Lemma make_model_truthy (a b : JsVal) : truthy (add (add a (JStr " ")) b) = true.
Proof.
  unfold add. cbn [truthy toString].
  destruct (toString a) as [|c r]; reflexivity.
Qed.

(** What the [title] expression computes: the first truthy of [title] and
    [primaryVehicleDescription], else the concatenation.  The operand
    ["Unknown Vehicle"] is never reached. *)
Lemma title_resolution (clk : Clock) (apiVehicle : gmap string JsVal) :
  title (convertApiVehicleToVehicle clk apiVehicle) =
    if truthy (get apiVehicle "title") then get apiVehicle "title"
    else if truthy (get apiVehicle "primaryVehicleDescription")
         then get apiVehicle "primaryVehicleDescription"
         else JStr (toString (get apiVehicle "make") +:+ " "
                    +:+ toString (get apiVehicle "model")).
Proof.
  cbn [convertApiVehicleToVehicle title]. unfold or at 1 2.
  destruct (truthy (get apiVehicle "title")); [reflexivity|].
  destruct (truthy (get apiVehicle "primaryVehicleDescription")); [reflexivity|].
  unfold or. rewrite make_model_truthy. unfold add. cbn [toString].
  f_equal. apply append_assoc.
Qed.

(** C6, at the input on which the code departs from the claim: a raw
    record with none of [title], [primaryVehicleDescription], [make] and
    [model] gets the title ["undefined undefined"], whatever the clock, and
    not ["Unknown Vehicle"]. *)
Theorem title_of_empty_record (clk : Clock) :
  title (convertApiVehicleToVehicle clk ∅) = JStr "undefined undefined"
  /\ title (convertApiVehicleToVehicle clk ∅) <> JStr "Unknown Vehicle".
Proof.
  rewrite title_resolution. split; [reflexivity|discriminate].
Qed.

(** C7 as stated fails at the price [0]: the number becomes the string
    ["0"]. *)
Lemma price_zero_not_preserved :
  let apiVehicle : gmap string JsVal := <["price" := JNum 0]> ∅ in
  apiVehicle !! "price" = Some (JNum 0)
  /\ price (convertApiVehicleToVehicle clk0 apiVehicle) = JStr "0"
  /\ price (convertApiVehicleToVehicle clk0 apiVehicle) <> JNum 0.
Proof. vm_compute. split; [reflexivity|split; [reflexivity|discriminate]]. Qed.

(** C7, amended: a truthy price (a non-empty string, a number other than
    [0]) is kept as it is; any other price, absent or falsy, is replaced by
    the string ["0"]. *)
Theorem price_kept_when_truthy (clk : Clock) (apiVehicle : gmap string JsVal) :
  price (convertApiVehicleToVehicle clk apiVehicle) =
    if truthy (get apiVehicle "price") then get apiVehicle "price" else JStr "0".
Proof.
  cbn [convertApiVehicleToVehicle price]. unfold or.
  destruct (truthy (get apiVehicle "price")); reflexivity.
Qed.

End VehicleApiProps.

(** ** [runInBatches] *)

Module RunInBatchesProps.
Import Backend Settle Inputs.

Ltac unfold_M :=
  unfold mbind, mret, M_bind, M_ret, bind, ret, throw, modify, get in *.

Section Generic.

Context {S T : Type}.
Implicit Types (tasks ps : list (M S T)) (vs : list T) (s : S).

Lemma promiseAll_resolves ps s vs s' :
  resolvesAll ps s vs s' -> promiseAll ps s = Ok vs s'.
Proof.
  induction 1 as [|p rest s v s1 vs s2 Hp _ IH]; cbn; [reflexivity|].
  rewrite Hp, IH. reflexivity.
Qed.

Lemma promiseAll_Ok_inv ps : forall s vs s',
  promiseAll ps s = Ok vs s' -> resolvesAll ps s vs s'.
Proof.
  induction ps as [|p rest IH]; intros s vs s' H; cbn in H.
  - inversion H; subst. constructor.
  - destruct (p s) as [a s1|e s1|] eqn:Hp; [|destruct (promiseAll rest s1)|]; try discriminate.
    destruct (promiseAll rest s1) as [l s2|e s2|] eqn:Hr; try discriminate.
    inversion H; subst. econstructor; eauto.
Qed.

Lemma resolvesAll_length ps s vs s' :
  resolvesAll ps s vs s' -> length vs = length ps.
Proof. induction 1; cbn; congruence. Qed.

Lemma resolvesAll_app_inv ps1 : forall ps2 s vs s',
  resolvesAll (ps1 ++ ps2) s vs s' ->
  exists vs1 vs2 sm,
    vs = vs1 ++ vs2 /\ resolvesAll ps1 s vs1 sm /\ resolvesAll ps2 sm vs2 s'.
Proof.
  induction ps1 as [|p ps1 IH]; intros ps2 s vs s' H; cbn in H.
  - exists [], vs, s. repeat split; [constructor|assumption].
  - inversion H as [|? ? ? v s1 vs0 ? Hp Hrest]; subst.
    destruct (IH _ _ _ _ Hrest) as (vs1 & vs2 & sm & -> & H1 & H2).
    exists (v :: vs1), vs2, sm. repeat split; [econstructor; eauto|assumption].
Qed.

Lemma resolvesAll_app ps1 ps2 s vs1 sm vs2 s' :
  resolvesAll ps1 s vs1 sm -> resolvesAll ps2 sm vs2 s' ->
  resolvesAll (ps1 ++ ps2) s (vs1 ++ vs2) s'.
Proof.
  induction 1; cbn; intros; [assumption|]. econstructor; eauto.
Qed.

(** The i-th value is the one the i-th task resolved with. *)
Lemma resolvesAll_lookup ps s vs s' :
  resolvesAll ps s vs s' ->
  forall i p, ps !! i = Some p ->
  exists v si si', vs !! i = Some v /\ p si = Ok v si'.
Proof.
  induction 1 as [|p0 rest s v s1 vs s2 Hp _ IH]; intros i p Hi.
  - destruct i; discriminate.
  - destruct i as [|i]; cbn in Hi.
    + inversion Hi; subst. exists v, s, s1. split; [reflexivity|assumption].
    + destruct (IH i p Hi) as (v' & si & si' & ? & ?). exists v', si, si'. auto.
Qed.

Lemma slice_take_drop {A} (l : list A) i n : slice i (i + n) l = take n (drop i l).
Proof. unfold slice. f_equal. lia. Qed.

(** The loop from the index [i] on, when the tasks from [i] on resolve. *)
Lemma loop_resolves tasks batchSize :
  1 <= batchSize ->
  forall fuel i results s vs s',
    length tasks - i < fuel ->
    resolvesAll (drop i tasks) s vs s' ->
    runInBatches_loop fuel tasks batchSize i results s = Ok (results ++ vs) s'.
Proof.
  intros Hb. induction fuel as [|fuel IH]; intros i results s vs s' Hf Hr; [lia|].
  cbn [runInBatches_loop]. destruct (i <? length tasks) eqn:Hi.
  - apply Nat.ltb_lt in Hi. rewrite slice_take_drop. unfold_M.
    rewrite <- (take_drop batchSize (drop i tasks)) in Hr.
    apply resolvesAll_app_inv in Hr as (vs1 & vs2 & sm & -> & H1 & H2).
    rewrite (promiseAll_resolves _ _ _ _ H1).
    rewrite drop_drop in H2.
    rewrite (IH (i + batchSize) (results ++ vs1) sm vs2 s'); [|lia|assumption].
    rewrite <- app_assoc. reflexivity.
  - apply Nat.ltb_ge in Hi. rewrite drop_ge in Hr by assumption.
    inversion Hr; subst. unfold_M. rewrite app_nil_r. reflexivity.
Qed.

(** Conversely, when the loop resolves, every task from [i] on has. *)
Lemma loop_Ok_inv tasks batchSize :
  forall fuel i results s out s',
    runInBatches_loop fuel tasks batchSize i results s = Ok out s' ->
    exists vs, out = results ++ vs /\ resolvesAll (drop i tasks) s vs s'.
Proof.
  induction fuel as [|fuel IH]; intros i results s out s' H; [discriminate|].
  cbn [runInBatches_loop] in H. destruct (i <? length tasks) eqn:Hi.
  - rewrite slice_take_drop in H. unfold_M.
    destruct (promiseAll (take batchSize (drop i tasks)) s) as [vs1 sm|e sm|] eqn:Hp;
      try discriminate.
    apply promiseAll_Ok_inv in Hp.
    apply IH in H as (vs2 & -> & H2).
    exists (vs1 ++ vs2). split; [symmetry; apply app_assoc|].
    rewrite <- (take_drop batchSize (drop i tasks)).
    eapply resolvesAll_app; [eassumption|]. rewrite drop_drop. assumption.
  - apply Nat.ltb_ge in Hi. unfold_M. inversion H; subst.
    exists []. rewrite app_nil_r, drop_ge by assumption. split; [reflexivity|constructor].
Qed.

(** The fuel [runInBatches] gives the loop is no limit: with
    [batchSize >= 1] more fuel changes nothing. *)
Lemma runInBatches_fuel tasks batchSize fuel s vs s' :
  1 <= batchSize -> length tasks < fuel ->
  runInBatches tasks batchSize s = Ok vs s' ->
  runInBatches_loop fuel tasks batchSize 0 [] s = Ok vs s'.
Proof.
  intros Hb Hf H. apply loop_Ok_inv in H as (vs0 & -> & Hr).
  exact (loop_resolves tasks batchSize Hb fuel 0 [] s vs0 s' ltac:(lia) Hr).
Qed.

Lemma runInBatches_Ok_inv tasks batchSize s vs s' :
  runInBatches tasks batchSize s = Ok vs s' -> resolvesAll tasks s vs s'.
Proof.
  intros H. apply loop_Ok_inv in H as (vs0 & -> & Hr). exact Hr.
Qed.

(** C10: with [batchSize >= 1] and tasks that all resolve, [runInBatches]
    resolves with one value per task, in the order of submission: the list
    has the length of [tasks] and its i-th element is the value the i-th
    task resolved with. *)
Theorem runInBatches_results tasks batchSize s vs s' :
  1 <= batchSize ->
  resolvesAll tasks s vs s' ->
  runInBatches tasks batchSize s = Ok vs s'
  /\ length vs = length tasks
  /\ forall i p, tasks !! i = Some p ->
       exists v si si', vs !! i = Some v /\ p si = Ok v si'.
Proof.
  intros Hb Hr. split; [|split].
  - unfold runInBatches.
    exact (loop_resolves tasks batchSize Hb (Datatypes.S (length tasks)) 0 [] s vs s' ltac:(lia) Hr).
  - eapply resolvesAll_length; eassumption.
  - eapply resolvesAll_lookup; eassumption.
Qed.

End Generic.

Lemma countingTasks_resolve : resolvesAll countingTasks 0 [10; 20; 30] 3.
Proof. repeat econstructor. Qed.

Lemma runInBatches_results_witness :
  1 <= 2
  /\ resolvesAll countingTasks 0 [10; 20; 30] 3
  /\ runInBatches countingTasks 2 0 = Ok [10; 20; 30] 3.
Proof.
  split; [lia|]. split; [exact countingTasks_resolve|].
  exact (proj1 (runInBatches_results countingTasks 2 0 [10; 20; 30] 3
                  ltac:(lia) countingTasks_resolve)).
Defined.

(** A [batchSize] of [0] never leaves the loop. *)
Example runInBatches_zero : runInBatches countingTasks 0 0 = Diverge.
Proof. reflexivity. Qed.

End RunInBatchesProps.

(** ** [processSite] and [scrapeAllSites] *)

Module ProcessSiteProps.
Import Backend Settle Observe Observe2 Inputs.
Import RunInBatchesProps.

Section WithRun.

Variable fails : Event -> bool.
Variable siteCredentials : gmap string LoginCredentials.
Variable searchParams : SearchParams.
Variable onProgress : bool.
Variable siteConfigs : list SiteConfig.

Local Abbreviation ext := (ext fails).
Local Abbreviation processSite_try := (processSite_try fails siteCredentials searchParams onProgress siteConfigs).
Local Abbreviation processSite := (processSite fails siteCredentials searchParams onProgress siteConfigs).

Lemma log2 a b s : log b (log a s) = logAll [a; b] s.
Proof. unfold log, logAll. cbn. rewrite <- app_assoc. reflexivity. Qed.

Lemma log3 a b c s : log c (log b (log a s)) = logAll ([a; b] ++ [c]) s.
Proof. unfold log, logAll. cbn. rewrite <- !app_assoc. reflexivity. Qed.

Lemma ext_ok ev s : fails ev = false -> ext ev s = Ok tt (log ev s).
Proof. unfold Backend.ext. intros ->. reflexivity. Qed.

(** [processSite] with a browser that opens and closes the page: the
    [catch] turns a rejection of the [try] block into [null]. *)
Lemma processSite_unfold siteConfig s :
  pageOk fails siteConfig ->
  processSite siteConfig s =
    match processSite_try siteConfig (logAll (preEvents siteConfig) s) with
    | Ok r s1 => Ok r (log (EvClosePage (name siteConfig)) s1)
    | Throw e s1 =>
        Ok None (log (EvClosePage (name siteConfig))
                   (incrSiteIndex (log (EvConsoleError (name siteConfig) e) s1)))
    | Diverge => Diverge
    end.
Proof.
  intros Hok. unfold Backend.processSite, setupSiteSpecificResourceBlocking.
  unfold_M. unfold preEvents in *.
  rewrite !ext_ok by (apply Hok; cbn; auto).
  assert (Hclose : fails (EvClosePage (name siteConfig)) = false) by (apply Hok; cbn; auto).
  destruct (useProxies siteConfig && negb (String.eqb (name siteConfig) "bca")) eqn:Hp.
  - rewrite ext_ok by (apply Hok; cbn; rewrite Hp; cbn; auto).
    rewrite log3. unfold tryFinally, tryCatch.
    destruct (Backend.processSite_try _ _ _ _ _ _ _) as [r s1|e s1|]; cbn;
      rewrite ?ext_ok by assumption; reflexivity.
  - rewrite log2. unfold tryFinally, tryCatch.
    destruct (Backend.processSite_try _ _ _ _ _ _ _) as [r s1|e s1|]; cbn;
      rewrite ?ext_ok by assumption; reflexivity.
Qed.

Lemma try_missing_credentials siteConfig s :
  credentialsMissing siteCredentials siteConfig ->
  processSite_try siteConfig s =
    Throw (credentialsError siteCredentials siteConfig) s.
Proof.
  unfold credentialsMissing, credentialsError, Backend.processSite_try.
  destruct (siteCredentials !! name siteConfig) as [credentials|]; [|reflexivity].
  intros [-> | ->]; cbn; rewrite ?orb_true_r; reflexivity.
Qed.

Lemma progressCount_log ev s :
  progressCount (log ev s) = progressCount s + (if isProgress ev then 1 else 0).
Proof.
  unfold progressCount, log. cbn. rewrite List.filter_app, length_app. cbn.
  destruct (isProgress ev); reflexivity.
Qed.

Lemma progressCount_incr s : progressCount (incrSiteIndex s) = progressCount s.
Proof. reflexivity. Qed.

(** In what [processSite_try] does, [onProgress] is called once when the
    block resolves with extracted data and a callback was passed, and not
    at all otherwise, provided the callback itself does not throw. *)
Lemma try_progress siteConfig s :
  (forall cars total current,
      fails (EvProgress (name siteConfig) cars total current) = false) ->
  match processSite_try siteConfig s with
  | Ok (Some _) s1 =>
      progressCount s1 = progressCount s + (if onProgress then 1 else 0)
  | Ok None s1 | Throw _ s1 => progressCount s1 = progressCount s
  | Diverge => True
  end.
Proof.
  intros Hcb. unfold Backend.processSite_try.
  unfold_M. unfold Backend.ext, onPage.
  repeat (first [progress rewrite ?Hcb | case_match];
          try discriminate; simplify_eq; try exact I;
          rewrite ?progressCount_incr, ?progressCount_log; cbn [isProgress];
          try lia).
  all: match goal with
       | H : fails (EvProgress _ _ _ _) = true |- _ => rewrite Hcb in H; discriminate
       end.
Qed.

(** C9, amended: for a site whose credentials are missing or empty, with a
    browser that opens and closes pages, the job resolves with [null] and
    what it has done is exactly this: it opened a page on the browser
    context of its group and set up the routes, logged the error, and
    closed the page.  No login, navigation, filtering or extraction call is
    among these; the opening of a page is. *)
Theorem missing_credentials_fail_before_login siteConfig s :
  credentialsMissing siteCredentials siteConfig ->
  pageOk fails siteConfig ->
  let added :=
    preEvents siteConfig
    ++ [EvConsoleError (name siteConfig) (credentialsError siteCredentials siteConfig);
        EvClosePage (name siteConfig)] in
  processSite siteConfig s =
    Ok None {| currentSiteIndex := Datatypes.S (currentSiteIndex s);
               events := events s ++ added |}
  /\ Forall (fun ev => isSiteCall ev = false) added
  /\ In (EvNewPage (name siteConfig) (useProxies siteConfig)) added.
Proof.
  intros Hmiss Hok added. split; [|split].
  - rewrite processSite_unfold by assumption.
    rewrite try_missing_credentials by assumption.
    unfold log, logAll, incrSiteIndex, added. cbn. rewrite <- !app_assoc. reflexivity.
  - unfold added, preEvents. cbn. destruct (_ && _); cbn; repeat constructor.
  - unfold added, preEvents. cbn. auto.
Qed.

(** What one [processSite] adds to the count of [onProgress] calls. *)
Lemma processSite_progress siteConfig s r s' :
  (forall cars total current,
      fails (EvProgress (name siteConfig) cars total current) = false) ->
  processSite siteConfig s = Ok r s' ->
  progressCount s' =
    progressCount s +
    match r with
    | Some _ => if onProgress then 1 else 0
    | None => 0
    end.
Proof.
  intros Hcb. pose proof (try_progress siteConfig) as Htry.
  unfold Backend.processSite, setupSiteSpecificResourceBlocking.
  unfold_M. unfold Backend.ext at 1 2 3 4. unfold tryFinally, tryCatch.
  intros H.
  repeat (match type of H with
          | context [if ?b then _ else _] => destruct b eqn:?
          end; try discriminate).
  all: match type of H with
       | context [Backend.processSite_try _ _ _ _ _ _ ?s0] =>
           specialize (Htry s0 Hcb);
           destruct (Backend.processSite_try fails siteCredentials searchParams
                       onProgress siteConfigs siteConfig s0) as [[cars|] s1|e s1|];
           cbn in H; try discriminate; simplify_eq;
           rewrite ?progressCount_log, ?progressCount_incr in *; cbn [isProgress] in *;
           rewrite ?progressCount_log, ?progressCount_incr in *; cbn [isProgress] in *;
           try lia
       end.
Qed.

Lemma compileResults_app r1 r2 :
  compileResults (r1 ++ r2) = compileResults r1 ++ compileResults r2.
Proof.
  induction r1 as [|[cars|] r1 IH]; cbn; [reflexivity| |assumption].
  rewrite IH. apply app_assoc.
Qed.

Lemma runGroup_length limit proxied group s results s' :
  runGroup fails siteCredentials searchParams onProgress siteConfigs limit
    proxied group s = Ok results s' ->
  length results = length group.
Proof.
  unfold runGroup. destruct (0 <? length group) eqn:Hn.
  - unfold_M.
    destruct (runInBatches _ _ s) as [rs s1|e s1|] eqn:Hrun; try discriminate.
    apply runInBatches_Ok_inv, resolvesAll_length in Hrun.
    rewrite length_map in Hrun.
    unfold Backend.ext. destruct (fails (EvClose proxied)); [discriminate|].
    intros H; inversion H; subst. assumption.
  - apply Nat.ltb_ge in Hn. unfold_M. intros H; inversion H; subst.
    destruct group; [reflexivity|cbn in Hn; lia].
Qed.

(** C1, amended: with a browser that opens and closes the page of the
    site, the job of a site never rejects; when its [try] block fails it
    resolves with [null], and the error message goes to the console, not
    into the result; a group that resolves has one result per site; and the
    final list of cars skips the [null] results, so that a failed site adds
    to it what a site with zero records adds: nothing. *)
Theorem failed_job_resolves_null siteConfig s :
  pageOk fails siteConfig ->
  (forall e s', processSite siteConfig s <> Throw e s')
  /\ (forall e s1,
        processSite_try siteConfig (logAll (preEvents siteConfig) s) = Throw e s1 ->
        processSite siteConfig s =
          Ok None (log (EvClosePage (name siteConfig))
                     (incrSiteIndex (log (EvConsoleError (name siteConfig) e) s1))))
  /\ (forall limit proxied group s0 results s',
        runGroup fails siteCredentials searchParams onProgress siteConfigs limit
          proxied group s0 = Ok results s' ->
        length results = length group)
  /\ (forall before after,
        compileResults (before ++ None :: after)
        = compileResults (before ++ Some [] :: after)).
Proof.
  intros Hok. repeat split.
  - intros e s'. rewrite processSite_unfold by assumption.
    destruct (Backend.processSite_try _ _ _ _ _ _ _); discriminate.
  - intros e s1 Htry. rewrite processSite_unfold by assumption.
    rewrite Htry. reflexivity.
  - intros. eapply runGroup_length; eassumption.
  - intros before after. rewrite !compileResults_app. reflexivity.
Qed.

Lemma eqb_empty_false (x : string) : x <> "" -> String.eqb x "" = false.
Proof. intros H. apply String.eqb_neq. assumption. Qed.

(** A job that meets no failure, on a site without search URL. *)
Lemma processSite_run siteConfig credentials apply extract p1 p2 p3 data s :
  (forall ev, fails ev = false) ->
  credentialsPresent siteCredentials siteConfig credentials ->
  shouldNavigateToSearchUrl siteConfig = false ->
  login siteConfig credentials newPage = Ok tt p1 ->
  applyFilters siteConfig = Some apply ->
  apply searchParams p1 = Ok tt p2 ->
  extractCars siteConfig = Some extract ->
  extract (if String.eqb (name siteConfig) "disposalnetwork"
           then Some searchParams else None) p2 = Ok data p3 ->
  processSite siteConfig s =
    Ok (Some data) (okRun onProgress (length siteConfigs) siteConfig data s).
Proof.
  intros Hf (Hc & Hu & Hp) Hnav Hlogin Happly Hfilters Hextract Hcars.
  rewrite processSite_unfold by (intros ev _; apply Hf).
  unfold Backend.processSite_try. rewrite Hc.
  rewrite (eqb_empty_false _ Hu), (eqb_empty_false _ Hp). cbn [orb].
  rewrite Hnav, Happly, Hextract. unfold_M. unfold onPage.
  rewrite !ext_ok by apply Hf. rewrite Hlogin.
  rewrite !ext_ok by apply Hf. rewrite Hfilters.
  rewrite !ext_ok by apply Hf. rewrite Hcars.
  unfold okRun, totalSites, logAll, log, incrSiteIndex.
  destruct onProgress; rewrite ?ext_ok by apply Hf; cbn;
    rewrite <- !app_assoc; cbn; reflexivity.
Qed.

Lemma extracted_cons r results :
  extracted (r :: results) =
    match r with Some _ => 1 | None => 0 end + extracted results.
Proof. unfold extracted. destruct r; reflexivity. Qed.

Lemma extracted_app r1 r2 : extracted (r1 ++ r2) = extracted r1 + extracted r2.
Proof. unfold extracted. rewrite List.filter_app, length_app. reflexivity. Qed.

Lemma runGroup_Ok_inv limit proxied group s results s' :
  runGroup fails siteCredentials searchParams onProgress siteConfigs limit
    proxied group s = Ok results s' ->
  exists s1, resolvesAll (map processSite group) s results s1
             /\ s' = closeIf proxied group s1.
Proof.
  unfold runGroup, closeIf. destruct (0 <? length group) eqn:Hn.
  - unfold_M.
    destruct (runInBatches _ _ s) as [rs s1|e s1|] eqn:Hrun; try discriminate.
    apply runInBatches_Ok_inv in Hrun.
    unfold Backend.ext. destruct (fails (EvClose proxied)); [discriminate|].
    intros H; inversion H; subst. eauto.
  - apply Nat.ltb_ge in Hn. unfold_M. intros H; inversion H; subst.
    destruct group; [|cbn in Hn; lia]. exists s'. split; [constructor|reflexivity].
Qed.

(** A search that resolves: both instances started, the jobs of the two
    groups resolved, the instance of every group with sites was closed. *)
Lemma scrapeAllSites_Ok_inv limit cars s' :
  scrapeAllSites fails siteCredentials searchParams onProgress siteConfigs
    limit initialOrch = Ok cars s' ->
  exists rp rn s1 s2,
    resolvesAll (map processSite (List.filter useProxies siteConfigs)) afterInit rp s1
    /\ resolvesAll
         (map processSite
            (List.filter (fun config => negb (useProxies config)) siteConfigs))
         (closeIf true (List.filter useProxies siteConfigs) s1) rn s2
    /\ s' = closeIf false
              (List.filter (fun config => negb (useProxies config)) siteConfigs) s2
    /\ cars = compileResults (rp ++ rn).
Proof.
  unfold scrapeAllSites. unfold_M. cbn [promiseAll]. unfold Backend.ext.
  destruct (fails (EvInit true)), (fails (EvInit false));
    cbn; try (intros; discriminate).
  destruct (runGroup _ _ _ _ _ _ true _ _) as [rp s1|e s1|] eqn:Hp.
  - apply runGroup_Ok_inv in Hp as (s1' & Hp & ->).
    destruct (runGroup _ _ _ _ _ _ false _ _) as [rn s2|e s2|] eqn:Hn;
      try discriminate.
    apply runGroup_Ok_inv in Hn as (s2' & Hn & ->).
    intros H; inversion H; subst. exists rp, rn, s1', s2'.
    cbn [List.concat]. rewrite app_nil_r. auto.
  - destruct (runGroup _ _ _ _ _ _ false _ _); discriminate.
  - discriminate.
Qed.

Lemma progressCount_closeIf proxied group s :
  progressCount (closeIf proxied group s) = progressCount s.
Proof.
  unfold closeIf. destruct (0 <? length group); [|reflexivity].
  rewrite progressCount_log. cbn. lia.
Qed.

Section CallbackReturns.

(** The caller's callback does not throw. *)
Hypothesis Hcb : forall site cars total current,
  fails (EvProgress site cars total current) = false.

Lemma jobs_progress group : forall s results s',
  resolvesAll (map processSite group) s results s' ->
  length results = length group
  /\ progressCount s' =
       progressCount s + (if onProgress then extracted results else 0).
Proof.
  induction group as [|siteConfig group IH]; intros s results s' H; cbn in H.
  - inversion H; subst. split; [reflexivity|]. destruct onProgress; cbn; lia.
  - inversion H as [|? ? ? r s1 rs ? Hp Hrest]; subst.
    apply IH in Hrest as [Hlen Hcount].
    apply processSite_progress in Hp; [|intros; apply Hcb].
    split; [cbn; congruence|].
    rewrite Hcount, Hp, extracted_cons. destruct r, onProgress; lia.
Qed.

(** C3, amended: with a callback that does not throw, [onProgress] is
    called exactly once for a job that resolves with extracted records
    (some or none), and not at all for a job that resolves with [null], as
    a failed job does; so, in a run that resolves, the number of calls is
    the number of sites whose job resolved with records, not the number of
    sites: the jobs of the proxy-enabled sites resolved with the values
    [rp], those of the other sites with the values [rn], one value per
    site, and the calls are as many as the values that are not [null]. *)
Theorem progress_once_per_extracted_site :
  (forall siteConfig s r s',
      processSite siteConfig s = Ok r s' ->
      progressCount s' =
        progressCount s +
        match r with
        | Some _ => if onProgress then 1 else 0
        | None => 0
        end)
  /\ (forall limit cars s',
        scrapeAllSites fails siteCredentials searchParams onProgress siteConfigs
          limit initialOrch = Ok cars s' ->
        exists rp rn s1 s2,
          resolvesAll (map processSite (List.filter useProxies siteConfigs))
            afterInit rp s1
          /\ resolvesAll
               (map processSite
                  (List.filter (fun config => negb (useProxies config)) siteConfigs))
               (closeIf true (List.filter useProxies siteConfigs) s1) rn s2
          /\ length (rp ++ rn) = length siteConfigs
          /\ cars = compileResults (rp ++ rn)
          /\ progressCount s' = if onProgress then extracted (rp ++ rn) else 0).
Proof.
  split.
  - intros siteConfig s r s' H. eapply processSite_progress; [|exact H].
    intros; apply Hcb.
  - intros limit cars s' H.
    apply scrapeAllSites_Ok_inv in H as (rp & rn & s1 & s2 & Hp & Hn & -> & ->).
    exists rp, rn, s1, s2. split; [exact Hp|]. split; [exact Hn|].
    apply jobs_progress in Hp as [Hlp Hcp]. apply jobs_progress in Hn as [Hln Hcn].
    rewrite !progressCount_closeIf in *. split; [|split; [reflexivity|]].
    + rewrite length_app, Hlp, Hln. apply List.filter_length.
    + rewrite Hcn, Hcp, extracted_app. cbn. destruct onProgress; lia.
Qed.

End CallbackReturns.

End WithRun.

End ProcessSiteProps.

(** ** The early exit of the drivers *)

Module EarlyExitProps.
Import Backend Observe EarlyExit Inputs.
Import RunInBatchesProps ProcessSiteProps.

Module DN := DisposalNetwork.
Module CT := CarToTrade.

Section Drivers.

Variable params : SearchParams.

Lemma dn_op_ok w o page :
  (forall o, DN.rejects w o = false) -> DN.op w o page = Ok tt page.
Proof. intros H. unfold DN.op. rewrite H. reflexivity. Qed.

Lemma ct_op_ok w o page :
  (forall o, CT.rejects w o = false) -> CT.op w o page = Ok tt page.
Proof. intros H. unfold CT.op. rewrite H. reflexivity. Qed.

Lemma dn_apply_make_unavailable w page :
  (forall o, DN.rejects w o = false) ->
  given (make params) = true ->
  DN.makeLabel w (toUpperCase (default "" (make params))) = false ->
  DN.applyFilters w params page = Ok tt (DN.setMakeApplied false page).
Proof.
  intros Hr Hg Hl. unfold DN.applyFilters. unfold_M.
  rewrite !dn_op_ok by assumption. rewrite Hg.
  rewrite !dn_op_ok by assumption. rewrite Hl. reflexivity.
Qed.

Lemma dn_apply_model_unavailable w page :
  (forall o, DN.rejects w o = false) ->
  given (make params) = true ->
  DN.makeLabel w (toUpperCase (default "" (make params))) = true ->
  given (model params) = true ->
  DN.modelLabels w (toUpperCase (default "" (model params))) = 0 ->
  DN.applyFilters w params page =
    Ok tt (DN.setModelApplied false (DN.setMakeApplied true page)).
Proof.
  intros Hr Hg Hl Hg' Hl'. unfold DN.applyFilters. unfold_M.
  rewrite !dn_op_ok by assumption. rewrite Hg.
  rewrite !dn_op_ok by assumption. rewrite Hl.
  rewrite !dn_op_ok by assumption. rewrite Hg'. cbn [andb].
  rewrite !dn_op_ok by assumption. rewrite Hl'. reflexivity.
Qed.

(** The extraction returns [[]] at once when a flag of the page tells that
    the make or the model was not found. *)
Lemma dn_extract_flagged w ps page :
  disposalnetworkMakeApplied page = Some false
  \/ disposalnetworkModelApplied page = Some false ->
  DN.extractCars w ps page = Ok [] page.
Proof.
  intros H. unfold DN.extractCars. unfold_M.
  repeat case_bool_decide; try reflexivity. destruct H; contradiction.
Qed.

Lemma ct_apply_model_unavailable w page :
  (forall o, CT.rejects w o = false) ->
  given (model params) = true ->
  List.find (CT.matchesModel (default "" (model params))) (CT.rangeOptions w) = None ->
  CT.applyFilters w params page = Ok tt (CT.setSearchExecuted false page).
Proof.
  intros Hr Hg Hfind. unfold CT.applyFilters. unfold_M.
  destruct (given (make params));
    rewrite !ct_op_ok by assumption; rewrite Hg;
    rewrite !ct_op_ok by assumption; rewrite Hfind; reflexivity.
Qed.

Lemma ct_extract_flagged w ps page :
  cartotradeSearchExecuted page = Some false ->
  CT.extractCars w ps page = Ok [] page.
Proof. intros H. unfold CT.extractCars. unfold_M. rewrite H. reflexivity. Qed.

End Drivers.

Section WithRun.

Variable fails : Event -> bool.
Variable siteCredentials : gmap string LoginCredentials.
Variable searchParams : SearchParams.
Variable onProgress : bool.
Variable siteConfigs : list SiteConfig.

(** C4, amended: when the search asks, in ASCII text, for a make or a
    model that has no option at a place where the driver looks it up (the
    make and, once a make is selected, the model on Disposal Network; the
    model on CarToTrade), and nothing else fails, the job of the site
    resolves with the empty array, not with [null]: nothing is logged as an
    error and the progress is reported with zero records. *)
Theorem unavailable_option_gives_empty_result siteConfig credentials s :
  (forall ev, fails ev = false) ->
  credentialsPresent siteCredentials siteConfig credentials ->
  unavailable searchParams siteConfig ->
  processSite fails siteCredentials searchParams onProgress siteConfigs siteConfig s
  = Ok (Some []) (okRun onProgress (length siteConfigs) siteConfig [] s).
Proof.
  intros Hf Hc Hu.
  destruct Hu as [w Hr _ Hg Hl | w Hr _ Hg Hl Hg' Hl' | w Hr _ _ Hg Hfind].
  - eapply processSite_run; try eassumption; try reflexivity.
    + cbn. apply dn_op_ok; assumption.
    + cbn. apply dn_apply_make_unavailable; assumption.
    + cbn. apply dn_extract_flagged. left. reflexivity.
  - eapply processSite_run; try eassumption; try reflexivity.
    + cbn. apply dn_op_ok; assumption.
    + cbn. apply dn_apply_model_unavailable; assumption.
    + cbn. apply dn_extract_flagged. right. reflexivity.
  - eapply processSite_run; try eassumption; try reflexivity.
    + cbn. apply ct_op_ok; assumption.
    + cbn. apply ct_apply_model_unavailable; assumption.
    + cbn. apply ct_extract_flagged. reflexivity.
Qed.

End WithRun.

End EarlyExitProps.

(** ** Runs on concrete sites *)

Module Runs.
Import Backend Settle Observe Observe2 EarlyExit Inputs SiteTable.
Import RunInBatchesProps ProcessSiteProps EarlyExitProps.

(** C1 as stated fails: the search over a site that failed (no
    credentials) and the search over a site that found nothing (no option
    for the make) return the same aggregate, the empty list; the error
    message is on the console of the first run and in no result. *)
Lemma failed_site_same_aggregate_as_empty_site :
  exists sFailed sEmpty,
    search ∅ (withMake "Zastava") dnConfig = Ok [] sFailed
    /\ search dnCredentials (withMake "Zastava") dnConfig = Ok [] sEmpty
    /\ In (EvConsoleError "disposalnetwork" "No credentials found for disposalnetwork")
          (events sFailed)
    /\ In (EvProgress "disposalnetwork" [] 1 1) (events sEmpty).
Proof.
  eexists. eexists. split; [vm_compute; reflexivity|].
  split; [vm_compute; reflexivity|]. cbn. intuition.
Qed.

Lemma pageOk_noFailures siteConfig : pageOk noFailures siteConfig.
Proof. intros ev _. reflexivity. Qed.

Lemma failed_job_resolves_null_witness :
  pageOk noFailures dnConfig
  /\ forall e s', job ∅ noParams dnConfig <> Throw e s'.
Proof.
  split; [exact (pageOk_noFailures dnConfig)|].
  exact (proj1 (failed_job_resolves_null noFailures ∅ noParams true [dnConfig]
                  dnConfig initialOrch (pageOk_noFailures dnConfig))).
Defined.

(** C3 as stated fails: a search over one site, which fails, calls
    [onProgress] zero times. *)
Lemma failed_site_emits_no_progress :
  exists s',
    search ∅ noParams dnConfig = Ok [] s'
    /\ progressCount s' = 0
    /\ length [dnConfig] = 1.
Proof. eexists. split; [vm_compute; reflexivity|]. split; reflexivity. Qed.

Lemma progress_once_per_extracted_site_witness :
  (forall site cars total current,
      noFailures (EvProgress site cars total current) = false)
  /\ exists cars s',
       scrapeAllSites noFailures (credentialsWith buyer) noParams true standInTable
         0 initialOrch = Ok cars s'
       /\ length standInTable = 4
       /\ length cars = 2
       /\ progressCount s' = 1.
Proof.
  split; [reflexivity|].
  destruct (scrapeAllSites noFailures (credentialsWith buyer) noParams true
              standInTable 0 initialOrch) as [cars s'|e s'|] eqn:Hrun;
    [|vm_compute in Hrun; discriminate Hrun..].
  exists cars, s'. split; [reflexivity|]. split; [reflexivity|].
  destruct (proj2 (progress_once_per_extracted_site noFailures (credentialsWith buyer)
                     noParams true standInTable (fun _ _ _ _ => eq_refl))
              0 cars s' Hrun)
    as (rp & rn & s1 & s2 & Hp & Hn & _ & Hcars & Hcount).
  apply promiseAll_resolves in Hp. vm_compute in Hp. injection Hp as <- <-.
  apply promiseAll_resolves in Hn. vm_compute in Hn. injection Hn as <- <-.
  split; [rewrite Hcars; reflexivity|exact Hcount].
Defined.

(** C4 as stated fails: Disposal Network has no option for the model
    Zafira, the search asks for this model and for no make, and the job
    returns the two vehicles of the unfiltered search. *)
Lemma model_without_make_is_not_looked_up :
  DisposalNetwork.modelLabels dnSite (toUpperCase "Zafira") = 0
  /\ exists cars s',
       job dnCredentials (withModel "Zafira") dnConfig = Ok (Some cars) s'
       /\ length cars = 2.
Proof.
  split; [reflexivity|]. eexists. eexists. split; [vm_compute; reflexivity|reflexivity].
Qed.

Lemma dnCredentials_present :
  credentialsPresent dnCredentials dnConfig {| username := "buyer"; password := "secret" |}.
Proof. split; [reflexivity|split; discriminate]. Qed.

Lemma zastava_unavailable : unavailable (withMake "Zastava") dnConfig.
Proof. apply unavailable_dn_make; try reflexivity. split; reflexivity. Qed.

Lemma unavailable_option_gives_empty_result_witness :
  (forall ev, noFailures ev = false)
  /\ unavailable (withMake "Zastava") dnConfig
  /\ job dnCredentials (withMake "Zastava") dnConfig
     = Ok (Some []) (okRun true 1 dnConfig [] initialOrch).
Proof.
  split; [reflexivity|]. split; [exact zastava_unavailable|].
  exact (unavailable_option_gives_empty_result noFailures dnCredentials
           (withMake "Zastava") true [dnConfig] dnConfig _ initialOrch
           (fun _ => eq_refl) dnCredentials_present zastava_unavailable).
Defined.

(** C9 as stated fails: the job of a site without credentials opens a page
    on the browser context before it fails. *)
Lemma page_opened_without_credentials :
  credentialsMissing ∅ dnConfig
  /\ exists s',
       job ∅ noParams dnConfig = Ok None s'
       /\ In (EvNewPage "disposalnetwork" false) (events s').
Proof.
  split; [exact I|]. eexists. split; [vm_compute; reflexivity|]. cbn. auto.
Qed.

Lemma missing_credentials_fail_before_login_witness :
  credentialsMissing ∅ dnConfig
  /\ pageOk noFailures dnConfig
  /\ job ∅ noParams dnConfig =
       Ok None
          {| currentSiteIndex := 1;
             events := [EvNewPage "disposalnetwork" false;
                        EvPageRoute "disposalnetwork";
                        EvConsoleError "disposalnetwork"
                          "No credentials found for disposalnetwork";
                        EvClosePage "disposalnetwork"] |}.
Proof.
  split; [exact I|]. split; [exact (pageOk_noFailures dnConfig)|].
  exact (proj1 (missing_credentials_fail_before_login noFailures ∅ noParams true
                  [dnConfig] dnConfig initialOrch I (pageOk_noFailures dnConfig))).
Defined.

End Runs.

(** ** The closing of the two instances *)

Module TeardownProps.
Import Backend Observe Observe2 Inputs SiteTable.

(** C8: on the site table of [scrapeAllSites], without credentials in the
    environment, when the proxy-enabled context opens no page, the one job
    of the proxy-enabled group rejects before its [try] block; the search
    rejects and the proxy-enabled instance, initialised at the start, is
    not closed, although every job of its group has settled; the standard
    instance is closed once, after the three jobs of its group.  With a
    context that opens the page, the same search closes each of the two
    instances exactly once. *)
Theorem proxy_instance_stays_open_when_page_cannot_open
    bca motorway carwow w searchParams onProgress :
  asConfigured bca motorway carwow ->
  (exists s',
      scrapeAllSites proxyPageFails (credentialsWith unset) searchParams onProgress
        (siteTable bca motorway carwow w) 0 initialOrch = Throw "rejected" s'
      /\ events s' ≡ₚ
           [EvInit true; EvInit false;
            EvNewPage "bca" true;
            EvNewPage "motorway" false; EvPageRoute "motorway";
            EvConsoleError "motorway" "Missing username or password for motorway";
            EvClosePage "motorway";
            EvNewPage "carwow" false; EvPageRoute "carwow";
            EvConsoleError "carwow" "Missing username or password for carwow";
            EvClosePage "carwow";
            EvNewPage "disposalnetwork" false; EvPageRoute "disposalnetwork";
            EvConsoleError "disposalnetwork"
              "Missing username or password for disposalnetwork";
            EvClosePage "disposalnetwork";
            EvClose false]
      /\ instanceCloseCount true s' = 0
      /\ instanceCloseCount false s' = 1)
  /\ (exists cars s',
        scrapeAllSites noFailures (credentialsWith unset) searchParams onProgress
          (siteTable bca motorway carwow w) 0 initialOrch = Ok cars s'
        /\ instanceCloseCount true s' = 1
        /\ instanceCloseCount false s' = 1).
Proof.
  intros (Hb & Hbp & Hm & Hmp & Hc & Hcp).
  destruct bca, motorway, carwow. cbn in Hb, Hbp, Hm, Hmp, Hc, Hcp. subst.
  split.
  - eexists. split; [vm_compute; reflexivity|]. split; [reflexivity|].
    split; reflexivity.
  - eexists. eexists. split; [vm_compute; reflexivity|]. split; reflexivity.
Qed.

Lemma proxy_instance_stays_open_when_page_cannot_open_witness :
  asConfigured (standIn "bca" true) (standIn "motorway" false)
    (standIn "carwow" false)
  /\ exists s',
       scrapeAllSites proxyPageFails (credentialsWith unset) noParams true
         standInTable 0 initialOrch = Throw "rejected" s'
       /\ instanceCloseCount true s' = 0
       /\ instanceCloseCount false s' = 1.
Proof.
  assert (H : asConfigured (standIn "bca" true) (standIn "motorway" false)
                (standIn "carwow" false)) by (repeat split).
  split; [exact H|].
  destruct (proj1 (proxy_instance_stays_open_when_page_cannot_open
                     (standIn "bca" true) (standIn "motorway" false)
                     (standIn "carwow" false) dnSite noParams true H))
    as (s' & Hrun & _ & Hp & Hn).
  exists s'. split; [exact Hrun|]. split; [exact Hp|exact Hn].
Defined.

End TeardownProps.

(** ** Failures during pagination *)

Module PaginationProps.
Import Backend Observe Inputs.
Import RunInBatchesProps.

Module DN := DisposalNetwork.
Module CT := CarToTrade.

(** Disposal Network: the extraction never rejects, whatever fails. *)
Lemma dn_extract_never_rejects w ps page :
  exists cars, DN.extractCars w ps page = Ok cars page.
Proof.
  unfold DN.extractCars. unfold_M. repeat case_bool_decide; eexists; reflexivity.
Qed.

(** Disposal Network: when the move to a page after the first fails (the
    pagination does not show up, or the click on the page button rejects),
    the loop ends with the vehicles accumulated so far. *)
Lemma dn_failing_page_keeps_records w page pageNum later allResponses allCarData :
  pageNum <> 1 ->
  DN.rejects w (DN.OpFindPageButton pageNum) = true
  \/ DN.rejects w (DN.OpClickPageButton pageNum) = true ->
  DN.extractLoop w page (pageNum :: later) allResponses allCarData = allCarData.
Proof.
  intros Hn H. cbn [DN.extractLoop].
  destruct (Nat.eqb_spec pageNum 1) as [|_]; [contradiction|].
  destruct H as [-> | H]; [reflexivity|].
  destruct (DN.rejects w (DN.OpFindPageButton pageNum)); [reflexivity|].
  destruct (DN.pageButton w pageNum); cbn; [|reflexivity].
  rewrite H. reflexivity.
Qed.

(** Disposal Network: so does a page whose response cannot be read. *)
Lemma dn_unreadable_page_keeps_records latest allCarData :
  json latest = None -> DN.readPage latest allCarData = (DN.Break, allCarData).
Proof. intros H. unfold DN.readPage. rewrite H. reflexivity. Qed.

(** CarToTrade: a failure inside the pagination block of a page ends the
    loop with the cars of that page and of the pages before. *)
Lemma ct_navigation_failure_keeps_records w p rest currentPage allCarData page :
  CT.rejects w (CT.OpLoadPage currentPage) = false ->
  CT.nav p = CT.NavDetectRejects \/ CT.nav p = CT.NavClickRejects
  \/ CT.nav p = CT.NavClicked true true ->
  CT.extractPages w p rest currentPage allCarData page =
    Ok (allCarData ++ flat_map (CT.carOfCard w) (CT.cards p)) page.
Proof.
  intros Hl Hn. destruct rest as [|q rest]; cbn [CT.extractPages];
    unfold_M; unfold CT.op; rewrite Hl; [reflexivity|].
  destruct Hn as [-> | [-> | ->]]; reflexivity.
Qed.

(** CarToTrade: the calls at the top of a turn of the loop are outside
    every [try]; when they reject, the extraction rejects and the cars
    accumulated so far go with it. *)
Lemma ct_load_failure_rejects w p rest currentPage allCarData page :
  CT.rejects w (CT.OpLoadPage currentPage) = true ->
  CT.extractPages w p rest currentPage allCarData page = Throw "rejected" page.
Proof.
  intros Hl. destruct rest; cbn [CT.extractPages]; unfold_M; unfold CT.op;
    rewrite Hl; reflexivity.
Qed.

(** C5, at the input on which the code departs from the claim: CarToTrade
    shows two listings on its first page and one on the second; when the
    second page fails to load, the extraction rejects, the job resolves
    with [null] and an error on the console, and the two listings of the
    first page are lost.  When the second page loads, the job returns the
    three listings; when instead the click on the next-page control
    rejects, it returns the two of the first page. *)
Theorem cartotrade_page_load_failure_discards_records :
  CT.extractCars (ctSite false) None newPage = Throw "rejected" newPage
  /\ (exists s',
        job ctCredentials noParams (ctConfig false) = Ok None s'
        /\ In (EvConsoleError "CarToTrade" "rejected") (events s'))
  /\ (exists cars s',
        job ctCredentials noParams (ctConfig true) = Ok (Some cars) s'
        /\ length cars = 3)
  /\ (exists cars s',
        job ctCredentials noParams (CT.cartotradeConfig ctSiteClickRejects)
        = Ok (Some cars) s'
        /\ length cars = 2).
Proof.
  split; [reflexivity|]. split; [|split].
  - eexists. split; [vm_compute; reflexivity|]. cbn. intuition.
  - eexists. eexists. split; [vm_compute; reflexivity|reflexivity].
  - eexists. eexists. split; [vm_compute; reflexivity|reflexivity].
Qed.

End PaginationProps.

(** ** The schedule *)

Module SchedulerProps.
Import Backend Scheduler Trace.

Lemma precedes_nil {A} (x y : A) : precedes [] x y.
Proof. intros tr1 tr2 H. destruct tr1; discriminate. Qed.

(** A trace keeps the property when what is appended brings no [y], or
    when [x] is in the trace already. *)
Lemma precedes_app {A} (tr evs : list A) (x y : A) :
  precedes tr x y -> (y ∈ evs -> x ∈ tr) -> precedes (tr ++ evs) x y.
Proof.
  intros Hp Hnew tr1 tr2 Heq.
  apply app_eq_app in Heq as [l [[-> Hl] | [-> Hl]]].
  - destruct l as [|y' l].
    + cbn in Hl. rewrite app_nil_r in Hnew. apply Hnew. rewrite <- Hl. left.
    + cbn in Hl. inversion Hl; subst. eapply Hp. reflexivity.
  - apply elem_of_app. left. apply Hnew. rewrite Hl.
    apply elem_of_app. right. left.
Qed.

Section Thread.

Variables n batchSize : nat.

Local Abbreviation batch := (batch n batchSize).
Local Abbreviation chunk := (chunk n batchSize).
Local Abbreviation step := (step n batchSize).
Local Abbreviation exec := (exec n batchSize).
Local Abbreviation inv := (inv n batchSize).

Lemma batch_seq i : batch i = seq i (Nat.min batchSize (n - i)).
Proof.
  unfold Scheduler.batch, slice. rewrite drop_seq, take_seq.
  f_equal; lia.
Qed.

Lemma elem_of_batch i k :
  k ∈ batch i <-> i <= k < i + batchSize /\ k < n.
Proof. rewrite batch_seq, elem_of_seq. lia. Qed.

Lemma length_batch i : length (batch i) <= batchSize.
Proof. rewrite batch_seq, length_seq. lia. Qed.

Lemma elem_of_map_Start k l : Start k ∈ map Start l <-> k ∈ l.
Proof.
  rewrite !list_elem_of_In, in_map_iff. split.
  - intros (k' & Heq & Hin). inversion Heq; subst. assumption.
  - intros Hin. exists k. auto.
Qed.

Lemma not_Resolve_in_Starts k l : Resolve k ∉ map Start l.
Proof.
  rewrite list_elem_of_In, in_map_iff. intros (k' & Heq & _). discriminate.
Qed.

Lemma not_Reject_in_Starts k l : Reject k ∉ map Start l.
Proof.
  rewrite list_elem_of_In, in_map_iff. intros (k' & Heq & _). discriminate.
Qed.

Section PositiveBatch.

Hypothesis Hbs : 1 <= batchSize.

(** A job is in one chunk only. *)
Lemma chunk_unique c c' k : k ∈ chunk c -> k ∈ chunk c' -> c = c'.
Proof.
  unfold Scheduler.chunk. rewrite !elem_of_batch. nia.
Qed.

Lemma chunk_cover k : k < n -> k ∈ chunk (k / batchSize).
Proof.
  intros Hk. unfold Scheduler.chunk. apply elem_of_batch.
  pose proof (Nat.div_mod_eq k batchSize) as Hdm.
  pose proof (Nat.mod_upper_bound k batchSize ltac:(lia)). nia.
Qed.

(** The invariant is kept by every step, and so are the two orders of the
    trace. *)
Lemma step_inv tr t evs t' :
  inv tr t -> chunksInOrder n batchSize tr -> chunksTogether n batchSize tr ->
  step t evs t' ->
  inv (tr ++ evs) t'
  /\ chunksInOrder n batchSize (tr ++ evs)
  /\ chunksTogether n batchSize (tr ++ evs).
Proof.
  intros Hinv Hord Htog Hstep.
  destruct Hstep as [i r Hi | i r Hi | ph r1 k r2 | ph r1 k r2 | i].
  - (* the batch at [i] starts *)
    destruct Hinv as ((c & ->) & Hr & Hres). cbn in Hr. subst r.
    split; [|split].
    + cbn. repeat split.
      * exists c. reflexivity.
      * assumption.
      * reflexivity.
      * intros j Hj. apply elem_of_app. right. apply elem_of_map_Start, Hj.
      * intros j Hj Hnj. contradiction.
      * intros j Hj Hjn. apply elem_of_app. left. apply Hres; assumption.
    + intros c' j k Hj Hk. apply precedes_app; [exact (Hord c' j k Hj Hk)|].
      intros Hin%elem_of_map_Start.
      assert (Datatypes.S c' = c) as <- by (eapply chunk_unique; eassumption).
      unfold Scheduler.chunk in Hj. apply elem_of_batch in Hj.
      apply Hres; lia.
    + intros c' j k Hj Hk. destruct (Htog c' j k Hj Hk) as [HtR HtJ].
      split; (apply precedes_app; [assumption|]);
        intros Hin; exfalso;
        [eapply not_Resolve_in_Starts | eapply not_Reject_in_Starts]; eassumption.
  - (* the loop ends *)
    destruct Hinv as (_ & Hr & Hres). cbn in Hr. subst r.
    rewrite app_nil_r. split; [|split; assumption].
    cbn. split; [reflexivity|]. intros j Hj _. apply Hres; lia.
  - (* a job resolves *)
    assert (Hsub : r1 ++ r2 `sublist_of` r1 ++ k :: r2)
      by (apply sublist_app; [reflexivity|apply sublist_cons; reflexivity]).
    assert (Hk : k ∈ r1 ++ k :: r2) by (apply elem_of_app; right; left).
    destruct ph as [i | i | | ]; cbn in Hinv.
    + destruct Hinv as (_ & Hr & _). destruct r1; discriminate.
    + destruct Hinv as (Hc & Hi & Hrun & Hst & Hdone & Hres).
      split; [|split].
      * cbn. repeat split; try assumption.
        -- etrans; eassumption.
        -- intros j Hj. apply elem_of_app. left. auto.
        -- intros j Hj Hnj. apply elem_of_app.
           destruct (decide (j = k)) as [->|Hne]; [right; left|].
           left. apply Hdone; [assumption|].
           intros [Hin | Hin]%elem_of_app; apply Hnj, elem_of_app; [left; assumption|].
           apply elem_of_cons in Hin as [->|Hin]; [contradiction|right; assumption].
        -- intros j Hj Hjn. apply elem_of_app. left. apply Hres; assumption.
      * intros c' j k' Hj Hk'. apply precedes_app; [exact (Hord c' j k' Hj Hk')|].
        intros Hin%list_elem_of_singleton. discriminate.
      * destruct Hc as (c & ->).
        intros c' j k' Hj Hk'. destruct (Htog c' j k' Hj Hk') as [HtR HtJ].
        split; (apply precedes_app; [assumption|]);
          intros Hin%list_elem_of_singleton; [|discriminate].
        inversion Hin; subst k'. apply Hst.
        assert (c' = c) as ->
          by (apply (chunk_unique c' c k Hk'); exact (elem_of_sublist _ _ _ Hk Hrun)).
        exact Hj.
    + destruct Hinv as (Hr & _). destruct r1; discriminate.
    + destruct Hinv as (i & Hc & Hrun & Hst & Hrej).
      split; [|split].
      * cbn. exists i. repeat split; try assumption.
        -- etrans; eassumption.
        -- intros j Hj. apply elem_of_app. left. auto.
        -- destruct Hrej as (k' & Hk'). exists k'. apply elem_of_app. left. assumption.
      * intros c' j k' Hj Hk'. apply precedes_app; [exact (Hord c' j k' Hj Hk')|].
        intros Hin%list_elem_of_singleton. discriminate.
      * destruct Hc as (c & ->).
        intros c' j k' Hj Hk'. destruct (Htog c' j k' Hj Hk') as [HtR HtJ].
        split; (apply precedes_app; [assumption|]);
          intros Hin%list_elem_of_singleton; [|discriminate].
        inversion Hin; subst k'. apply Hst.
        assert (c' = c) as ->
          by (apply (chunk_unique c' c k Hk'); exact (elem_of_sublist _ _ _ Hk Hrun)).
        exact Hj.
  - (* a job rejects *)
    assert (Hsub : r1 ++ r2 `sublist_of` r1 ++ k :: r2)
      by (apply sublist_app; [reflexivity|apply sublist_cons; reflexivity]).
    assert (Hk : k ∈ r1 ++ k :: r2) by (apply elem_of_app; right; left).
    assert (Hnew : Reject k ∈ tr ++ [Reject k]) by (apply elem_of_app; right; left).
    destruct ph as [i | i | | ]; cbn in Hinv.
    + destruct Hinv as (_ & Hr & _). destruct r1; discriminate.
    + destruct Hinv as (Hc & Hi & Hrun & Hst & Hdone & Hres).
      split; [|split].
      * cbn. exists i. repeat split; try assumption.
        -- etrans; eassumption.
        -- intros j Hj. apply elem_of_app. left. auto.
        -- exists k. assumption.
      * intros c' j k' Hj Hk'. apply precedes_app; [exact (Hord c' j k' Hj Hk')|].
        intros Hin%list_elem_of_singleton. discriminate.
      * destruct Hc as (c & ->).
        intros c' j k' Hj Hk'. destruct (Htog c' j k' Hj Hk') as [HtR HtJ].
        split; (apply precedes_app; [assumption|]);
          intros Hin%list_elem_of_singleton; [discriminate|].
        inversion Hin; subst k'. apply Hst.
        assert (c' = c) as ->
          by (apply (chunk_unique c' c k Hk'); exact (elem_of_sublist _ _ _ Hk Hrun)).
        exact Hj.
    + destruct Hinv as (Hr & _). destruct r1; discriminate.
    + destruct Hinv as (i & Hc & Hrun & Hst & Hrej).
      split; [|split].
      * cbn. exists i. repeat split; try assumption.
        -- etrans; eassumption.
        -- intros j Hj. apply elem_of_app. left. auto.
        -- exists k. assumption.
      * intros c' j k' Hj Hk'. apply precedes_app; [exact (Hord c' j k' Hj Hk')|].
        intros Hin%list_elem_of_singleton. discriminate.
      * destruct Hc as (c & ->).
        intros c' j k' Hj Hk'. destruct (Htog c' j k' Hj Hk') as [HtR HtJ].
        split; (apply precedes_app; [assumption|]);
          intros Hin%list_elem_of_singleton; [discriminate|].
        inversion Hin; subst k'. apply Hst.
        assert (c' = c) as ->
          by (apply (chunk_unique c' c k Hk'); exact (elem_of_sublist _ _ _ Hk Hrun)).
        exact Hj.
  - (* the batch is done *)
    destruct Hinv as ((c & ->) & Hi & Hrun & Hst & Hdone & Hres).
    rewrite app_nil_r. split; [|split; assumption].
    cbn. repeat split.
    + exists (Datatypes.S c). lia.
    + intros j Hj Hjn. destruct (decide (j < c * batchSize)) as [Hlt|Hge].
      * apply Hres; assumption.
      * apply Hdone; [apply elem_of_batch; lia|]. apply not_elem_of_nil.
Qed.

Lemma exec_inv tr t :
  exec (init) tr t ->
  inv tr t /\ chunksInOrder n batchSize tr /\ chunksTogether n batchSize tr.
Proof.
  intros H. remember init as t0 eqn:Ht0.
  induction H as [t|t tr t' evs t'' Hexec IH Hstep]; subst.
  - split; [|split].
    + cbn. split; [exists 0; reflexivity|]. split; [reflexivity|].
      intros j Hj. lia.
    + intros c j k _ _. apply precedes_nil.
    + intros c j k _ _. split; apply precedes_nil.
  - destruct (IH eq_refl) as (Hinv & Hord & Htog).
    eapply step_inv; eassumption.
Qed.

Lemma inv_running tr t : inv tr t -> length (running t) <= batchSize.
Proof.
  unfold Trace.inv. destruct (phase t) as [i | i | | ].
  - intros (_ & -> & _). cbn. lia.
  - intros (_ & _ & Hsub & _). apply sublist_length in Hsub.
    pose proof (length_batch i). lia.
  - intros (-> & _). cbn. lia.
  - intros (i & _ & Hsub & _). apply sublist_length in Hsub.
    pose proof (length_batch i). lia.
Qed.

End PositiveBatch.

Lemma exec_one t evs t' : step t evs t' -> exec t evs t'.
Proof.
  intros H. change evs with ([] ++ evs). econstructor; [constructor|exact H].
Qed.

Lemma exec_trans t tr t' tr' t'' :
  exec t tr t' -> exec t' tr' t'' -> exec t (tr ++ tr') t''.
Proof.
  intros H1 H2. induction H2 as [t'|t' tr' u evs u' _ IH Hstep].
  - rewrite app_nil_r. assumption.
  - rewrite app_assoc. econstructor; [apply IH; assumption|exact Hstep].
Qed.

(** The jobs in flight resolve one after the other. *)
Lemma exec_resolve_all ph r :
  exec (mkThread ph r) (map Resolve r) (mkThread ph []).
Proof.
  induction r as [|k r IH]; [constructor|].
  change (map Resolve (k :: r)) with ([Resolve k] ++ map Resolve r).
  eapply exec_trans; [|exact IH].
  apply exec_one. apply (step_resolve n batchSize ph [] k r).
Qed.

(** The schedule of [runInBatches_loop] is a run of the machine, and it
    ends with the return of the function. *)
Lemma inListOrder_is_a_run :
  1 <= batchSize ->
  forall fuel i,
    n - i < fuel ->
    exec (mkThread (AtLoop i) []) (inListOrder n batchSize fuel i)
         (mkThread Returned []).
Proof.
  intros Hbs. induction fuel as [|fuel IH]; intros i Hf; [lia|].
  cbn [inListOrder]. destruct (Nat.ltb_spec i n) as [Hi|Hi].
  - eapply exec_trans; [apply exec_one, step_start; assumption|].
    cbn [app]. eapply exec_trans; [apply exec_resolve_all|].
    change (inListOrder n batchSize fuel (i + batchSize))
      with ([] ++ inListOrder n batchSize fuel (i + batchSize)).
    eapply exec_trans; [apply exec_one, step_next|].
    apply IH. lia.
  - apply exec_one, step_return. lia.
Qed.

(** *** Every job is run *)

Lemma started_app tr1 tr2 : started (tr1 ++ tr2) = started tr1 ++ started tr2.
Proof. apply flat_map_app. Qed.

Lemma resolved_app tr1 tr2 : resolved (tr1 ++ tr2) = resolved tr1 ++ resolved tr2.
Proof. apply flat_map_app. Qed.

Lemma rejected_app tr1 tr2 : rejected (tr1 ++ tr2) = rejected tr1 ++ rejected tr2.
Proof. apply flat_map_app. Qed.

Lemma projections_Starts l :
  started (map Start l) = l /\ resolved (map Start l) = []
  /\ rejected (map Start l) = [].
Proof.
  induction l as [|k l (H1 & H2 & H3)]; [repeat split|].
  cbn. fold (started (map Start l)) (resolved (map Start l)) (rejected (map Start l)).
  rewrite H1, H2, H3. repeat split.
Qed.

Lemma projections_Resolves l :
  started (map Resolve l) = [] /\ resolved (map Resolve l) = l
  /\ rejected (map Resolve l) = [].
Proof.
  induction l as [|k l (H1 & H2 & H3)]; [repeat split|].
  cbn. fold (started (map Resolve l)) (resolved (map Resolve l))
    (rejected (map Resolve l)).
  rewrite H1, H2, H3. repeat split.
Qed.

(** The jobs started once the batch at [i] has: those below the end of
    the batch. *)
Lemma seq_batch i :
  i < n -> seq 0 (Nat.min i n) ++ batch i = seq 0 (Nat.min (i + batchSize) n).
Proof.
  intros Hi. rewrite batch_seq, Nat.min_l by lia.
  replace (Nat.min (i + batchSize) n) with (i + Nat.min batchSize (n - i)) by lia.
  rewrite seq_app. reflexivity.
Qed.

(** The count is kept by every step. *)
Lemma step_counted tr t evs t' :
  counted n batchSize tr t -> step t evs t' -> counted n batchSize (tr ++ evs) t'.
Proof.
  intros (m & Hm & Hst & Hperm & Hph) Hstep.
  destruct Hstep as [i r Hi | i r Hi | ph r1 k r2 | ph r1 k r2 | i]; cbn in *.
  - (* the batch at [i] starts *)
    destruct Hph as (-> & -> & Hrej). rewrite Hrej in Hperm.
    destruct (projections_Starts (batch i)) as (E1 & E2 & E3).
    exists (Nat.min (i + batchSize) n).
    rewrite started_app, resolved_app, rejected_app, E1, E2, E3, Hst, Hrej.
    rewrite !app_nil_r in *. cbn [app].
    split; [lia|]. split; [apply seq_batch; assumption|].
    split; [|repeat split; assumption].
    rewrite <- (seq_batch i Hi). apply Permutation_app_tail. exact Hperm.
  - (* the loop ends *)
    destruct Hph as (-> & -> & Hrej). exists n. rewrite app_nil_r.
    rewrite Nat.min_r in * by lia. repeat split; assumption.
  - (* a job resolves *)
    exists m. rewrite started_app, resolved_app, rejected_app. cbn.
    rewrite !app_nil_r. split; [assumption|]. split; [assumption|]. split.
    + rewrite <- Hperm, <- app_assoc. apply Permutation_app_head. cbn.
      rewrite (app_assoc (rejected tr) r1 r2),
        (app_assoc (rejected tr) r1 (k :: r2)).
      apply Permutation_middle.
    + destruct ph as [i|i| |]; try assumption;
        destruct Hph as (? & Hr & ?); destruct r1; discriminate.
  - (* a job rejects *)
    exists m. rewrite started_app, resolved_app, rejected_app. cbn.
    rewrite !app_nil_r. split; [assumption|]. split; [assumption|]. split.
    + rewrite <- Hperm. apply Permutation_app_head.
      rewrite <- app_assoc. apply Permutation_app_head.
      exact (Permutation_middle r1 r2 k).
    + destruct ph as [i|i| |]; cbn.
      * destruct Hph as (? & Hr & ?); destruct r1; discriminate.
      * destruct (rejected tr); discriminate.
      * destruct Hph as (? & Hr & ?); destruct r1; discriminate.
      * destruct (rejected tr); discriminate.
  - (* the batch is done *)
    destruct Hph as (Hi & -> & Hrej). exists (Nat.min (i + batchSize) n).
    rewrite app_nil_r. repeat split; assumption.
Qed.

Lemma exec_counted tr t : exec (init) tr t -> counted n batchSize tr t.
Proof.
  intros H. remember init as t0 eqn:Ht0.
  induction H as [t|t tr t' evs t'' Hexec IH Hstep]; subst.
  - exists 0. cbn. repeat split; [lia|constructor].
  - eapply step_counted; [apply IH; reflexivity|exact Hstep].
Qed.

(** As long as the function has neither returned nor thrown, or a job is
    in flight, something can happen. *)
Lemma exec_progress tr t :
  exec (init) tr t -> finished t \/ exists evs t', step t evs t'.
Proof.
  intros H. apply exec_counted in H as (m & _ & _ & _ & Hph).
  destruct t as [ph r]. cbn in Hph. destruct ph as [i|i| |].
  - right. destruct (decide (i < n)) as [Hi|Hi].
    + eexists. eexists. apply step_start. assumption.
    + eexists. eexists. apply step_return. assumption.
  - right. destruct r as [|k r].
    + eexists. eexists. apply step_next.
    + eexists. eexists. apply (step_resolve n batchSize (Awaiting i) [] k r).
  - left. destruct Hph as (_ & -> & _). split; [reflexivity|left; reflexivity].
  - destruct r as [|k r].
    + left. split; [reflexivity|right; reflexivity].
    + right. eexists. eexists. apply (step_resolve n batchSize Failed [] k r).
Qed.

(** The recording tasks from [k] on, run one after the other. *)
Lemma recorders_resolve len : forall k log,
  Settle.resolvesAll (map recorder (seq k len)) log (seq k len)
    (log ++ flat_map (fun j => [Start j; Resolve j]) (seq k len)).
Proof.
  induction len as [|len IH]; intros k log; cbn.
  - rewrite app_nil_r. constructor.
  - econstructor; [reflexivity|].
    replace (log ++ Start k :: Resolve k
               :: flat_map (fun j => [Start j; Resolve j]) (seq (Datatypes.S k) len))
      with ((log ++ [Start k; Resolve k])
              ++ flat_map (fun j => [Start j; Resolve j]) (seq (Datatypes.S k) len))
      by (rewrite <- app_assoc; reflexivity).
    apply IH.
Qed.

Lemma projections_recorded l :
  started (flat_map (fun j => [Start j; Resolve j]) l) = l
  /\ resolved (flat_map (fun j => [Start j; Resolve j]) l) = l.
Proof.
  induction l as [|k l [H1 H2]]; [split; reflexivity|]. cbn.
  fold (started (flat_map (fun j => [Start j; Resolve j]) l))
    (resolved (flat_map (fun j => [Start j; Resolve j]) l)).
  rewrite H1, H2. split; reflexivity.
Qed.

Lemma batch_rest i :
  batch i ++ seq (i + batchSize) (n - (i + batchSize)) = seq i (n - i).
Proof.
  rewrite batch_seq. destruct (Nat.le_gt_cases batchSize (n - i)) as [Hfull|Hcut].
  - rewrite Nat.min_l by assumption.
    rewrite <- seq_app. f_equal. lia.
  - rewrite Nat.min_r by lia. replace (n - (i + batchSize)) with 0 by lia.
    apply app_nil_r.
Qed.

(** What the schedule in the order of the list starts and resolves: the
    jobs from [i] on, in their order. *)
Lemma projections_inListOrder :
  1 <= batchSize ->
  forall fuel i,
    n - i < fuel ->
    started (inListOrder n batchSize fuel i) = seq i (n - i)
    /\ resolved (inListOrder n batchSize fuel i) = seq i (n - i).
Proof.
  intros Hbs. induction fuel as [|fuel IH]; intros i Hf; [lia|].
  cbn [inListOrder]. destruct (Nat.ltb_spec i n) as [Hi|Hi].
  - destruct (IH (i + batchSize) ltac:(lia)) as [H1 H2].
    destruct (projections_Starts (batch i)) as (S1 & S2 & _).
    destruct (projections_Resolves (batch i)) as (R1 & R2 & _).
    rewrite !started_app, !resolved_app, S1, S2, R1, R2, H1, H2. cbn [app].
    rewrite batch_rest. split; reflexivity.
  - replace (n - i) with 0 by lia. split; reflexivity.
Qed.

(** C2: for every number of jobs and every [batchSize >= 1], the chunks
    [tasks.slice(c * batchSize, c * batchSize + batchSize)] are runs of
    consecutive jobs, of at most [batchSize] jobs each, and every job is in
    exactly one of them.  In every run of [runInBatches], at every point:
    at most [batchSize] jobs are in flight; no job of a chunk is started
    before every job of the chunk before it has resolved; all the jobs of
    a chunk are started before one of them resolves; the jobs started are
    the first jobs of the list, each started once; the run can go on until
    the function has returned or thrown and no job is in flight; and when
    the function has returned, every job has been started once and has
    resolved once.  A run in which the function returns exists: run on
    tasks that record their start and their resolution, [runInBatches]
    returns their values in the order of the list, having started and
    resolved the jobs in the order in which this run does. *)
Theorem batches_bound_concurrency :
  1 <= batchSize ->
  (forall c, length (chunk c) <= batchSize
             /\ chunk c = seq (c * batchSize) (length (chunk c)))
  /\ (forall k, k < n -> exists c, k ∈ chunk c)
  /\ (forall c c' k, k ∈ chunk c -> k ∈ chunk c' -> c = c')
  /\ (forall tr t,
        exec (init) tr t ->
        length (running t) <= batchSize
        /\ (forall c j k,
              j ∈ chunk c -> k ∈ chunk (Datatypes.S c) ->
              precedes tr (Resolve j) (Start k))
        /\ (forall c j k,
              j ∈ chunk c -> k ∈ chunk c -> precedes tr (Start j) (Resolve k))
        /\ (exists m, m <= n /\ started tr = seq 0 m)
        /\ (finished t \/ exists evs t', step t evs t')
        /\ (phase t = Returned ->
            started tr = seq 0 n /\ Permutation (resolved tr) (seq 0 n)
            /\ rejected tr = []))
  /\ exists log tr,
       runInBatches (recorders n) batchSize [] = Ok (seq 0 n) log
       /\ exec (init) tr (mkThread Returned [])
       /\ started log = started tr /\ resolved log = resolved tr.
Proof.
  intros Hbs. split; [|split; [|split; [|split]]].
  - intros c. split; [apply length_batch|].
    unfold Scheduler.chunk. rewrite batch_seq, length_seq. reflexivity.
  - intros k Hk. exists (k / batchSize). apply chunk_cover; assumption.
  - intros c c' k. apply chunk_unique; assumption.
  - intros tr t Hexec. destruct (exec_inv Hbs tr t Hexec) as (Hinv & Hord & Htog).
    split; [eapply inv_running; eassumption|]. split; [exact Hord|].
    split; [intros c j k Hj Hk; apply (Htog c j k Hj Hk)|].
    pose proof (exec_counted tr t Hexec) as (m & Hm & Hst & Hperm & Hph).
    split; [exists m; split; assumption|].
    split; [apply (exec_progress tr t Hexec)|].
    intros Hret. rewrite Hret in Hph. destruct Hph as (-> & Hr & Hrej).
    rewrite Hr, Hrej, !app_nil_r in Hperm. repeat split; assumption.
  - exists (flat_map (fun j => [Start j; Resolve j]) (seq 0 n)),
      (inListOrder n batchSize (Datatypes.S n) 0).
    destruct (projections_recorded (seq 0 n)) as [L1 L2].
    destruct (projections_inListOrder Hbs (Datatypes.S n) 0 ltac:(lia)) as [T1 T2].
    rewrite Nat.sub_0_r in T1, T2. rewrite L1, L2, T1, T2.
    split; [|split; [|split; reflexivity]].
    + unfold runInBatches, recorders. rewrite length_map, length_seq.
      exact (RunInBatchesProps.loop_resolves (recorders n) batchSize Hbs
               (Datatypes.S n) 0 [] [] (seq 0 n) _
               ltac:(unfold recorders; rewrite length_map, length_seq; lia)
               (recorders_resolve n 0 [])).
    + apply (inListOrder_is_a_run Hbs). lia.
Qed.

End Thread.

Lemma batches_bound_concurrency_witness :
  1 <= 2
  /\ runInBatches (recorders 5) 2 [] =
       Ok [0; 1; 2; 3; 4]
          [Start 0; Resolve 0; Start 1; Resolve 1; Start 2; Resolve 2;
           Start 3; Resolve 3; Start 4; Resolve 4]
  /\ exists tr, exec 5 2 (init) tr (mkThread Returned [])
                /\ started tr = [0; 1; 2; 3; 4]
                /\ Permutation (resolved tr) [0; 1; 2; 3; 4]
                /\ precedes tr (Resolve 1) (Start 2)
                /\ precedes tr (Start 1) (Resolve 0).
Proof.
  assert (Hbs : 1 <= 2) by lia.
  destruct (batches_bound_concurrency 5 2 Hbs) as (_ & _ & _ & Hruns & Hrun).
  destruct Hrun as (log & tr & Hlog & Hexec & _ & _).
  destruct (Hruns tr _ Hexec) as (_ & Hord & Htog & _ & _ & Hret).
  destruct (Hret eq_refl) as (Hst & Hres & _).
  assert (H0 : 0 ∈ chunk 5 2 0) by (left).
  assert (H1 : 1 ∈ chunk 5 2 0) by (right; left).
  assert (H2 : 2 ∈ chunk 5 2 1) by (left).
  split; [exact Hbs|]. split.
  - rewrite Hlog. f_equal.
    assert (E : Ok (seq 0 5) log
                = runInBatches (recorders 5) 2 []) by (symmetry; exact Hlog).
    vm_compute in E. injection E as ->. reflexivity.
  - exists tr. split; [exact Hexec|]. split; [exact Hst|]. split; [exact Hres|].
    split; [exact (Hord 0 1 2 H1 H2)|exact (Htog 0 1 0 H1 H0)].
Defined.

Example chunks_of_five_by_two :
  map (chunk 5 2) [0; 1; 2; 3] = [[0; 1]; [2; 3]; [4]; []].
Proof. reflexivity. Qed.

(** *** The two groups *)

Lemma jobsOf_app g tr1 tr2 : jobsOf g (tr1 ++ tr2) = jobsOf g tr1 ++ jobsOf g tr2.
Proof. unfold jobsOf. apply flat_map_app. Qed.

Lemma jobsOf_jobs g g' evs :
  jobsOf g (map (Job g') evs) = if Bool.eqb g' g then evs else [].
Proof.
  induction evs as [|e evs IH]; cbn; [destruct (Bool.eqb g' g); reflexivity|].
  fold (jobsOf g (map (Job g') evs)). rewrite IH.
  destruct (Bool.eqb g' g); reflexivity.
Qed.

Lemma elem_of_jobsOf g e tr : e ∈ jobsOf g tr <-> Job g e ∈ tr.
Proof.
  unfold jobsOf. rewrite !list_elem_of_In, in_flat_map. split.
  - intros ([g' e'|g'] & Hin & He); [|destruct He].
    destruct (Bool.eqb_spec g' g) as [->|]; [|destruct He].
    destruct He as [->|[]]. assumption.
  - intros Hin. exists (Job g e). split; [assumption|].
    rewrite Bool.eqb_reflx. left. reflexivity.
Qed.

Lemma closes_app g tr1 tr2 : closes g (tr1 ++ tr2) = closes g tr1 + closes g tr2.
Proof. unfold closes. rewrite List.filter_app, length_app. reflexivity. Qed.

Lemma closes_jobs g g' evs : closes g (map (Job g') evs) = 0.
Proof. unfold closes. induction evs; cbn; auto. Qed.

Lemma closes_Close g g' : closes g [Close g'] = if Bool.eqb g' g then 1 else 0.
Proof. unfold closes. cbn. destruct (Bool.eqb g' g); reflexivity. Qed.

Lemma not_Close_in_jobs g g' evs : Close g ∉ map (Job g') evs.
Proof.
  rewrite list_elem_of_In, in_map_iff. intros (e & Heq & _). discriminate.
Qed.

Section Groups.

Variables nProxy nNonProxy limit : nat.
Hypothesis Hlimit : 1 <= limit.

Local Abbreviation size := (size nProxy nNonProxy).
Local Abbreviation batchSizeOf := (batchSizeOf nProxy nNonProxy limit).
Local Abbreviation gstep := (gstep nProxy nNonProxy limit).
Local Abbreviation sstep := (sstep nProxy nNonProxy limit).
Local Abbreviation sexec := (sexec nProxy nNonProxy limit).
Local Abbreviation sinit := (sinit nProxy nNonProxy).

(** A step of the two groups is a step of one of them; the other one
    stays as it is. *)
Lemma sstep_group g s evs s' :
  sstep s evs s' ->
  (gstep g (group g s) evs (group g s'))
  \/ (exists g', g' <> g /\ group g s' = group g s
                 /\ gstep g' (group g' s) evs (group g' s')).
Proof.
  intros [p evs0 p' q Hg | p q evs0 q' Hg]; destruct g; cbn.
  - left. assumption.
  - right. exists true. repeat split; [discriminate|assumption].
  - right. exists false. repeat split; [discriminate|assumption].
  - left. assumption.
Qed.

Lemma sstep_of_gstep g s evs grp :
  gstep g (group g s) evs grp -> exists s', sstep s evs s'.
Proof.
  destruct s as [p q], g; cbn; intros H.
  - exists (mkGroups grp q). constructor. assumption.
  - exists (mkGroups p grp). constructor. assumption.
Qed.

(** What a step of the other group emits is nothing of this group. *)
Lemma gstep_other g g' grp evs grp' :
  g' <> g -> gstep g' grp evs grp' ->
  jobsOf g evs = [] /\ closes g evs = 0 /\ Close g ∉ evs.
Proof.
  intros Hne [t evs0 t' c _ _ | r _].
  - rewrite jobsOf_jobs, closes_jobs.
    destruct (Bool.eqb_spec g' g); [contradiction|].
    repeat split. apply not_Close_in_jobs.
  - repeat split.
    + rewrite closes_Close. destruct (Bool.eqb_spec g' g); [contradiction|reflexivity].
    + intros Hin%list_elem_of_singleton. inversion Hin; subst. contradiction.
Qed.

Section OneGroup.

Variable g : bool.
Hypothesis Hsize : 0 < size g.

Lemma batchSizeOf_pos : 1 <= batchSizeOf g.
Proof. unfold Scheduler.batchSizeOf. lia. Qed.

(** The invariant of a group with sites: its [runInBatches] runs as the
    machine above says; [close()] was called once when the callback has
    run and not at all before; the callback runs after the return only;
    and a [close()] in the trace comes after the resolution of every job
    of the group. *)
Lemma sexec_group_inv tr s :
  sexec sinit tr s ->
  exec (size g) (batchSizeOf g) (init) (jobsOf g tr) (thread (group g s))
  /\ closes g tr = (if closed (group g s) then 1 else 0)
  /\ (closed (group g s) = true -> phase (thread (group g s)) = Returned)
  /\ (forall k, k < size g -> precedes tr (Job g (Resolve k)) (Close g)).
Proof.
  intros H. remember sinit as s0 eqn:Hs0.
  induction H as [s|s tr s' evs s'' Hexec IH Hstep]; subst.
  - assert (Hinit : group g sinit = mkGroup init false).
    { unfold Scheduler.sinit, initGroup. apply Nat.ltb_lt in Hsize.
      destruct g; cbn; unfold Scheduler.size in Hsize; cbn in Hsize;
        rewrite Hsize; reflexivity. }
    rewrite Hinit. cbn. repeat split; [constructor|discriminate|].
    intros k _. apply precedes_nil.
  - destruct (IH eq_refl) as (Hrun & Hcl & Hret & Hprec). clear IH.
    pose proof (exec_inv _ _ batchSizeOf_pos _ _ Hrun) as (Hinv & _ & _).
    destruct (sstep_group g _ _ _ Hstep) as [Hg | (g' & Hne & Hsame & Hg)].
    + (* a step of this group *)
      remember (group g s') as grp eqn:Eg in *.
      remember (group g s'') as grp' eqn:Eg' in *.
      destruct Hg as [t evs0 t' c _ Hst | r _]; cbn in *.
      * rewrite jobsOf_app, jobsOf_jobs, Bool.eqb_reflx, closes_app, closes_jobs.
        repeat split.
        -- econstructor; eassumption.
        -- lia.
        -- intros Hc. specialize (Hret Hc).
           unfold Trace.inv in Hinv. rewrite Hret in Hinv. destruct Hinv as (Hr & _).
           destruct t as [ph r]. cbn in *. subst.
           inversion Hst; subst; try discriminate;
             match goal with H : _ ++ _ :: _ = [] |- _ =>
               apply app_eq_nil in H as [_ H]; discriminate end.
        -- intros k Hk. apply precedes_app; [apply Hprec; assumption|].
           intros Hin. exfalso. eapply not_Close_in_jobs; eassumption.
      * rewrite jobsOf_app, closes_app, closes_Close, Bool.eqb_reflx.
        change (jobsOf g [Close g]) with (@nil Event). rewrite app_nil_r.
        repeat split; [assumption|lia|].
        intros k Hk. apply precedes_app; [apply Hprec; assumption|].
        intros _. apply elem_of_jobsOf.
        unfold Trace.inv in Hinv. cbn in Hinv. destruct Hinv as (_ & Hres).
        apply Hres; assumption.
    + (* a step of the other group *)
      destruct (gstep_other g g' _ _ _ Hne Hg) as (Hj & Hc & Hn).
      rewrite Hsame, jobsOf_app, closes_app, Hj, Hc, app_nil_r, Nat.add_0_r.
      repeat split; try assumption.
      intros k Hk. apply precedes_app; [apply Hprec; assumption|].
      intros Hin. contradiction.
Qed.

(** When nothing is left to happen and no job of the group has rejected,
    the callback of the group has run. *)
Lemma terminal_closed tr s :
  sexec sinit tr s ->
  terminal nProxy nNonProxy limit s ->
  (forall k, Job g (Reject k) ∉ tr) ->
  closed (group g s) = true.
Proof.
  intros Hexec Hterm Hnorej.
  destruct (sexec_group_inv tr s Hexec) as (Hrun & _ & _ & _).
  pose proof (exec_inv _ _ batchSizeOf_pos _ _ Hrun) as (Hinv & _ & _).
  assert (Hstuck : forall evs grp, ~ gstep g (group g s) evs grp).
  { intros evs grp Hg. destruct (sstep_of_gstep g s evs grp Hg) as (s' & Hs).
    exact (Hterm _ _ Hs). }
  destruct (group g s) as [[ph r] c] eqn:Hgrp. cbn in *.
  unfold Trace.inv in Hinv. cbn in Hinv.
  destruct ph as [i | i | | ].
  - destruct Hinv as (_ & -> & _). exfalso.
    destruct (decide (i < size g)) as [Hi|Hi].
    + eapply Hstuck. apply gstep_job; [assumption|]. apply step_start. assumption.
    + eapply Hstuck. apply gstep_job; [assumption|]. apply step_return. assumption.
  - exfalso. destruct r as [|k r].
    + eapply Hstuck. apply gstep_job; [assumption|]. apply step_next.
    + eapply Hstuck. apply gstep_job; [assumption|].
      apply (step_resolve _ _ (Awaiting i) [] k r).
  - destruct Hinv as (-> & _). destruct c; [reflexivity|]. exfalso.
    eapply Hstuck. apply gstep_close. assumption.
  - destruct Hinv as (_ & _ & _ & _ & k & Hk). exfalso.
    apply (Hnorej k). apply elem_of_jobsOf. assumption.
Qed.

End OneGroup.

(** A group without sites does nothing and is never closed. *)
Lemma sexec_empty_group g tr s :
  size g = 0 -> sexec sinit tr s -> closes g tr = 0.
Proof.
  intros Hz H. remember sinit as s0 eqn:Hs0.
  induction H as [s|s tr s' evs s'' Hexec IH Hstep]; subst; [reflexivity|].
  rewrite closes_app, (IH eq_refl).
  destruct (sstep_group g _ _ _ Hstep) as [Hg | (g' & Hne & _ & Hg)].
  - inversion Hg; lia.
  - destruct (gstep_other g g' _ _ _ Hne Hg) as (_ & -> & _). reflexivity.
Qed.

(** The two groups on the machine, whatever the order in which their jobs
    settle: the instance of a group that has at least one site is closed
    at most once; it is closed only after every job of the group has
    resolved; the call is due as soon as the [runInBatches] of the group
    has returned, whatever the other group is doing; and it has been made
    exactly once when the run is over, provided no job of the group
    rejected.  Nothing closes the instance of a group without sites. *)
Theorem group_closed_once_after_its_jobs proxied tr s :
  sexec sinit tr s ->
  if 0 <? size proxied then
    closes proxied tr <= 1
    /\ (forall k, k < size proxied ->
                  precedes tr (Job proxied (Resolve k)) (Close proxied))
    /\ (phase (thread (group proxied s)) = Returned ->
        closed (group proxied s) = false ->
        exists s', sstep s [Close proxied] s')
    /\ (terminal nProxy nNonProxy limit s ->
        (forall k, Job proxied (Reject k) ∉ tr) ->
        closes proxied tr = 1)
  else closes proxied tr = 0.
Proof.
  intros Hexec. destruct (0 <? size proxied) eqn:Hsz.
  - apply Nat.ltb_lt in Hsz.
    destruct (sexec_group_inv proxied Hsz tr s Hexec) as (Hrun & Hcl & Hret & Hprec).
    repeat split.
    + rewrite Hcl. destruct (closed _); lia.
    + exact Hprec.
    + intros Hph Hc. apply (sstep_of_gstep proxied s [Close proxied]
                              (mkGroup (thread (group proxied s)) true)).
      destruct (group proxied s) as [[ph r] c]. cbn in *. subst.
      apply gstep_close. assumption.
    + intros Hterm Hnorej.
      rewrite Hcl, (terminal_closed proxied Hsz tr s Hexec Hterm Hnorej). reflexivity.
  - apply Nat.ltb_ge in Hsz.
    exact (sexec_empty_group proxied tr s ltac:(lia) Hexec).
Qed.

End Groups.

Lemma sexec_snoc nProxy nNonProxy limit s tr s' evs s'' tr' :
  sexec nProxy nNonProxy limit s tr s' ->
  sstep nProxy nNonProxy limit s' evs s'' ->
  tr' = tr ++ evs ->
  sexec nProxy nNonProxy limit s tr' s''.
Proof. intros H Hs ->. econstructor; eassumption. Defined.

(** A search with one proxy site and no other: the job starts and
    resolves, the loop ends, the instance is closed. *)
Lemma one_proxy_site_run :
  sexec 1 0 5 (sinit 1 0)
    [Job true (Start 0); Job true (Resolve 0); Close true]
    (mkGroups (mkGroup (mkThread Returned []) true)
              (mkGroup (mkThread Returned []) false)).
Proof.
  set (q := mkGroup (mkThread Returned []) false).
  assert (H0 : sexec 1 0 5 (sinit 1 0) []
                 (mkGroups (mkGroup (mkThread (AtLoop 0) []) false) q))
    by apply sexec_nil.
  assert (H1 : sexec 1 0 5 (sinit 1 0) [Job true (Start 0)]
                 (mkGroups (mkGroup (mkThread (Awaiting 0) [0]) false) q)).
  { eapply sexec_snoc; [exact H0| |reflexivity]. apply sstep_proxy.
    apply (gstep_job 1 0 5 true (mkThread (AtLoop 0) []) (map Start (batch 1 1 0))
             (mkThread (Awaiting 0) ([] ++ batch 1 1 0)) false); [cbn; lia|].
    apply step_start. lia. }
  assert (H2 : sexec 1 0 5 (sinit 1 0) [Job true (Start 0); Job true (Resolve 0)]
                 (mkGroups (mkGroup (mkThread (Awaiting 0) []) false) q)).
  { eapply sexec_snoc; [exact H1| |reflexivity]. apply sstep_proxy.
    apply (gstep_job 1 0 5 true (mkThread (Awaiting 0) ([] ++ 0 :: []))
             [Resolve 0] (mkThread (Awaiting 0) ([] ++ [])) false); [cbn; lia|].
    apply step_resolve. }
  assert (H3 : sexec 1 0 5 (sinit 1 0) [Job true (Start 0); Job true (Resolve 0)]
                 (mkGroups (mkGroup (mkThread (AtLoop 1) []) false) q)).
  { eapply sexec_snoc; [exact H2| |reflexivity]. apply sstep_proxy.
    apply (gstep_job 1 0 5 true (mkThread (Awaiting 0) []) []
             (mkThread (AtLoop (0 + 1)) []) false); [cbn; lia|].
    apply step_next. }
  assert (H4 : sexec 1 0 5 (sinit 1 0) [Job true (Start 0); Job true (Resolve 0)]
                 (mkGroups (mkGroup (mkThread Returned []) false) q)).
  { eapply sexec_snoc; [exact H3| |reflexivity]. apply sstep_proxy.
    apply (gstep_job 1 0 5 true (mkThread (AtLoop 1) []) []
             (mkThread Returned []) false); [cbn; lia|].
    apply step_return. cbn. lia. }
  eapply sexec_snoc; [exact H4| |reflexivity]. apply sstep_proxy.
  apply gstep_close. cbn. lia.
Defined.

Lemma group_closed_once_after_its_jobs_witness :
  1 <= 5
  /\ sexec 1 0 5 (sinit 1 0)
       [Job true (Start 0); Job true (Resolve 0); Close true]
       (mkGroups (mkGroup (mkThread Returned []) true)
                 (mkGroup (mkThread Returned []) false))
  /\ closes true [Job true (Start 0); Job true (Resolve 0); Close true] <= 1
  /\ precedes [Job true (Start 0); Job true (Resolve 0); Close true]
       (Job true (Resolve 0)) (Close true).
Proof.
  split; [lia|]. split; [exact one_proxy_site_run|].
  pose proof (group_closed_once_after_its_jobs 1 0 5 ltac:(lia) true _ _
                one_proxy_site_run) as H.
  cbn in H. destruct H as (H1 & H2 & _). split; [exact H1|]. apply H2. lia.
Defined.

End SchedulerProps.

(** * Further properties of the code *)

(** ** Letter case and white space *)

Module CaseProps.

Lemma upper_idem c : upper (upper c) = upper c.
Proof. destruct c as [[] [] [] [] [] [] [] []]; reflexivity. Qed.

Lemma lower_upper c : lower (upper c) = lower c.
Proof. destruct c as [[] [] [] [] [] [] [] []]; reflexivity. Qed.

Lemma upper_lower c : upper (lower c) = upper c.
Proof. destruct c as [[] [] [] [] [] [] [] []]; reflexivity. Qed.

Lemma isSpace_upper c : isSpace (upper c) = isSpace c.
Proof. destruct c as [[] [] [] [] [] [] [] []]; reflexivity. Qed.

Lemma toUpperCase_idem s : toUpperCase (toUpperCase s) = toUpperCase s.
Proof. induction s as [|c s IH]; cbn; [reflexivity|]. rewrite upper_idem, IH. reflexivity. Qed.

Lemma toLowerCase_toUpperCase s : toLowerCase (toUpperCase s) = toLowerCase s.
Proof. induction s as [|c s IH]; cbn; [reflexivity|]. rewrite lower_upper, IH. reflexivity. Qed.

Lemma toUpperCase_toLowerCase s : toUpperCase (toLowerCase s) = toUpperCase s.
Proof. induction s as [|c s IH]; cbn; [reflexivity|]. rewrite upper_lower, IH. reflexivity. Qed.

Lemma trimStart_upper s : trimStart (toUpperCase s) = toUpperCase (trimStart s).
Proof.
  induction s as [|c s IH]; cbn; [reflexivity|].
  rewrite isSpace_upper. destruct (isSpace c); [exact IH|reflexivity].
Qed.

Lemma allSpace_upper s : allSpace (toUpperCase s) = allSpace s.
Proof. induction s as [|c s IH]; cbn; [reflexivity|]. rewrite isSpace_upper, IH. reflexivity. Qed.

Lemma trimEnd_upper s : trimEnd (toUpperCase s) = toUpperCase (trimEnd s).
Proof.
  induction s as [|c s IH]; [reflexivity|].
  cbn [toUpperCase trimEnd].
  change (String (upper c) (toUpperCase s)) with (toUpperCase (String c s)).
  rewrite allSpace_upper. destruct (allSpace (String c s)); [reflexivity|].
  cbn [toUpperCase]. rewrite IH. reflexivity.
Qed.

Lemma trim_upper s : trim (toUpperCase s) = toUpperCase (trim s).
Proof. unfold trim. rewrite trimStart_upper, trimEnd_upper. reflexivity. Qed.

Lemma empty_upper s : String.eqb (toUpperCase s) "" = String.eqb s "".
Proof. destruct s; reflexivity. Qed.

(** Two strings that differ by the case of their letters only are both
    empty or both not, and both blank or both not. *)
Lemma same_case_empty s s' :
  toUpperCase s = toUpperCase s' -> String.eqb s "" = String.eqb s' "".
Proof. intros H. rewrite <- (empty_upper s), <- (empty_upper s'), H. reflexivity. Qed.

Lemma same_case_blank s s' :
  toUpperCase s = toUpperCase s' ->
  String.eqb (trim s) "" = String.eqb (trim s') "".
Proof.
  intros H. rewrite <- (empty_upper (trim s)), <- (empty_upper (trim s')).
  rewrite <- !trim_upper, H. reflexivity.
Qed.

Lemma same_case_given o o' :
  toUpperCase <$> o = toUpperCase <$> o' -> given o = given o'.
Proof.
  destruct o as [s|], o' as [s'|]; cbn; try discriminate; [|reflexivity].
  intros [= H]. rewrite (same_case_empty _ _ H), (same_case_blank _ _ H). reflexivity.
Qed.

Lemma same_case_default o o' :
  toUpperCase <$> o = toUpperCase <$> o' ->
  toUpperCase (default "" o) = toUpperCase (default "" o').
Proof.
  destruct o as [s|], o' as [s'|]; cbn; try discriminate; [|reflexivity].
  intros [= H]. exact H.
Qed.

End CaseProps.


(** ** The orchestrator *)

Module BackendMore.
Import Backend Settle Observe Observe2 Completion Inputs Inputs2.
Import RunInBatchesProps ProcessSiteProps.

Section Generic.

Context {S T : Type}.
Implicit Types (tasks : list (M S T)) (s : S).

(** A property of the state that every task keeps, however it settles, is
    kept by [Promise.all] and by the loop of [runInBatches]. *)
Lemma promiseAll_keeps (P : S -> Prop) tasks :
  Forall (keeps P) tasks ->
  forall s, P s -> match promiseAll tasks s with
                   | Ok _ s' | Throw _ s' => P s'
                   | Diverge => True
                   end.
Proof.
  induction 1 as [|p rest Hp _ IH]; intros s Hs; cbn; [assumption|].
  specialize (Hp s Hs). destruct (p s) as [a s1|e s1|]; [| |exact I];
    specialize (IH s1 Hp); destruct (promiseAll rest s1); assumption.
Qed.

Lemma loop_keeps (P : S -> Prop) tasks batchSize :
  Forall (keeps P) tasks ->
  forall fuel i results s,
    P s -> match runInBatches_loop fuel tasks batchSize i results s with
           | Ok _ s' | Throw _ s' => P s'
           | Diverge => True
           end.
Proof.
  intros Hall. induction fuel as [|fuel IH]; intros i results s Hs; [exact I|].
  cbn [runInBatches_loop]. destruct (i <? length tasks); [|assumption].
  unfold_M.
  pose proof (promiseAll_keeps P (slice i (i + batchSize) tasks)) as Hb.
  specialize (Hb ltac:(unfold slice; apply Forall_take, Forall_drop, Hall) s Hs).
  destruct (promiseAll (slice i (i + batchSize) tasks) s) as [vs s1|e s1|];
    [|assumption|exact I].
  apply IH, Hb.
Qed.

Lemma slice_add i j k tasks :
  slice i (i + j + k) tasks = slice i (i + j) tasks ++ slice (i + j) (i + j + k) tasks.
Proof.
  unfold slice.
  replace (i + j + k - i) with (j + k) by lia.
  replace (i + j - i) with j by lia.
  replace (i + j + k - (i + j)) with k by lia.
  rewrite <- (take_drop j (drop i tasks)) at 1.
  rewrite drop_drop.
  destruct (Nat.le_gt_cases j (length (drop i tasks))) as [Hle|Hgt].
  - rewrite take_app_add'; [reflexivity|]. rewrite length_take. lia.
  - rewrite length_drop in Hgt.
    rewrite (take_ge (drop i tasks) j) by (rewrite length_drop; lia).
    rewrite (drop_ge tasks (i + j)) by lia.
    rewrite take_nil, !app_nil_r. apply take_ge. rewrite length_drop. lia.
Qed.

(** The loop, when the batches before one batch have resolved and this
    one rejects. *)
Lemma loop_rejects tasks batchSize e :
  1 <= batchSize ->
  forall k fuel i results s vs s1 s2,
    length tasks - i < fuel ->
    resolvesAll (slice i (i + k * batchSize) tasks) s vs s1 ->
    promiseAll (slice (i + k * batchSize) (i + k * batchSize + batchSize) tasks) s1
    = Throw e s2 ->
    runInBatches_loop fuel tasks batchSize i results s = Throw e s2.
Proof.
  intros Hb. induction k as [|k IH]; intros fuel i results s vs s1 s2 Hf Hr Hp;
    (destruct fuel as [|fuel]; [lia|]); cbn [runInBatches_loop].
  - cbn in Hr, Hp. rewrite Nat.add_0_r in Hr, Hp.
    unfold slice in Hr at 1. rewrite Nat.sub_diag, take_0 in Hr.
    inversion Hr; subst.
    destruct (i <? length tasks) eqn:Hi.
    + unfold_M. rewrite Hp. reflexivity.
    + apply Nat.ltb_ge in Hi. unfold slice in Hp. rewrite drop_ge in Hp by lia.
      rewrite take_nil in Hp. discriminate.
  - replace (i + Datatypes.S k * batchSize) with (i + batchSize + k * batchSize) in *
      by lia.
    rewrite <- Nat.add_assoc, Nat.add_assoc in Hr.
    rewrite slice_add in Hr.
    apply resolvesAll_app_inv in Hr as (vs1 & vs2 & sm & -> & H1 & H2).
    destruct (i <? length tasks) eqn:Hi.
    + apply Nat.ltb_lt in Hi. unfold_M.
      rewrite (promiseAll_resolves _ _ _ _ H1).
      apply (IH fuel (i + batchSize) (results ++ vs1) sm vs2 s1 s2); [lia|assumption|assumption].
    + apply Nat.ltb_ge in Hi. unfold slice in Hp. rewrite drop_ge in Hp by lia.
      rewrite take_nil in Hp. discriminate.
Qed.

(** X8: when the batches before one batch have resolved and a task of
    this batch rejects, [runInBatches] rejects and stops there: the state
    is the one the rejected batch has left, no task of a later batch has
    been started. *)
Theorem rejected_batch_stops_the_loop tasks batchSize k s vs s1 e s2 :
  1 <= batchSize ->
  resolvesAll (slice 0 (k * batchSize) tasks) s vs s1 ->
  promiseAll (slice (k * batchSize) (k * batchSize + batchSize) tasks) s1 = Throw e s2 ->
  runInBatches tasks batchSize s = Throw e s2.
Proof.
  intros Hb Hr Hp. unfold runInBatches.
  apply (loop_rejects tasks batchSize e Hb k (Datatypes.S (length tasks)) 0 [] s vs s1 s2);
    [lia|exact Hr|exact Hp].
Qed.

(** X9: with a batch size of zero and a task left to run, the loop of
    [runInBatches] never ends: every turn awaits an empty batch and leaves
    [i] where it was. *)
Theorem zero_batch_size_never_returns tasks fuel i results s :
  i < length tasks ->
  runInBatches_loop fuel tasks 0 i results s = Diverge.
Proof.
  intros Hi. revert results. induction fuel as [|fuel IH]; intros results; [reflexivity|].
  cbn [runInBatches_loop]. apply Nat.ltb_lt in Hi. rewrite Hi.
  unfold slice. rewrite Nat.add_0_r, Nat.sub_diag, take_0. unfold_M. cbn.
  apply IH.
Qed.

End Generic.

Section WithRun.

Variable fails : Event -> bool.
Variable siteCredentials : gmap string LoginCredentials.
Variable searchParams : SearchParams.
Variable onProgress : bool.
Variable siteConfigs : list SiteConfig.

Local Abbreviation ext := (ext fails).
Local Abbreviation processSite_try := (processSite_try fails siteCredentials searchParams onProgress siteConfigs).
Local Abbreviation processSite := (processSite fails siteCredentials searchParams onProgress siteConfigs).

(** How a job that settles went: a call before the [try] rejected, or the
    [try] block resolved or the [catch] took over, and the page was closed
    in the [finally], with or without success. *)
Lemma processSite_settled siteConfig s :
  match processSite siteConfig s with
  | Diverge => True
  | outcome =>
      (existsb fails (preEvents siteConfig) = true
       /\ exists pre, outcome = Throw "rejected" (logAll pre s)
                      /\ incl pre (preEvents siteConfig))
      \/ existsb fails (preEvents siteConfig) = false
         /\ exists r s1,
              (processSite_try siteConfig (logAll (preEvents siteConfig) s) = Ok r s1
               \/ exists e s0,
                    processSite_try siteConfig (logAll (preEvents siteConfig) s)
                    = Throw e s0
                    /\ r = None
                    /\ s1 = incrSiteIndex (log (EvConsoleError (name siteConfig) e) s0))
              /\ outcome =
                   if fails (EvClosePage (name siteConfig))
                   then Throw "rejected" (log (EvClosePage (name siteConfig)) s1)
                   else Ok r (log (EvClosePage (name siteConfig)) s1)
  end.
Proof.
  unfold Backend.processSite, setupSiteSpecificResourceBlocking, preEvents.
  unfold_M. unfold Backend.ext at 1 2.
  destruct (fails (EvNewPage _ _)) eqn:H1.
  { left. split; [cbn; rewrite H1; reflexivity|].
    exists [EvNewPage (name siteConfig) (useProxies siteConfig)].
    split; [reflexivity|]. intros ev [<-|[]]. left; reflexivity. }
  destruct (fails (EvPageRoute _)) eqn:H2.
  { left. split; [cbn; rewrite H1, H2; reflexivity|].
    exists [EvNewPage (name siteConfig) (useProxies siteConfig);
            EvPageRoute (name siteConfig)].
    split; [rewrite <- log2; reflexivity|].
    intros ev [<-|[<-|[]]]; cbn; auto. }
  destruct (useProxies siteConfig && negb (String.eqb (name siteConfig) "bca")) eqn:Hp.
  - unfold Backend.ext at 1. destruct (fails (EvContextRoute _)) eqn:H3.
    { left. split; [cbn; rewrite H1, H2, H3; reflexivity|].
      exists ([EvNewPage (name siteConfig) (useProxies siteConfig);
               EvPageRoute (name siteConfig)] ++ [EvContextRoute (name siteConfig)]).
      split; [rewrite <- log3; reflexivity|]. apply incl_refl. }
    rewrite log3. unfold tryFinally, tryCatch.
    destruct (Backend.processSite_try _ _ _ _ _ _ _) as [r s1|e s1|] eqn:Htry;
      [| |exact I]; cbn; unfold Backend.ext;
      destruct (fails (EvClosePage _)) eqn:Hc; right;
      (split; [rewrite H1, H2, H3; reflexivity|]);
      eexists; eexists; (split; [|reflexivity]); eauto 10.
  - rewrite log2. unfold tryFinally, tryCatch.
    destruct (Backend.processSite_try _ _ _ _ _ _ _) as [r s1|e s1|] eqn:Htry;
      [| |exact I]; cbn; unfold Backend.ext;
      destruct (fails (EvClosePage _)) eqn:Hc; right;
      (split; [rewrite H1, H2; reflexivity|]);
      eexists; eexists; (split; [|rewrite ?app_nil_r; reflexivity]);
      rewrite ?app_nil_r; eauto 10.
Qed.

(** What the [try] block does to the log and to [currentSiteIndex]. *)
Lemma try_trace siteConfig s :
  match processSite_try siteConfig s with
  | Ok r s1 =>
      currentSiteIndex s1 = Datatypes.S (currentSiteIndex s)
      /\ tryAdded fails (length siteConfigs) s s1 (reportOf onProgress r)
  | Throw e s1 =>
      currentSiteIndex s1 = currentSiteIndex s
      /\ tryAdded fails (length siteConfigs) s s1 []
  | Diverge => True
  end.
Proof.
  unfold Backend.processSite_try, tryAdded, callbackReturns, totalSites.
  unfold_M. unfold Backend.ext, onPage.
  repeat (case_match; try discriminate; simplify_eq; try exact I).
  all: (split; [reflexivity|]).
  all: eexists; split;
    [cbn; rewrite <- ?app_assoc; cbn;
     first [reflexivity | symmetry; apply app_nil_r]|].
  all: split; [repeat constructor|].
  all: split; [repeat constructor|].
  all: intros Hcb; cbn; rewrite ?app_nil_r; try reflexivity.
  all: match goal with
       | H : fails (EvProgress _ _ _ _) = true |- _ => rewrite Hcb in H; discriminate
       end.
Qed.

Lemma preEvents_setup siteConfig :
  Forall (fun ev => isSetup ev = true) (preEvents siteConfig).
Proof. unfold preEvents. destruct (_ && _); repeat constructor. Qed.

Lemma incl_Forall_setup siteConfig pre :
  incl pre (preEvents siteConfig) -> Forall (fun ev => isSetup ev = true) pre.
Proof.
  intros Hincl. apply List.Forall_forall. intros ev Hin.
  pose proof (preEvents_setup siteConfig) as H.
  rewrite List.Forall_forall in H. apply H, Hincl, Hin.
Qed.

Lemma filter_none {A} (p : A -> bool) (l : list A) :
  Forall (fun x => p x = false) l -> List.filter p l = [].
Proof. induction 1 as [|x l Hx _ IH]; cbn; [reflexivity|]. rewrite Hx. exact IH. Qed.

Lemma reportedBy_app l1 l2 : reportedBy (l1 ++ l2) = reportedBy l1 ++ reportedBy l2.
Proof. unfold reportedBy. apply flat_map_app. Qed.

Lemma reportedBy_quiet l :
  Forall (fun ev => isProgress ev = false) l -> reportedBy l = [].
Proof.
  induction 1 as [|ev l Hev _ IH]; cbn; [reflexivity|].
  destruct ev; try discriminate; exact IH.
Qed.

(** What the calls of a list of set-up calls, or of the [catch] and the
    [finally], are not. *)
Lemma other_events l :
  Forall (fun ev => isSetup ev = true
                    \/ match ev with
                       | EvConsoleError _ _ | EvClosePage _ => True
                       | _ => False
                       end) l ->
  Forall (fun ev => isInstanceEvent ev = false) l
  /\ (forall t c, Forall (progressAt t c) l)
  /\ reportedBy l = [].
Proof.
  induction 1 as [|ev l Hev _ (IH1 & IH2 & IH3)]; [repeat split; constructor|].
  destruct ev; cbn in Hev; destruct Hev as [Hev|Hev]; try discriminate Hev;
    try contradiction; (split; [constructor; [reflexivity|assumption]|]);
    (split; [intros t c; constructor; [exact I|apply IH2]|exact IH3]).
Qed.

Lemma site_events l :
  Forall (fun ev => isSiteCall ev = true) l ->
  Forall (fun ev => isInstanceEvent ev = false) l
  /\ forall site, List.filter (isClosePage site) l = [].
Proof.
  induction 1 as [|ev l Hev _ (IH1 & IH2)]; [split; [constructor|reflexivity]|].
  destruct ev; try discriminate Hev;
    (split; [constructor; [reflexivity|assumption]|intros n; cbn; apply IH2]).
Qed.

Lemma setup_not_close site l :
  Forall (fun ev => isSetup ev = true) l -> List.filter (isClosePage site) l = [].
Proof.
  intros H. apply filter_none. eapply List.Forall_impl; [|exact H].
  intros ev Hev. destruct ev; try discriminate Hev; reflexivity.
Qed.

(** What a job does to the log and to [currentSiteIndex]. *)
Lemma processSite_trace siteConfig s :
  match processSite siteConfig s with
  | Ok r s' =>
      currentSiteIndex s' = Datatypes.S (currentSiteIndex s)
      /\ jobAdded fails (length siteConfigs) siteConfig s s'
           (Some (reportOf onProgress r))
  | Throw e s' => jobAdded fails (length siteConfigs) siteConfig s s' None
  | Diverge => True
  end.
Proof.
  pose proof (processSite_settled siteConfig s) as Hs.
  pose proof (try_trace siteConfig (logAll (preEvents siteConfig) s)) as Ht.
  pose proof (preEvents_setup siteConfig) as Hpre.
  assert (Hjob : forall r s1 cars tail,
             currentSiteIndex s1 = Datatypes.S (currentSiteIndex s) ->
             existsb fails (preEvents siteConfig) = false ->
             tryAdded fails (length siteConfigs) (logAll (preEvents siteConfig) s) r cars ->
             events s1 = events r ++ tail ++ [EvClosePage (name siteConfig)] ->
             (tail = [] \/ exists e, tail = [EvConsoleError (name siteConfig) e]) ->
             jobAdded fails (length siteConfigs) siteConfig s s1 (Some cars)).
  { intros r s1 cars tail _ Hex (added & Hadd & Hsite & Hprog & Hrep) Hev Htail.
    exists (preEvents siteConfig ++ added ++ tail ++ [EvClosePage (name siteConfig)]).
    destruct (site_events _ Hsite) as [Hinst Hnc].
    assert (Hother : Forall (fun ev => isInstanceEvent ev = false)
                       (tail ++ [EvClosePage (name siteConfig)])
                     /\ (forall t c, Forall (progressAt t c)
                                      (tail ++ [EvClosePage (name siteConfig)]))
                     /\ reportedBy (tail ++ [EvClosePage (name siteConfig)]) = []
                     /\ length (List.filter (isClosePage (name siteConfig))
                                  (tail ++ [EvClosePage (name siteConfig)])) = 1).
    { destruct Htail as [->|[e ->]]; cbn; rewrite String.eqb_refl;
        repeat split; repeat constructor. }
    destruct Hother as (Ho1 & Ho2 & Ho3 & Ho4).
    destruct (other_events (preEvents siteConfig)) as (Hp1 & Hp2 & Hp3).
    { eapply List.Forall_impl; [|exact Hpre]. intros; left; assumption. }
    split; [rewrite Hev, Hadd; cbn; rewrite <- !app_assoc; reflexivity|].
    split; [apply List.Forall_app; split;
            [assumption|apply List.Forall_app; split; assumption]|].
    split; [apply List.Forall_app; split;
            [apply Hp2|apply List.Forall_app; split; [exact Hprog|apply Ho2]]|].
    split.
    - rewrite Hex, (List.filter_app _ (preEvents siteConfig)),
        (List.filter_app _ added), !length_app, Hnc,
        (setup_not_close _ _ Hpre), Ho4. reflexivity.
    - intros Hcb d [= <-].
      rewrite (reportedBy_app (preEvents siteConfig)), (reportedBy_app added),
        Hp3, Ho3, (Hrep Hcb), app_nil_r.
      reflexivity. }
  destruct (processSite siteConfig s) as [r s'|e s'|]; [| |exact I].
  - destruct Hs as [(_ & pre & [=] & _)|(Hex & r0 & s1 & Hc & Hout)].
    destruct (fails (EvClosePage (name siteConfig))); [discriminate|].
    injection Hout as -> ->.
    destruct Hc as [Htry|(e & s0 & Htry & -> & ->)]; rewrite Htry in Ht;
      destruct Ht as [Hidx Hadd].
    + split; [cbn; rewrite Hidx; reflexivity|].
      eapply (Hjob s1 _ _ []); [cbn; rewrite Hidx; reflexivity|assumption|exact Hadd| |auto].
      reflexivity.
    + split; [cbn; rewrite Hidx; reflexivity|].
      eapply (Hjob s0 _ _ [EvConsoleError (name siteConfig) e]);
        [cbn; rewrite Hidx; reflexivity|assumption|exact Hadd| |eauto].
      cbn. rewrite <- app_assoc. reflexivity.
  - destruct Hs as [(Hex & pre & [= -> ->] & Hincl)|(Hex & r0 & s1 & Hc & Hout)].
    + exists pre. pose proof (incl_Forall_setup _ _ Hincl) as Hset.
      destruct (other_events pre) as (Hp1 & Hp2 & Hp3).
      { eapply List.Forall_impl; [|exact Hset]. intros; left; assumption. }
      split; [reflexivity|]. split; [assumption|]. split; [apply Hp2|].
      split; [rewrite Hex, (setup_not_close _ _ Hset); reflexivity|].
      intros _ d [=].
    + destruct (fails (EvClosePage (name siteConfig))); [|discriminate].
      injection Hout as -> ->.
      destruct Hc as [Htry|(e0 & s0 & Htry & -> & ->)]; rewrite Htry in Ht;
        destruct Ht as [Hidx Hadd].
      * destruct (Hjob s1 (log (EvClosePage (name siteConfig)) s1) _ []
                    ltac:(cbn; rewrite Hidx; reflexivity) Hex Hadd eq_refl
                    ltac:(auto))
          as (added & H1 & H2 & H3 & H4 & _).
        exists added. repeat split; try assumption. intros _ d [=].
      * destruct (Hjob s0 (log (EvClosePage (name siteConfig))
                             (incrSiteIndex (log (EvConsoleError (name siteConfig) e0) s0)))
                    _ [EvConsoleError (name siteConfig) e0]
                    ltac:(cbn; rewrite Hidx; reflexivity) Hex Hadd
                    ltac:(cbn; rewrite <- app_assoc; reflexivity)
                    ltac:(eauto))
          as (added & H1 & H2 & H3 & H4 & _).
        exists added. repeat split; try assumption. intros _ d [=].
Qed.

Lemma progressBetween_weaken total lo hi lo' hi' evs :
  lo' <= lo -> hi <= hi' ->
  progressBetween total lo hi evs -> progressBetween total lo' hi' evs.
Proof.
  intros Hlo Hhi H. eapply List.Forall_impl; [|exact H].
  intros [] Hev; try exact I. cbn in Hev. lia.
Qed.

Lemma progressAt_between total c evs :
  Forall (progressAt total (c + 1)) evs -> progressBetween total c (c + 1) evs.
Proof.
  intros H. eapply List.Forall_impl; [|exact H].
  intros [] Hev; try exact I. cbn in Hev. lia.
Qed.

(** What the jobs of a group do when all resolve. *)
Lemma jobs_trace group : forall s results s',
  resolvesAll (map processSite group) s results s' ->
  jobsAdded fails onProgress (length siteConfigs) group s s' results.
Proof.
  induction group as [|siteConfig group IH]; intros s results s' H; cbn in H.
  - inversion H; subst. split; [cbn; lia|]. split; [reflexivity|].
    exists []. rewrite app_nil_r. repeat split; constructor.
  - inversion H as [|? ? ? r s1 rs ? Hp Hrest]; subst.
    apply IH in Hrest as (Hidx & Hlen & added2 & Hev2 & Hi2 & Hp2 & Hr2).
    pose proof (processSite_trace siteConfig s) as Hjob. rewrite Hp in Hjob.
    destruct Hjob as (Hidx1 & added1 & Hev1 & Hi1 & Hp1 & _ & Hr1).
    split; [cbn; lia|]. split; [cbn; congruence|].
    exists (added1 ++ added2).
    split; [rewrite Hev2, Hev1; symmetry; apply app_assoc|].
    split; [apply List.Forall_app; split; assumption|].
    split.
    + apply List.Forall_app; split.
      * apply progressAt_between in Hp1.
        eapply progressBetween_weaken; [| |exact Hp1]; cbn; lia.
      * eapply progressBetween_weaken; [| |exact Hp2]; cbn; lia.
    + intros Hcb. rewrite reportedBy_app, (Hr1 Hcb _ eq_refl), (Hr2 Hcb).
      reflexivity.
Qed.

Lemma closeIf_index proxied group s :
  currentSiteIndex (closeIf proxied group s) = currentSiteIndex s.
Proof. unfold closeIf. destruct (0 <? length group); reflexivity. Qed.

Lemma closeIf_events proxied group s :
  exists tail, events (closeIf proxied group s) = events s ++ tail
               /\ reportedBy tail = []
               /\ forall total lo hi, progressBetween total lo hi tail.
Proof.
  unfold closeIf. destruct (0 <? length group).
  - exists [EvClose proxied]. repeat split. repeat constructor.
  - exists []. rewrite app_nil_r. repeat split. constructor.
Qed.

Lemma groups_length :
  length (List.filter useProxies siteConfigs)
  + length (List.filter (fun config => negb (useProxies config)) siteConfigs)
  = length siteConfigs.
Proof. apply List.filter_length. Qed.

Lemma report_all results : flat_map (reportOf true) results = compileResults results.
Proof.
  induction results as [|[cars|] results IH]; cbn; [reflexivity| |assumption].
  rewrite IH. reflexivity.
Qed.

(** X1: whatever happens in a job, once its page is opened and the routes
    are set up, the page is closed exactly once, whether the job then
    resolves or rejects; a job stopped by a rejection of these first calls
    does not close any page. *)
Theorem page_closed_once_after_setup siteConfig s :
  match processSite siteConfig s with
  | Ok _ s' =>
      existsb fails (preEvents siteConfig) = false
      /\ closeCount (name siteConfig) s' = closeCount (name siteConfig) s + 1
  | Throw _ s' =>
      closeCount (name siteConfig) s' =
        closeCount (name siteConfig) s
        + (if existsb fails (preEvents siteConfig) then 0 else 1)
  | Diverge => True
  end.
Proof.
  pose proof (processSite_trace siteConfig s) as Hjob.
  pose proof (processSite_settled siteConfig s) as Hs.
  destruct (processSite siteConfig s) as [r s'|e s'|]; [| |exact I].
  - destruct Hjob as (_ & added & Hev & _ & _ & Hc & _).
    destruct Hs as [(_ & pre & [=] & _)|(Hex & _)].
    split; [assumption|].
    unfold closeCount. rewrite Hev, List.filter_app, length_app, Hc, Hex. reflexivity.
  - destruct Hjob as (added & Hev & _ & _ & Hc & _).
    unfold closeCount. rewrite Hev, List.filter_app, length_app, Hc. reflexivity.
Qed.

Lemma resolvesAll_map_In {A} (f : A -> O (option (list Car))) l : forall s vs s',
  resolvesAll (map f l) s vs s' ->
  forall x, In x l -> exists s0 v s1, f x s0 = Ok v s1.
Proof.
  induction l as [|a l IH]; intros s vs s' H x Hin; [contradiction|].
  cbn in H. inversion H as [|? ? ? v s1 rest ? Hp Hrest]; subst.
  destruct Hin as [<-|Hin]; [eauto|]. eapply IH; eassumption.
Qed.

Lemma setup_failure_rejects siteConfig s r s' :
  existsb fails (preEvents siteConfig) = true ->
  processSite siteConfig s <> Ok r s'.
Proof.
  intros Hex Hok. pose proof (processSite_settled siteConfig s) as Hs.
  rewrite Hok in Hs.
  destruct Hs as [(_ & pre & [=] & _)|(Hno & _)]. congruence.
Qed.

(** X2: the calls that open the page of a site and set up its routes stand
    before the [try] block of the job: when one of them rejects for one
    site, the job rejects, and the whole search does not resolve, whatever
    the other sites have extracted. *)
Theorem setup_failure_fails_the_whole_search siteConfig limit cars s' :
  In siteConfig siteConfigs ->
  existsb fails (preEvents siteConfig) = true ->
  scrapeAllSites fails siteCredentials searchParams onProgress siteConfigs
    limit initialOrch <> Ok cars s'.
Proof.
  intros Hin Hex H.
  apply scrapeAllSites_Ok_inv in H as (rp & rn & s1 & s2 & Hp & Hn & _).
  assert (Hjob : exists s0 v s3, processSite siteConfig s0 = Ok v s3).
  { destruct (useProxies siteConfig) eqn:Hu.
    - eapply resolvesAll_map_In; [exact Hp|]. apply List.filter_In. auto.
    - eapply resolvesAll_map_In; [exact Hn|]. apply List.filter_In.
      rewrite Hu. auto. }
  destruct Hjob as (s0 & v & s3 & Hjob).
  eapply setup_failure_rejects; eassumption.
Qed.

(** X3: a search that resolves has counted every site: [currentSiteIndex]
    ends at the number of configured sites, failed sites included. *)
Theorem every_site_counted limit cars s' :
  scrapeAllSites fails siteCredentials searchParams onProgress siteConfigs
    limit initialOrch = Ok cars s' ->
  currentSiteIndex s' = length siteConfigs.
Proof.
  intros H. apply scrapeAllSites_Ok_inv in H as (rp & rn & s1 & s2 & Hp & Hn & -> & _).
  apply jobs_trace in Hp as (Hp & _). apply jobs_trace in Hn as (Hn & _).
  rewrite closeIf_index in *. rewrite Hn, Hp. cbn. apply groups_length.
Qed.

(** The counter and the calls of [onProgress] do not see the other
    events. *)
Lemma view_logAll evs s :
  Forall (fun ev => isProgress ev = false) evs -> view (logAll evs s) = view s.
Proof.
  intros H. unfold view, logAll. cbn. rewrite List.filter_app.
  rewrite (filter_none isProgress evs H). rewrite app_nil_r. reflexivity.
Qed.

Lemma finish_logAll total e evs s :
  Forall (fun ev => isProgress ev = false) evs ->
  view (finish total e (logAll evs s)) = view (finish total e s).
Proof.
  intros H. destruct e as [site cars| |]; unfold view, finish, incrSiteIndex, log, logAll;
    cbn; rewrite ?List.filter_app, (filter_none isProgress evs H), ?app_nil_r;
    reflexivity.
Qed.

Lemma setup_quiet evs :
  Forall (fun ev => isSetup ev = true) evs ->
  Forall (fun ev => isProgress ev = false) evs.
Proof.
  apply List.Forall_impl. intros ev H. destruct ev; try discriminate; reflexivity.
Qed.

(** What the [try] block does to the counter and to the callback: when it
    resolves, and when it throws and the [catch] block has counted the
    site, the job has ended as one of the endings that count. *)
Lemma try_ending siteConfig s :
  match processSite_try siteConfig s with
  | Ok _ s1 =>
      exists e, view s1 = view (finish (length siteConfigs) e s)
  | Throw _ s1 =>
      exists e, view (incrSiteIndex s1) = view (finish (length siteConfigs) e s)
  | Diverge => True
  end.
Proof.
  unfold Backend.processSite_try, totalSites.
  unfold_M. unfold Backend.ext, onPage.
  repeat (case_match; try discriminate; simplify_eq; try exact I).
  all: first
    [ exists Counted; unfold view, finish, incrSiteIndex, log; cbn;
      rewrite ?List.filter_app; cbn; rewrite ?app_nil_r; reflexivity
    | eexists (Reported _ _); unfold view, finish, incrSiteIndex, log; cbn;
      rewrite ?List.filter_app; cbn; rewrite ?app_nil_r; reflexivity ].
Qed.

(** A job that settles has ended in one of the three ways. *)
Lemma processSite_ending siteConfig s :
  match processSite siteConfig s with
  | Ok _ s' | Throw _ s' =>
      exists e, view s' = view (finish (length siteConfigs) e s)
  | Diverge => True
  end.
Proof.
  pose proof (processSite_settled siteConfig s) as H.
  pose proof (setup_quiet _ (preEvents_setup siteConfig)) as Hpre.
  assert (Hclose : forall s1,
             view (log (EvClosePage (name siteConfig)) s1) = view s1).
  { intros s1. apply (view_logAll [EvClosePage (name siteConfig)]).
    repeat constructor. }
  assert (Hdone : forall s',
             ((existsb fails (preEvents siteConfig) = true
               /\ exists pre, s' = logAll pre s /\ incl pre (preEvents siteConfig))
              \/ exists s1, s' = log (EvClosePage (name siteConfig)) s1
                            /\ exists e, view s1
                                         = view (finish (length siteConfigs) e
                                                   (logAll (preEvents siteConfig) s))) ->
             exists e, view s' = view (finish (length siteConfigs) e s)).
  { intros s' [(_ & pre & -> & Hincl) | (s1 & -> & e & He)].
    - exists Uncounted. apply view_logAll, setup_quiet.
      eapply incl_Forall_setup; eassumption.
    - exists e. rewrite Hclose, He. apply finish_logAll. assumption. }
  pose proof (try_ending siteConfig (logAll (preEvents siteConfig) s)) as Htry.
  destruct (processSite siteConfig s) as [r s'|e s'|]; [| |exact I];
    apply Hdone;
    (destruct H as [(Hex & pre & Heq & Hincl) | (Hex & r0 & s1 & Hs1 & Heq)];
     [left; split; [assumption|]; exists pre; split; [congruence|assumption]|]);
    right; exists s1;
    (split; [destruct (fails (EvClosePage (name siteConfig))); congruence|]);
    destruct Hs1 as [Hok | (e0 & s0 & Hthrow & _ & ->)];
    [rewrite Hok in Htry | rewrite Hthrow in Htry
    |rewrite Hok in Htry | rewrite Hthrow in Htry];
    destruct Htry as [e1 He1]; exists e1;
    rewrite <- He1; try reflexivity;
    unfold view, incrSiteIndex, log; cbn; rewrite List.filter_app; cbn;
    rewrite app_nil_r; reflexivity.
Qed.

Lemma announced_finish total e s :
  announced (finish total e s)
  = announced s ++ match e with
                   | Reported _ _ => [currentSiteIndex s + 1]
                   | _ => []
                   end
  /\ totals (finish total e s)
     = totals s ++ match e with
                   | Reported _ _ => [total]
                   | _ => []
                   end
  /\ currentSiteIndex (finish total e s)
     = currentSiteIndex s + match e with
                            | Uncounted => 0
                            | _ => 1
                            end.
Proof.
  destruct e as [site cars| |]; unfold announced, totals, finish, incrSiteIndex, log;
    cbn; rewrite ?flat_map_app, ?app_nil_r; cbn; repeat split; lia.
Qed.

Lemma sorted_snoc l x :
  StronglySorted lt l -> Forall (fun c => c < x) l -> StronglySorted lt (l ++ [x]).
Proof.
  induction 1 as [|c l Hs IH Hall]; intros Hx; cbn.
  - repeat constructor.
  - inversion Hx; subst. constructor; [apply IH; assumption|].
    apply List.Forall_app. split; [assumption|]. constructor; [assumption|constructor].
Qed.

(** The announcements in a state reached by endings: made with [total],
    between 1 and the counter, and increasing. *)
Lemma finishAll_announced total endings : forall s,
  Forall (fun t => t = total) (totals s) ->
  Forall (fun c => 1 <= c <= currentSiteIndex s) (announced s) ->
  StronglySorted lt (announced s) ->
  let s' := finishAll total endings s in
  Forall (fun t => t = total) (totals s')
  /\ Forall (fun c => 1 <= c <= currentSiteIndex s') (announced s')
  /\ StronglySorted lt (announced s')
  /\ currentSiteIndex s' <= currentSiteIndex s + length endings.
Proof.
  induction endings as [|e endings IH]; intros s Ht Hc Hs; cbn zeta.
  - cbn. repeat split; try assumption. lia.
  - unfold finishAll. cbn [fold_left]. fold (finishAll total endings (finish total e s)).
    destruct (announced_finish total e s) as (Ea & Et & Ei).
    destruct (IH (finish total e s)) as (H1 & H2 & H3 & H4).
    + rewrite Et. apply List.Forall_app. split; [assumption|].
      destruct e; repeat constructor.
    + rewrite Ea, Ei. apply List.Forall_app. split.
      * eapply List.Forall_impl; [|exact Hc]. cbn. intros c Hc'. lia.
      * destruct e; repeat constructor; lia.
    + rewrite Ea. destruct e; rewrite ?app_nil_r; try assumption.
      apply sorted_snoc; [assumption|].
      eapply List.Forall_impl; [|exact Hc]. cbn. intros c Hc'. lia.
    + repeat split; try assumption. rewrite Ei in H4. cbn [length]. destruct e; lia.
Qed.

(** An ending sees of the state what [view] shows, and no more. *)
Lemma view_finish total e s t :
  view s = view t -> view (finish total e s) = view (finish total e t).
Proof.
  unfold view. intros H. injection H as Hi Hf.
  destruct e as [site cars| |]; unfold finish, incrSiteIndex, log; cbn;
    rewrite ?List.filter_app, ?Hi, ?Hf; reflexivity.
Qed.

Lemma view_finishAll total endings : forall s t,
  view s = view t -> view (finishAll total endings s) = view (finishAll total endings t).
Proof.
  induction endings as [|e endings IH]; intros s t H; [exact H|].
  apply (IH (finish total e s) (finish total e t)), view_finish, H.
Qed.

Lemma finishAll_app total endings1 endings2 s :
  finishAll total (endings1 ++ endings2) s
  = finishAll total endings2 (finishAll total endings1 s).
Proof. apply fold_left_app. Qed.

Lemma view_closeIf proxied group s : view (closeIf proxied group s) = view s.
Proof.
  unfold closeIf. destruct (0 <? length group); [|reflexivity].
  apply (view_logAll [EvClose proxied]). repeat constructor.
Qed.

(** The jobs of a group, run one after the other: they end one after the
    other. *)
Lemma jobs_endings group : forall s results s',
  resolvesAll (map processSite group) s results s' ->
  exists endings,
    length endings = length group
    /\ view s' = view (finishAll (length siteConfigs) endings s).
Proof.
  induction group as [|siteConfig group IH]; intros s results s' H; cbn in H.
  - inversion H; subst. exists []. split; reflexivity.
  - inversion H as [|? ? ? r s1 rs ? Hp Hrest]; subst.
    pose proof (processSite_ending siteConfig s) as He. rewrite Hp in He.
    destruct He as [e He].
    destruct (IH _ _ _ Hrest) as (endings & Hlen & Hview).
    exists (e :: endings). split; [cbn; congruence|].
    rewrite Hview. unfold finishAll at 2. cbn [fold_left].
    apply view_finishAll. exact He.
Qed.

(** X4: a job that settles has changed [currentSiteIndex] and called
    [onProgress] in one of three ways: a call and a count, a count, or
    neither; a search that resolves has seen its jobs end, one per site;
    and in whatever order the jobs of a search end, one job per site at
    most, every call of [onProgress] announces the number of configured
    sites as the total and a current site between 1 and this total, and
    the current sites announced increase from call to call. *)
Theorem progress_within_total_in_any_order :
  (forall siteConfig s,
      match processSite siteConfig s with
      | Ok _ s' | Throw _ s' =>
          exists e, view s' = view (finish (length siteConfigs) e s)
      | Diverge => True
      end)
  /\ (forall limit cars s',
        scrapeAllSites fails siteCredentials searchParams onProgress siteConfigs
          limit initialOrch = Ok cars s' ->
        exists endings,
          length endings = length siteConfigs
          /\ view s' = view (finishAll (length siteConfigs) endings initialOrch))
  /\ forall endings,
       length endings <= length siteConfigs ->
       let s' := finishAll (length siteConfigs) endings initialOrch in
       Forall (fun t => t = length siteConfigs) (totals s')
       /\ Forall (fun c => 1 <= c <= length siteConfigs) (announced s')
       /\ StronglySorted lt (announced s').
Proof.
  split; [exact processSite_ending|]. split.
  - intros limit cars s' H.
    apply scrapeAllSites_Ok_inv in H as (rp & rn & s1 & s2 & Hp & Hn & -> & _).
    apply jobs_endings in Hp as (ep & Hlp & Hvp).
    apply jobs_endings in Hn as (en & Hln & Hvn).
    exists (ep ++ en). split.
    + rewrite length_app, Hlp, Hln. apply groups_length.
    + rewrite view_closeIf, Hvn, finishAll_app. apply view_finishAll.
      rewrite view_closeIf, Hvp. apply view_finishAll. reflexivity.
  - intros endings Hlen. cbn zeta.
    destruct (finishAll_announced (length siteConfigs) endings initialOrch
                (List.Forall_nil _) (List.Forall_nil _) (SSorted_nil _))
      as (H1 & H2 & H3 & H4).
    cbn in H4. split; [assumption|]. split; [|assumption].
    eapply List.Forall_impl; [|exact H2]. cbn. intros c Hc. lia.
Qed.

Lemma processSite_keeps_instances proxied n siteConfig :
  keeps (fun st => instanceCloseCount proxied st = n) (processSite siteConfig).
Proof.
  intros s Hs. pose proof (processSite_trace siteConfig s) as Hjob.
  assert (Hadd : forall added s', events s' = events s ++ added ->
                   Forall (fun ev => isInstanceEvent ev = false) added ->
                   instanceCloseCount proxied s' = n).
  { intros added s' Hev Hi. unfold instanceCloseCount in *.
    rewrite Hev, List.filter_app, length_app, Hs.
    rewrite (filter_none (isClose proxied) added); [cbn; lia|].
    eapply List.Forall_impl; [|exact Hi].
    intros ev Hev'. destruct ev; try discriminate Hev'; reflexivity. }
  destruct (processSite siteConfig s) as [r s'|e s'|]; [| |exact I].
  - destruct Hjob as (_ & added & Hev & Hi & _). eapply Hadd; eassumption.
  - destruct Hjob as (added & Hev & Hi & _). eapply Hadd; eassumption.
Qed.

Lemma batchSize_positive limit (group : list SiteConfig) :
  0 < length group -> 1 <= Nat.min (concurrencyLimit limit) (length group).
Proof.
  intros H. unfold concurrencyLimit. destruct (Nat.eqb_spec limit 0); lia.
Qed.

Lemma runGroup_resolves limit proxied group s results s1 :
  fails (EvClose proxied) = false ->
  resolvesAll (map processSite group) s results s1 ->
  runGroup fails siteCredentials searchParams onProgress siteConfigs limit
    proxied group s = Ok results (closeIf proxied group s1).
Proof.
  intros Hc Hr. unfold runGroup, closeIf.
  destruct (0 <? length group) eqn:Hn.
  - apply Nat.ltb_lt in Hn. unfold_M. unfold runInBatches.
    assert (Hfuel : length (map processSite group) - 0
                    < Datatypes.S (length (map processSite group))) by lia.
    match goal with
    | |- match ?x with _ => _ end = _ =>
        assert (Hx : x = Ok results s1)
          by exact (loop_resolves (map processSite group)
                      (Nat.min (concurrencyLimit limit) (length group))
                      (batchSize_positive limit group Hn)
                      (Datatypes.S (length (map processSite group))) 0 [] s results s1
                      Hfuel Hr);
        rewrite Hx
    end.
    cbn. unfold Backend.ext. rewrite Hc. reflexivity.
  - apply Nat.ltb_ge in Hn. destruct group; [|cbn in Hn; lia].
    inversion Hr; subst. reflexivity.
Qed.

(** X6: when one of the two Stagehand instances does not start, the search
    rejects after both [init()] calls: no page is opened, and [close()] is
    called on neither instance, the one that started included. *)
Theorem failed_start_opens_no_page limit :
  fails (EvInit true) = true \/ fails (EvInit false) = true ->
  scrapeAllSites fails siteCredentials searchParams onProgress siteConfigs
    limit initialOrch = Throw "rejected" afterInit.
Proof.
  intros H. unfold scrapeAllSites. unfold_M. cbn [promiseAll]. unfold Backend.ext.
  destruct (fails (EvInit true)), (fails (EvInit false));
    try reflexivity. destruct H; discriminate.
Qed.

(** X7: when the jobs of a group make [runInBatches] reject, [close()] is
    not called on the Stagehand instance of the group: the call comes after
    the batches, in a [then], and no job makes it. *)
Theorem rejected_group_keeps_instance_open limit proxied group s e s' :
  fails (EvClose proxied) = false ->
  runGroup fails siteCredentials searchParams onProgress siteConfigs limit
    proxied group s = Throw e s' ->
  instanceCloseCount proxied s' = instanceCloseCount proxied s.
Proof.
  intros Hc. unfold runGroup. destruct (0 <? length group); [|discriminate].
  unfold_M. unfold runInBatches.
  pose proof (loop_keeps (fun st => instanceCloseCount proxied st
                                    = instanceCloseCount proxied s)
                (map processSite group)
                (Nat.min (concurrencyLimit limit) (length group))) as Hk.
  specialize (Hk ltac:(apply List.Forall_forall; intros p Hin;
                       apply in_map_iff in Hin as (c & <- & _);
                       apply processSite_keeps_instances)
                (Datatypes.S (length (map processSite group))) 0 [] s eq_refl).
  destruct (runInBatches_loop _ _ _ _ _ s) as [rs s1|e1 s1|]; [| |discriminate].
  - cbn. unfold Backend.ext. rewrite Hc. discriminate.
  - intros [= <- <-]. exact Hk.
Qed.

(** X10: when both instances start and close, and the jobs of the
    proxy-enabled sites, then those of the other sites, all resolve, the
    search resolves, for every [CONCURRENCY_LIMIT] that is a whole number,
    zero or more (zero stands for a variable that is unset or not a number,
    and gives a limit of 5); it returns the cars of the proxy-enabled
    sites first, then those of the other sites, each group in the order of
    the configuration. *)
Theorem search_returns_groups_in_order limit rp rn s1 s2 :
  (forall g, fails (EvInit g) = false) ->
  (forall g, fails (EvClose g) = false) ->
  resolvesAll (map processSite (List.filter useProxies siteConfigs)) afterInit rp s1 ->
  resolvesAll
    (map processSite (List.filter (fun config => negb (useProxies config)) siteConfigs))
    (closeIf true (List.filter useProxies siteConfigs) s1) rn s2 ->
  scrapeAllSites fails siteCredentials searchParams onProgress siteConfigs
    limit initialOrch
  = Ok (compileResults rp ++ compileResults rn)
       (closeIf false
          (List.filter (fun config => negb (useProxies config)) siteConfigs) s2).
Proof.
  intros Hi Hc Hp Hn. unfold scrapeAllSites. unfold_M. cbn [promiseAll].
  unfold Backend.ext. rewrite !Hi. cbn.
  change (log (EvInit false) (log (EvInit true) initialOrch)) with afterInit.
  rewrite (runGroup_resolves limit true _ _ _ _ (Hc true) Hp).
  rewrite (runGroup_resolves limit false _ _ _ _ (Hc false) Hn).
  cbn [List.concat]. rewrite app_nil_r, compileResults_app. reflexivity.
Qed.

End WithRun.

(** X5: with a callback that does not throw, the cars a search returns
    are the cars its [onProgress] calls have reported: none is returned
    without having been reported, none reported is missing. *)
Theorem returned_cars_were_reported fails siteCredentials searchParams siteConfigs
    limit cars s' :
  callbackReturns fails ->
  scrapeAllSites fails siteCredentials searchParams true siteConfigs
    limit initialOrch = Ok cars s' ->
  cars ≡ₚ reported s'.
Proof.
  intros Hcb H.
  apply scrapeAllSites_Ok_inv in H as (rp & rn & s1 & s2 & Hp & Hn & -> & ->).
  apply jobs_trace in Hp as (_ & _ & addedp & Hevp & _ & _ & Hrp).
  apply jobs_trace in Hn as (_ & _ & addedn & Hevn & _ & _ & Hrn).
  destruct (closeIf_events true (List.filter useProxies siteConfigs) s1)
    as (tail1 & Ht1 & Hq1 & _).
  destruct (closeIf_events false
              (List.filter (fun config => negb (useProxies config)) siteConfigs) s2)
    as (tail2 & Ht2 & Hq2 & _).
  unfold reported. rewrite Ht2, Hevn, Ht1, Hevp.
  rewrite !reportedBy_app, Hq1, Hq2, (Hrp Hcb), (Hrn Hcb), !report_all.
  cbn. rewrite !app_nil_r, compileResults_app. reflexivity.
Qed.

Lemma setup_failure_fails_the_whole_search_witness :
  In dnConfig bothConfigs
  /\ existsb routeFails (preEvents dnConfig) = true
  /\ forall cars s',
       scrapeAllSites routeFails bothCredentials noParams true bothConfigs 0
         initialOrch <> Ok cars s'.
Proof.
  assert (Hin : In dnConfig bothConfigs) by (left; reflexivity).
  assert (Hex : existsb routeFails (preEvents dnConfig) = true) by reflexivity.
  split; [exact Hin|]. split; [exact Hex|]. intros cars s'.
  exact (setup_failure_fails_the_whole_search routeFails bothCredentials noParams true
           bothConfigs dnConfig 0 cars s' Hin Hex).
Defined.

Lemma every_site_counted_witness :
  exists cars s',
    searchBoth noParams = Ok cars s' /\ currentSiteIndex s' = length bothConfigs.
Proof.
  eexists. eexists. split; [vm_compute; reflexivity|].
  eapply (every_site_counted noFailures bothCredentials noParams true bothConfigs 0).
  vm_compute. reflexivity.
Defined.

Lemma progress_within_total_in_any_order_witness :
  length [Counted; Counted; Reported "disposalnetwork" []; Reported "bca" []]
  <= length SiteTable.standInTable
  /\ announced
       (finishAll 4 [Counted; Counted; Reported "disposalnetwork" []; Reported "bca" []]
          initialOrch) = [3; 4]
  /\ Forall (fun c => 1 <= c <= 4)
       (announced
          (finishAll 4
             [Counted; Counted; Reported "disposalnetwork" []; Reported "bca" []]
             initialOrch)).
Proof.
  assert (H : length [Counted; Counted; Reported "disposalnetwork" [];
                      Reported "bca" []]
              <= length SiteTable.standInTable) by (cbn; lia).
  split; [exact H|]. split; [reflexivity|].
  exact (proj1 (proj2 (proj2 (proj2 (progress_within_total_in_any_order noFailures
                                       (SiteTable.credentialsWith SiteTable.buyer)
                                       noParams true SiteTable.standInTable)) _ H))).
Defined.

Lemma returned_cars_were_reported_witness :
  callbackReturns noFailures
  /\ exists cars s', searchBoth noParams = Ok cars s' /\ cars ≡ₚ reported s'.
Proof.
  split; [intros site cars total current; reflexivity|].
  eexists. eexists. split; [vm_compute; reflexivity|].
  apply (returned_cars_were_reported noFailures bothCredentials noParams bothConfigs 0);
    [intros site cars total current; reflexivity|].
  vm_compute. reflexivity.
Defined.

Lemma failed_start_opens_no_page_witness :
  (proxyInitFails (EvInit true) = true \/ proxyInitFails (EvInit false) = true)
  /\ scrapeAllSites proxyInitFails bothCredentials noParams true bothConfigs 0
       initialOrch = Throw "rejected" afterInit.
Proof.
  split; [left; reflexivity|].
  exact (failed_start_opens_no_page proxyInitFails bothCredentials noParams true
           bothConfigs 0 (or_introl eq_refl)).
Defined.

Lemma rejected_group_keeps_instance_open_witness :
  routeFails (EvClose false) = false
  /\ exists e s',
       runGroup routeFails bothCredentials noParams true bothConfigs 0 false
         bothConfigs afterInit = Throw e s'
       /\ instanceCloseCount false s' = instanceCloseCount false afterInit.
Proof.
  split; [reflexivity|]. eexists. eexists. split; [vm_compute; reflexivity|].
  apply (rejected_group_keeps_instance_open routeFails bothCredentials noParams true
           bothConfigs 0 false bothConfigs afterInit "rejected");
    [reflexivity|vm_compute; reflexivity].
Defined.

Lemma rejected_batch_stops_the_loop_witness :
  1 <= 2
  /\ resolvesAll (slice 0 (0 * 2) secondRejects) 0 [] 0
  /\ promiseAll (slice (0 * 2) (0 * 2 + 2) secondRejects) 0 = Throw "boom" 2
  /\ runInBatches secondRejects 2 0 = Throw "boom" 2.
Proof.
  assert (H1 : resolvesAll (slice 0 (0 * 2) secondRejects) 0 [] 0) by constructor.
  split; [lia|]. split; [exact H1|]. split; [reflexivity|].
  exact (rejected_batch_stops_the_loop secondRejects 2 0 0 [] 0 "boom" 2
           ltac:(lia) H1 eq_refl).
Defined.

Lemma zero_batch_size_never_returns_witness :
  0 < length countingTasks
  /\ runInBatches countingTasks 0 0 = Diverge.
Proof.
  assert (H : 0 < length countingTasks) by (cbn; lia).
  split; [exact H|].
  exact (zero_batch_size_never_returns countingTasks _ 0 [] 0 H).
Defined.

Lemma search_returns_groups_in_order_witness :
  (forall g, noFailures (EvInit g) = false)
  /\ (forall g, noFailures (EvClose g) = false)
  /\ exists rp rn s1 s2,
       resolvesAll
         (map (processSite noFailures (SiteTable.credentialsWith SiteTable.buyer)
                 noParams true SiteTable.standInTable)
            (List.filter useProxies SiteTable.standInTable)) afterInit rp s1
       /\ resolvesAll
            (map (processSite noFailures (SiteTable.credentialsWith SiteTable.buyer)
                    noParams true SiteTable.standInTable)
               (List.filter (fun config => negb (useProxies config))
                  SiteTable.standInTable))
            (closeIf true (List.filter useProxies SiteTable.standInTable) s1) rn s2
       /\ length rp = 1 /\ length rn = 3
       /\ scrapeAllSites noFailures (SiteTable.credentialsWith SiteTable.buyer)
            noParams true SiteTable.standInTable 3 initialOrch
          = Ok (compileResults rp ++ compileResults rn)
               (closeIf false
                  (List.filter (fun config => negb (useProxies config))
                     SiteTable.standInTable) s2).
Proof.
  split; [reflexivity|]. split; [reflexivity|].
  eexists. eexists. eexists. eexists.
  assert (H : forall rp rn s1 s2,
             resolvesAll
               (map (processSite noFailures
                       (SiteTable.credentialsWith SiteTable.buyer)
                       noParams true SiteTable.standInTable)
                  (List.filter useProxies SiteTable.standInTable)) afterInit rp s1 ->
             resolvesAll
               (map (processSite noFailures
                       (SiteTable.credentialsWith SiteTable.buyer)
                       noParams true SiteTable.standInTable)
                  (List.filter (fun config => negb (useProxies config))
                     SiteTable.standInTable))
               (closeIf true (List.filter useProxies SiteTable.standInTable) s1)
               rn s2 ->
             scrapeAllSites noFailures (SiteTable.credentialsWith SiteTable.buyer)
               noParams true SiteTable.standInTable 3 initialOrch
             = Ok (compileResults rp ++ compileResults rn)
                  (closeIf false
                     (List.filter (fun config => negb (useProxies config))
                        SiteTable.standInTable) s2)).
  { intros rp rn s1 s2 Hp Hn.
    exact (search_returns_groups_in_order noFailures
             (SiteTable.credentialsWith SiteTable.buyer) noParams true
             SiteTable.standInTable 3 rp rn s1 s2 (fun _ => eq_refl)
             (fun _ => eq_refl) Hp Hn). }
  split; [|split; [|split; [|split; [|eapply H]]]].
  1, 2: apply promiseAll_Ok_inv; vm_compute; reflexivity.
  1, 2: reflexivity.
  all: apply promiseAll_Ok_inv; vm_compute; reflexivity.
Defined.

End BackendMore.

(** ** The route handler *)

Module ResourceBlockingProps.
Import ResourceBlocking.

Lemma lower_idem c : lower (lower c) = lower c.
Proof.
  destruct c as [[] [] [] [] [] [] [] []]; reflexivity.
Qed.

Lemma toLowerCase_app a b : toLowerCase (a +:+ b) = toLowerCase a +:+ toLowerCase b.
Proof.
  induction a as [|c a IH]; [reflexivity|].
  change (String (lower c) (toLowerCase (a +:+ b))
          = String (lower c) (toLowerCase a +:+ toLowerCase b)).
  rewrite IH. reflexivity.
Qed.

Lemma toLowerCase_idem s : toLowerCase (toLowerCase s) = toLowerCase s.
Proof. induction s as [|c s IH]; cbn; [reflexivity|]. rewrite lower_idem, IH. reflexivity. Qed.

Lemma prefixb_app p s : prefixb p (p +:+ s) = true.
Proof.
  induction p as [|c p IH]; [destruct s; reflexivity|].
  change (Ascii.eqb c c && prefixb p (p +:+ s) = true).
  rewrite Ascii.eqb_refl, IH. reflexivity.
Qed.

Lemma includes_app before p after : includes (before +:+ p +:+ after) p = true.
Proof.
  induction before as [|c before IH].
  - change (includes (p +:+ after) p = true).
    destruct (p +:+ after) eqn:E; cbn; rewrite <- E, prefixb_app; reflexivity.
  - change (includes (String c (before +:+ p +:+ after)) p = true).
    cbn [includes]. rewrite IH. apply orb_true_r.
Qed.

(** X11: the handler of a proxy site aborts what the handler of another
    site aborts, and besides only the style sheets: the requests of the
    resource type [stylesheet] and those whose URL contains one of the five
    style extensions. *)
Theorem proxy_blocking_adds_style_sheets resourceType url :
  routeHandler true resourceType url =
    if String.eqb resourceType "stylesheet"
       || existsb (fun ext => includes (toLowerCase url) ext)
            [".css"; ".scss"; ".sass"; ".less"; ".styl"]
    then Abort
    else routeHandler false resourceType url.
Proof.
  unfold routeHandler, blockedTypes, blockedExtensions.
  rewrite !existsb_app.
  change (existsb (String.eqb resourceType) ["stylesheet"])
    with (String.eqb resourceType "stylesheet" || false).
  change (existsb (String.eqb resourceType) []) with false.
  change (existsb (fun ext => includes (toLowerCase url) ext) []) with false.
  rewrite !orb_false_r.
  repeat match goal with
         | |- context [existsb ?f ?l] =>
             let b := fresh "b" in generalize (existsb f l); intros b
         end.
  destruct (String.eqb resourceType "stylesheet");
    repeat match goal with
           | b : bool |- _ => destruct b
           end; reflexivity.
Qed.

(** X12: a request whose URL contains a blocked extension anywhere, in
    whatever case, is aborted whatever its resource type: a document or an
    API call as well as an image. *)
Theorem blocked_extension_anywhere_aborts isProxySite resourceType before ext after :
  In (toLowerCase ext) (blockedExtensions isProxySite) ->
  routeHandler isProxySite resourceType (before +:+ ext +:+ after) = Abort.
Proof.
  intros Hin. unfold routeHandler.
  destruct (existsb (String.eqb resourceType) _); [reflexivity|].
  destruct (existsb (fun domain => includes _ domain) _); [reflexivity|].
  assert (H : existsb (fun e => includes (toLowerCase (before +:+ ext +:+ after)) e)
                (blockedExtensions isProxySite) = true).
  { apply existsb_exists. exists (toLowerCase ext). split; [assumption|].
    rewrite !toLowerCase_app. apply includes_app. }
  rewrite H. reflexivity.
Qed.

Lemma blocked_extension_anywhere_aborts_witness :
  In (toLowerCase ".PNG") (blockedExtensions false)
  /\ routeHandler false "xhr"
       ("https://api.example.com/search?thumb=a" +:+ ".PNG" +:+ "&page=2") = Abort.
Proof.
  assert (H : In (toLowerCase ".PNG") (blockedExtensions false)) by (cbn; auto).
  split; [exact H|].
  exact (blocked_extension_anywhere_aborts false "xhr"
           "https://api.example.com/search?thumb=a" ".PNG" "&page=2" H).
Defined.

End ResourceBlockingProps.

(** ** The search request *)

Module SearchRequestProps.
Import SearchRequest Inputs3.

Lemma equals_true o v : equals o v = true -> o = Some v.
Proof.
  destruct o as [s|]; cbn; [|discriminate].
  intros H. apply String.eqb_eq in H. congruence.
Qed.

Lemma equals_false o v : equals o v = false -> o <> Some v.
Proof.
  destruct o as [s|]; cbn; [|discriminate].
  intros H [= ->]. rewrite String.eqb_refl in H. discriminate.
Qed.

Lemma not_blank s : blank (Some s) = false -> trim s <> "".
Proof.
  unfold blank. cbn. intros H. apply orb_false_elim in H as [_ H].
  apply String.eqb_neq in H. exact H.
Qed.

Lemma when_make c f r :
  (forall r', apiMake (f r') = apiMake r') -> apiMake (when c f r) = apiMake r.
Proof. intros H. unfold when. destruct c; [apply H|reflexivity]. Qed.

Lemma when_model c f r :
  (forall r', apiModel (f r') = apiModel r') -> apiModel (when c f r) = apiModel r.
Proof. intros H. unfold when. destruct c; [apply H|reflexivity]. Qed.

Lemma when_minAge c f r :
  (forall r', apiMinAge (f r') = apiMinAge r') -> apiMinAge (when c f r) = apiMinAge r.
Proof. intros H. unfold when. destruct c; [apply H|reflexivity]. Qed.

Lemma when_maxAge c f r :
  (forall r', apiMaxAge (f r') = apiMaxAge r') -> apiMaxAge (when c f r) = apiMaxAge r.
Proof. intros H. unfold when. destruct c; [apply H|reflexivity]. Qed.

Lemma truthy_not_blank o : blank o = false -> truthyS o = true.
Proof. unfold blank. destruct (truthyS o); [reflexivity|discriminate]. Qed.

(** The make and the model of the request. *)
Lemma convert_make currentYear params :
  apiMake (convertSearchParamsToApi currentYear params) =
    if blank (make params) || equals (make params) "any_make" then None
    else make params.
Proof.
  unfold convertSearchParamsToApi. cbn zeta.
  rewrite !when_make by reflexivity.
  destruct (blank (make params)) eqn:Hb; [reflexivity|].
  destruct (equals (make params) "any_make"); [reflexivity|].
  cbn. rewrite (truthy_not_blank _ Hb). reflexivity.
Qed.

Lemma convert_model currentYear params :
  apiModel (convertSearchParamsToApi currentYear params) =
    if blank (model params) || equals (model params) "any_model" then None
    else model params.
Proof.
  unfold convertSearchParamsToApi. cbn zeta.
  rewrite !when_model by reflexivity. unfold when at 1.
  destruct (blank (model params)) eqn:Hb; [reflexivity|].
  destruct (equals (model params) "any_model"); [reflexivity|].
  cbn [orb]. rewrite when_model by reflexivity.
  cbn. rewrite (truthy_not_blank _ Hb). reflexivity.
Qed.

(** X21: what the form sends after [handleSubmit] and
    [convertSearchParamsToApi] has a make only when the form has one that is
    not blank and not the [Any make] entry, and a model only when the form
    has such a model and its make is not the [Any make] entry; the values
    are sent unchanged. *)
Theorem only_chosen_make_and_model_are_sent currentYear values m :
  let r := convertSearchParamsToApi currentYear (handleSubmit values) in
  (apiMake r = Some m ->
   make values = Some m /\ m <> "any_make" /\ trim m <> "")
  /\ (apiModel r = Some m ->
      model values = Some m /\ m <> "any_model" /\ trim m <> ""
      /\ make values <> Some "any_make").
Proof.
  cbn zeta. rewrite convert_make, convert_model. unfold handleSubmit.
  cbn [make model].
  destruct (equals (make values) "any_make") eqn:Hany.
  - split; cbn; discriminate.
  - split.
    + rewrite Hany.
      destruct (blank (make values)) eqn:Hb; [discriminate|]. cbn [orb].
      intros H. rewrite H in Hany, Hb. split; [assumption|]. split.
      * intros ->. cbn in Hany. discriminate.
      * apply not_blank. assumption.
    + destruct (blank (model values)) eqn:Hb; [discriminate|].
      destruct (equals (model values) "any_model") eqn:Hanym; [discriminate|].
      cbn [orb]. intros H. rewrite H in Hanym, Hb. split; [assumption|].
      split; [|split].
      * intros ->. cbn in Hanym. discriminate.
      * apply not_blank. assumption.
      * apply equals_false. assumption.
Qed.

Lemma only_chosen_make_and_model_are_sent_witness :
  apiMake (convertSearchParamsToApi 2025 (handleSubmit bmwForm)) = Some "BMW"
  /\ make bmwForm = Some "BMW" /\ "BMW" <> "any_make" /\ trim "BMW" <> "".
Proof.
  split; [reflexivity|].
  exact (proj1 (only_chosen_make_and_model_are_sent 2025 bmwForm "BMW") eq_refl).
Defined.

Lemma delete_minAge c r :
  apiMinAge (when (c || bool_decide (apiMinAge r = None)) deleteMinAge r) =
    if c then None else apiMinAge r.
Proof.
  unfold when. destruct c; [reflexivity|]. cbn [orb].
  case_bool_decide; [cbn; congruence|reflexivity].
Qed.

Lemma delete_maxAge c r :
  apiMaxAge (when (c || bool_decide (apiMaxAge r = None)
                   || match apiMaxAge r with
                      | Some x => belowOne x
                      | None => false
                      end) deleteMaxAge r) =
    if c then None
    else match apiMaxAge r with
         | Some x => if belowOne x then None else Some x
         | None => None
         end.
Proof.
  unfold when. destruct c; [reflexivity|]. cbn [orb].
  destruct (apiMaxAge r) as [x|] eqn:E.
  - rewrite bool_decide_eq_false_2 by discriminate. cbn [orb].
    destruct (belowOne x); [reflexivity|assumption].
  - reflexivity.
Qed.

Lemma convert_minAge currentYear params :
  apiMinAge (convertSearchParamsToApi currentYear params) =
    if truthyS (minYear params) && negb (equals (minYear params) "any_min_year")
    then Some (mathMax 0 (minus currentYear (parseInt (default "" (minYear params)))))
    else None.
Proof.
  unfold convertSearchParamsToApi. cbn zeta.
  rewrite when_minAge by reflexivity. rewrite delete_minAge.
  rewrite !when_minAge by reflexivity. cbn [apiMinAge].
  destruct (truthyS (minYear params)); [|reflexivity].
  destruct (equals (minYear params) "any_min_year"); reflexivity.
Qed.

Lemma convert_maxAge currentYear params :
  apiMaxAge (convertSearchParamsToApi currentYear params) =
    if truthyS (maxYear params) && negb (equals (maxYear params) "any_max_year")
    then Some (mathMax 1 (minus currentYear (parseInt (default "" (maxYear params)))))
    else None.
Proof.
  unfold convertSearchParamsToApi. cbn zeta.
  rewrite delete_maxAge.
  rewrite !when_maxAge by reflexivity. cbn [apiMaxAge].
  destruct (truthyS (maxYear params)); [|reflexivity].
  destruct (equals (maxYear params) "any_max_year"); [reflexivity|].
  cbn. destruct (parseInt (default "" (maxYear params))) as [|z]; cbn; [reflexivity|].
  destruct (Z.ltb_spec (Z.max 1 (currentYear - z)) 1); [lia|reflexivity].
Qed.

(** X22: the ages the request carries are never negative: a minimum age,
    when it is a number, is at least 0 and a maximum age at least 1,
    whatever the years of the form, years in the future included. *)
Theorem ages_are_bounded_below currentYear params z :
  let r := convertSearchParamsToApi currentYear params in
  (apiMinAge r = Some (Int z) -> (0 <= z)%Z)
  /\ (apiMaxAge r = Some (Int z) -> (1 <= z)%Z).
Proof.
  cbn zeta. rewrite convert_minAge, convert_maxAge. split.
  - destruct (_ && _); [|discriminate].
    destruct (parseInt _) as [|y]; cbn; [discriminate|]. intros [= <-]. lia.
  - destruct (_ && _); [|discriminate].
    destruct (parseInt _) as [|y]; cbn; [discriminate|]. intros [= <-]. lia.
Qed.

Lemma ages_are_bounded_below_witness :
  apiMinAge (convertSearchParamsToApi 2025 yearsForm) = Some (Int 10)
  /\ (0 <= 10)%Z.
Proof.
  split; [reflexivity|].
  exact (proj1 (ages_are_bounded_below 2025 yearsForm 10) eq_refl).
Defined.

Lemma parseInt_number_truthy s z : parseInt s = Int z -> s <> "".
Proof. intros H ->. discriminate H. Qed.

(** X23: the request carries the years of the form as ages with the bounds
    exchanged: the first year of a range of past years gives [minAge], the
    last year gives [maxAge], so that [maxAge] is below [minAge].  The years
    are not negative and the current year is at most 2^53, so that every
    number involved is an integer a double holds exactly. *)
Theorem year_range_becomes_inverted_age_range currentYear params s1 s2 y1 y2 :
  minYear params = Some s1 -> maxYear params = Some s2 ->
  parseInt s1 = Int y1 -> parseInt s2 = Int y2 ->
  (0 <= y1)%Z -> (currentYear <= 2 ^ 53)%Z ->
  (y1 < y2 < currentYear)%Z ->
  let r := convertSearchParamsToApi currentYear params in
  apiMinAge r = Some (Int (currentYear - y1))
  /\ apiMaxAge r = Some (Int (currentYear - y2))
  /\ (currentYear - y2 < currentYear - y1)%Z.
Proof.
  intros H1 H2 Hp1 Hp2 _ _ Hy. cbn zeta.
  rewrite convert_minAge, convert_maxAge, H1, H2.
  cbn [default from_option id truthyS equals].
  assert (E1 : String.eqb s1 "" = false)
    by (apply String.eqb_neq; eapply parseInt_number_truthy; eassumption).
  assert (E2 : String.eqb s2 "" = false)
    by (apply String.eqb_neq; eapply parseInt_number_truthy; eassumption).
  assert (A1 : String.eqb s1 "any_min_year" = false).
  { apply String.eqb_neq. intros ->. discriminate Hp1. }
  assert (A2 : String.eqb s2 "any_max_year" = false).
  { apply String.eqb_neq. intros ->. discriminate Hp2. }
  rewrite E1, E2, A1, A2, Hp1, Hp2. cbn.
  rewrite Z.max_r by lia. rewrite (Z.max_r 1) by lia.
  split; [reflexivity|]. split; [reflexivity|lia].
Qed.

Lemma year_range_becomes_inverted_age_range_witness :
  minYear yearsForm = Some "2015" /\ maxYear yearsForm = Some "2020"
  /\ parseInt "2015" = Int 2015 /\ parseInt "2020" = Int 2020
  /\ (0 <= 2015)%Z /\ (2025 <= 2 ^ 53)%Z
  /\ (2015 < 2020 < 2025)%Z
  /\ apiMinAge (convertSearchParamsToApi 2025 yearsForm) = Some (Int (2025 - 2015))
  /\ apiMaxAge (convertSearchParamsToApi 2025 yearsForm) = Some (Int (2025 - 2020)).
Proof.
  do 7 (split; [reflexivity || lia|]).
  pose proof (year_range_becomes_inverted_age_range 2025 yearsForm "2015" "2020"
                2015 2020 eq_refl eq_refl eq_refl eq_refl ltac:(lia) ltac:(lia)
                ltac:(lia)) as H.
  split; [exact (proj1 H)|exact (proj1 (proj2 H))].
Defined.

End SearchRequestProps.

(** ** The event stream *)

Module SseProps.
Import Sse.

Lemma split_nonempty s : split s <> [].
Proof.
  destruct s as [|c r]; cbn; [discriminate|].
  destruct (Ascii.eqb c newline); [discriminate|].
  destruct (split r); discriminate.
Qed.

Lemma removelast_cons {A} (x : A) l : l <> [] -> removelast (x :: l) = x :: removelast l.
Proof. destruct l; [contradiction|reflexivity]. Qed.

Lemma last_cons {A} (x : A) l d : l <> [] -> List.last (x :: l) d = List.last l d.
Proof. destruct l; [contradiction|reflexivity]. Qed.

(** The lines of a text followed by more text: the complete lines of the
    text, then the lines of what follows its last, incomplete line. *)
Lemma split_app x y :
  split (x +:+ y) = removelast (split x) ++ split (List.last (split x) "" +:+ y).
Proof.
  induction x as [|c r IH]; [reflexivity|].
  change (String c r +:+ y) with (String c (r +:+ y)).
  cbn [split]. destruct (Ascii.eqb c newline) eqn:Hc.
  - rewrite removelast_cons, last_cons by apply split_nonempty.
    rewrite IH. reflexivity.
  - rewrite IH. destruct (split r) as [|l [|l2 ls]] eqn:Hr.
    + exfalso. eapply split_nonempty; eassumption.
    + cbn [removelast List.last app].
      change (String c l +:+ y) with (String c (l +:+ y)).
      cbn [split]. rewrite Hc. reflexivity.
    + rewrite (removelast_cons l) by discriminate.
      rewrite (last_cons l) by discriminate.
      rewrite (removelast_cons (String c l)) by discriminate.
      rewrite (last_cons (String c l)) by discriminate.
      reflexivity.
Qed.

Lemma removelast_app_nonempty {A} (l1 l2 : list A) :
  l2 <> [] -> removelast (l1 ++ l2) = l1 ++ removelast l2.
Proof. intros H. apply removelast_app. assumption. Qed.

Lemma last_app_nonempty {A} (l1 l2 : list A) d :
  l2 <> [] -> List.last (l1 ++ l2) d = List.last l2 d.
Proof.
  intros H. induction l1 as [|x l1 IH]; [reflexivity|].
  cbn [app]. rewrite last_cons; [exact IH|].
  destruct l1; [assumption|discriminate].
Qed.

Lemma string_app_assoc (a b c : string) : (a +:+ b) +:+ c = a +:+ (b +:+ c).
Proof.
  induction a as [|x a IH]; [reflexivity|].
  change (String x ((a +:+ b) +:+ c) = String x (a +:+ (b +:+ c))).
  rewrite IH. reflexivity.
Qed.

Lemma string_app_empty (a : string) : a +:+ "" = a.
Proof.
  induction a as [|c r IH]; [reflexivity|].
  change (String c (r +:+ "") = String c r). rewrite IH. reflexivity.
Qed.

Lemma concat_cons chunk chunks :
  String.concat "" (chunk :: chunks) = chunk +:+ String.concat "" chunks.
Proof. destruct chunks; [symmetry; apply string_app_empty|reflexivity]. Qed.

Section Stream.

Variable parse : string -> option JsVal.
Variable options : Options.

Local Abbreviation handleLine := (handleLine parse options).
Local Abbreviation readChunk := (readChunk parse options).

(** One turn of the loop, text [seen] having been read before. *)
Lemma read_step seen calls chunk :
  readChunk (List.last (split seen) "",
             calls ++ flat_map handleLine (removelast (split seen))) chunk
  = (List.last (split (seen +:+ chunk)) "",
     calls ++ flat_map handleLine (removelast (split (seen +:+ chunk)))).
Proof.
  unfold Sse.readChunk. cbn [fst snd]. rewrite (split_app seen chunk).
  rewrite last_app_nonempty, removelast_app_nonempty by apply split_nonempty.
  rewrite flat_map_app, app_assoc. reflexivity.
Qed.

(** The loop from a state in which text [seen] has been read. *)
Lemma read_from chunks : forall seen calls,
  fold_left readChunk chunks
    (List.last (split seen) "", calls ++ flat_map handleLine (removelast (split seen)))
  = (List.last (split (seen +:+ String.concat "" chunks)) "",
     calls ++ flat_map handleLine
                (removelast (split (seen +:+ String.concat "" chunks)))).
Proof.
  induction chunks as [|chunk chunks IH]; intros seen calls.
  - cbn [fold_left String.concat]. rewrite string_app_empty. reflexivity.
  - cbn [fold_left]. rewrite read_step, IH, string_app_assoc, <- concat_cons.
    reflexivity.
Qed.

(** X24: what [handleSSEStream] delivers does not depend on how the
    stream is cut into chunks: the calls are those of the lines of the whole
    text, in order, but for what follows the last line feed, which stays in
    the buffer and is dropped when the stream ends; a line that is not an
    event or cannot be parsed is skipped and the lines after it are
    handled. *)
Theorem stream_is_chunking_independent chunks :
  handleSSEStream parse options chunks
  = (List.last (split (String.concat "" chunks)) "",
     flat_map handleLine (removelast (split (String.concat "" chunks)))).
Proof.
  unfold handleSSEStream. exact (read_from chunks "" []).
Qed.

(** X25: when the text of the stream ends with a line feed, every line of
    it is handled and the buffer ends empty. *)
Theorem terminated_stream_delivers_every_line chunks text :
  String.concat "" chunks = text +:+ String newline "" ->
  handleSSEStream parse options chunks = ("", flat_map handleLine (split text)).
Proof.
  intros H. unfold handleSSEStream.
  etransitivity; [exact (read_from chunks "" [])|].
  cbn [app]. change ("" +:+ String.concat "" chunks) with (String.concat "" chunks).
  rewrite H.
  assert (Hl : forall l, split (l +:+ String newline "") =
                         removelast (split l) ++ [List.last (split l) ""; ""]).
  { clear. intros l. induction l as [|c r IH]; [reflexivity|].
    change (String c r +:+ String newline "") with (String c (r +:+ String newline "")).
    cbn [split]. destruct (Ascii.eqb c newline).
    - rewrite IH, removelast_cons, last_cons by apply split_nonempty. reflexivity.
    - rewrite IH. destruct (split r) as [|l [|l2 ls]] eqn:Hr.
      + exfalso. eapply split_nonempty; eassumption.
      + reflexivity.
      + rewrite (removelast_cons l) by discriminate.
        rewrite (last_cons l) by discriminate.
        rewrite (removelast_cons (String c l)) by discriminate.
        rewrite (last_cons (String c l)) by discriminate.
        reflexivity. }
  rewrite Hl.
  rewrite last_app_nonempty, removelast_app_nonempty by discriminate.
  cbn [List.last removelast]. f_equal.
  rewrite <- (app_removelast_last (l := split text) "") by apply split_nonempty.
  reflexivity.
Qed.

End Stream.

Lemma terminated_stream_delivers_every_line_witness :
  String.concat "" Inputs3.twoChunks
  = ("data: C" +:+ Inputs3.lf +:+ "data: P") +:+ String newline ""
  /\ handleSSEStream Inputs3.parseLetter Inputs3.allCallbacks Inputs3.twoChunks
     = ("", [OnConnected (JObj [("type", JStr "connected")]);
             OnProgress (JObj [("type", JStr "progress"); ("cars", JArr [])])]).
Proof.
  split; [reflexivity|].
  exact (terminated_stream_delivers_every_line Inputs3.parseLetter
           Inputs3.allCallbacks Inputs3.twoChunks
           ("data: C" +:+ Inputs3.lf +:+ "data: P") eq_refl).
Defined.

End SseProps.

(** ** The state of the front end *)

Module FrontEndStateProps.
Import Invariants.

Module RT := RealTimeScraper.

Lemma handleError_consistent now message st :
  scraperConsistent st -> scraperConsistent (RT.handleError now message st).
Proof. intros H. exact H. Qed.

Lemma onProgress_consistent now message event st :
  scraperConsistent st -> scraperConsistent (RT.onProgress now message event st).
Proof.
  intros Hkeep. pose proof Hkeep as (Hcount & Hvalid & Hsites). unfold RT.onProgress.
  destruct (prop event "type") as [type|]; [|exact Hkeep].
  assert (Hadd : forall cars,
             scraperConsistent
               {| RT.isScraping := RT.isScraping st;
                  RT.totalCars := RT.totalCars st + length (List.filter RT.validCar cars);
                  RT.sitesCompleted := default JUndefined (prop event "currentSite");
                  RT.totalSites := default JUndefined (prop event "totalSites");
                  RT.startTime := RT.startTime st; RT.endTime := RT.endTime st;
                  RT.siteResults :=
                    <[toString (default JUndefined (prop event "siteName"))
                      := (List.filter RT.validCar cars, true)]> (RT.siteResults st);
                  RT.allResults := RT.allResults st ++ List.filter RT.validCar cars;
                  RT.error := RT.error st |}).
  { intros cars. split; [|split]; cbn.
    - rewrite length_app, Hcount. reflexivity.
    - apply List.Forall_app. split; [assumption|].
      apply List.Forall_forall. intros car Hin. apply List.filter_In in Hin. tauto.
    - intros site cars' completed Hl.
      destruct (decide (toString (default JUndefined (prop event "siteName")) = site))
        as [<-|Hne].
      + rewrite lookup_insert_eq in Hl. injection Hl as <- <-.
        split; [reflexivity|]. apply incl_appr, incl_refl.
      + rewrite lookup_insert_ne in Hl by assumption.
        destruct (Hsites _ _ _ Hl) as [-> Hincl].
        split; [reflexivity|]. apply incl_appl, Hincl. }
  destruct type as [| |b|z|s|l|fields]; try exact Hkeep.
  destruct (String.eqb_spec s "progress") as [->|Hne].
  - destruct (default JUndefined (prop event "cars")) as [| |b|z|s|cars|fields];
      try exact Hkeep.
    + specialize (Hadd []). cbn in Hadd. exact Hadd.
    + specialize (Hadd []). cbn in Hadd. exact Hadd.
    + apply Hadd.
  - clear -Hkeep Hne.
    repeat (destruct s as [|[[] [] [] [] [] [] [] []] s]; try exact Hkeep;
            try (exfalso; apply Hne; reflexivity)).
Qed.

(** X26: in [RealTimeScraper], after the progress events of a session,
    whatever they hold, the counter of cars is the number of results
    listed, every result listed has passed the validity filter, and the
    cars listed for a site are among the results. *)
Theorem scraper_counters_match_results start events st :
  scraperConsistent (RT.run start events st).
Proof.
  unfold RT.run.
  assert (H0 : scraperConsistent (RT.startScraping start st)).
  { split; [reflexivity|]. split; [constructor|].
    intros site cars completed Hl. cbn in Hl. rewrite lookup_empty in Hl.
    discriminate. }
  revert H0. generalize (RT.startScraping start st) as st0.
  induction events as [|[[now message] event] events IH]; intros st0 H0; [exact H0|].
  cbn [fold_left]. apply IH, onProgress_consistent, H0.
Qed.

Section Page.

Variable clock : nat -> VehicleApi.Clock.

Lemma length_convertAll cars : forall n converted,
  Index.convertAll clock n cars = Some converted -> length converted = length cars.
Proof.
  induction cars as [|c cars IH]; intros n converted H; cbn in H.
  - injection H as <-. reflexivity.
  - destruct (Index.convertEntry (clock n) c); [|discriminate].
    destruct (Index.convertAll clock (Datatypes.S n) cars) eqn:E; [|discriminate].
    injection H as <-. cbn. erewrite IH; [reflexivity|exact E].
Qed.

Lemma convertAll_values cars : forall n,
  Forall (fun car => car <> JNull /\ car <> JUndefined) cars ->
  exists converted, Index.convertAll clock n cars = Some converted.
Proof.
  induction cars as [|c cars IH]; intros n H; [eexists; reflexivity|].
  inversion H as [|? ? [Hnull Hundef] Hrest]; subst.
  destruct (IH (Datatypes.S n) Hrest) as [converted E]. cbn. rewrite E.
  destruct c; try contradiction; eexists; reflexivity.
Qed.

Lemma callback_consistent st c :
  pageConsistent st -> pageConsistent (Index.callback clock st c).
Proof.
  intros [Hcount Hshown]. destruct c as [event|site cars total current|results|msg| |];
    try (split; cbn; try assumption;
         intros Hne; split; try reflexivity; apply Hshown, Hne).
  cbn. destruct (Index.convertAll clock (length (Index.vehicles st)) cars)
    as [converted|] eqn:E.
  - apply length_convertAll in E. split; cbn.
    + rewrite length_app, E. lia.
    + intros Hne. destruct converted as [|v converted]; cbn.
      * rewrite app_nil_r in Hne. apply Hshown, Hne.
      * split; reflexivity.
  - split; cbn; [lia|assumption].
Qed.

Lemma callback_exact st c :
  carsAreValues c ->
  Index.totalCars (Index.sseProgress st) = length (Index.vehicles st) ->
  Index.totalCars (Index.sseProgress (Index.callback clock st c))
  = length (Index.vehicles (Index.callback clock st c)).
Proof.
  intros Hvalues Hcount.
  destruct c as [event|site cars total current|results|msg| |]; cbn; try assumption.
  destruct (convertAll_values cars (length (Index.vehicles st)) Hvalues)
    as [converted E].
  rewrite E. cbn. rewrite length_app, (length_convertAll _ _ _ E), Hcount.
  reflexivity.
Qed.

(** X27: on the search page, after the callbacks of a search with SSE,
    in whatever order, the counter of cars is at least the number of
    vehicles shown, and as soon as a vehicle is shown the page has stopped
    loading and the search counts as performed.  When no progress event
    carries [null] or [undefined] among its cars, the counter is the number
    of vehicles shown; an event that does is counted and shows nothing. *)
Theorem page_counter_matches_vehicles st callbacks :
  pageConsistent (Index.search clock st callbacks)
  /\ (Forall carsAreValues callbacks ->
      Index.totalCars (Index.sseProgress (Index.search clock st callbacks))
      = length (Index.vehicles (Index.search clock st callbacks)))
  /\ forall site before after total current,
       let st' := Index.search clock st callbacks in
       let st'' := Index.callback clock st'
                     (Index.Progress site (before ++ JNull :: after) total current) in
       Index.totalCars (Index.sseProgress st'')
       = Index.totalCars (Index.sseProgress st') + length (before ++ JNull :: after)
       /\ Index.vehicles st'' = Index.vehicles st'.
Proof.
  unfold Index.search. split; [|split].
  - assert (H0 : pageConsistent (Index.start st)).
    { split; [cbn; lia|]. intros H. contradiction H. reflexivity. }
    revert H0. generalize (Index.start st) as st0.
    induction callbacks as [|c callbacks IH]; intros st0 H0; [exact H0|].
    cbn [fold_left]. apply IH, callback_consistent, H0.
  - assert (H0 : Index.totalCars (Index.sseProgress (Index.start st))
                 = length (Index.vehicles (Index.start st))) by reflexivity.
    revert H0. generalize (Index.start st) as st0.
    induction callbacks as [|c callbacks IH]; intros st0 H0 Hall; [exact H0|].
    inversion Hall; subst. cbn [fold_left]. apply IH; [|assumption].
    apply callback_exact; assumption.
  - intros site before after total current. cbn zeta.
    generalize (fold_left (Index.callback clock) callbacks (Index.start st)) as st'.
    intros st'. cbn [Index.callback].
    assert (E : forall n, Index.convertAll clock n (before ++ JNull :: after) = None).
    { induction before as [|c before IH]; intros n; cbn; [reflexivity|].
      rewrite IH. destruct (Index.convertEntry (clock n) c); reflexivity. }
    rewrite E. split; reflexivity.
Qed.

End Page.

End FrontEndStateProps.

(** ** The result list *)

Module VehicleResultsProps.
Import VehicleApi VehicleResults.

Lemma length_filter_cons {A} (p : A -> bool) x l :
  length (List.filter p (x :: l)) = Nat.b2n (p x) + length (List.filter p l).
Proof. cbn. destruct (p x); reflexivity. Qed.

(** A vehicle is in exactly one of the six groups. *)
Lemma one_group v :
  Nat.b2n (sourceIs "BCA Marketplace" v || sourceIs "BCA" v)
  + Nat.b2n (sourceIs "Motorway" v || sourceIs "Motorway Pro" v)
  + Nat.b2n (sourceIs "CarWow" v)
  + Nat.b2n (sourceIs "CarToTrade" v)
  + Nat.b2n (sourceIs "DisposalNetwork" v)
  + Nat.b2n (negb (existsb (fun s => sourceIs s v) knownSources)) = 1.
Proof.
  unfold knownSources, sourceIs. cbn [existsb].
  destruct (source v) as [| |b|z|s|l|fields]; try reflexivity.
  repeat match goal with
         | |- context [String.eqb s ?k] =>
             destruct (String.eqb_spec s k); [subst s; reflexivity|]
         end.
  reflexivity.
Qed.

(** X28: the six tabs of the result list share out the vehicles shown:
    every vehicle is under exactly one of BCA, Motorway, CarWow, CarToTrade,
    DisposalNetwork and Others, so that the counts of the six tabs add up to
    the count of the tab All. *)
Theorem tabs_share_out_the_vehicles filtered :
  let groups := resultGroups filtered in
  length (bca groups) + length (motorway groups) + length (carwow groups)
  + length (cartotrade groups) + length (disposalnetwork groups)
  + length (others groups) = length filtered.
Proof.
  cbn zeta. unfold resultGroups. cbn [bca motorway carwow cartotrade disposalnetwork others].
  induction filtered as [|v filtered IH]; [reflexivity|].
  rewrite !length_filter_cons. cbn [length].
  pose proof (one_group v) as H. lia.
Qed.

Lemma filterM_same p q vehicles :
  (forall v, p v = q v) -> filterM p vehicles = filterM q vehicles.
Proof.
  intros H. induction vehicles as [|v vehicles IH]; [reflexivity|].
  cbn. rewrite H, IH. reflexivity.
Qed.

Lemma filterM_strings p vehicles :
  Forall (fun v => p v <> None) vehicles ->
  exists kept, filterM p vehicles = Some kept /\ sublist kept vehicles.
Proof.
  induction 1 as [|v vehicles Hv _ (kept & IH & Hsub)].
  - exists []. split; [reflexivity|constructor].
  - cbn. destruct (p v) as [b|]; [|contradiction]. rewrite IH.
    destruct b; eexists; (split; [reflexivity|]).
    + apply sublist_skip. assumption.
    + apply sublist_cons. assumption.
Qed.

(** X29: when the search term and the titles of the vehicles are ASCII
    text, the title filter returns a selection of the vehicles, in their
    order; it returns all of them for a blank search term, and the same
    ones whatever the case of the letters of the term. *)
Theorem title_filter_selects_whatever_the_case term vehicles :
  isAscii term = true ->
  Forall (fun v => exists t, title v = JStr t /\ isAscii t = true) vehicles ->
  exists kept,
    filteredVehicles term vehicles = Some kept
    /\ filteredVehicles (toUpperCase term) vehicles = Some kept
    /\ sublist kept vehicles
    /\ (trim term = "" -> kept = vehicles).
Proof.
  intros _ Hstr. unfold filteredVehicles.
  rewrite CaseProps.trim_upper, CaseProps.empty_upper.
  destruct (String.eqb_spec (trim term) "") as [Hblank|Hterm].
  - exists vehicles. repeat split; reflexivity.
  - destruct (filterM_strings (titleMatches term) vehicles) as (kept & Hk & Hsub).
    { eapply List.Forall_impl; [|exact Hstr].
      intros v (t & Ht & _). unfold titleMatches. rewrite Ht. discriminate. }
    exists kept. split; [assumption|]. split; [|split; [assumption|contradiction]].
    rewrite <- Hk. apply filterM_same. intros v. unfold titleMatches.
    rewrite CaseProps.toLowerCase_toUpperCase. reflexivity.
Qed.

Lemma title_filter_selects_whatever_the_case_witness :
  isAscii "x5" = true
  /\ Forall (fun v => exists t, title v = JStr t /\ isAscii t = true)
       [Inputs5.plainVehicle]
  /\ filteredVehicles "x5" [Inputs5.plainVehicle] = Some [Inputs5.plainVehicle]
  /\ filteredVehicles "X5" [Inputs5.plainVehicle] = Some [Inputs5.plainVehicle].
Proof.
  assert (H : Forall (fun v => exists t, title v = JStr t /\ isAscii t = true)
                [Inputs5.plainVehicle]).
  { repeat constructor. eexists. split; reflexivity. }
  split; [reflexivity|]. split; [exact H|].
  destruct (title_filter_selects_whatever_the_case "x5" [Inputs5.plainVehicle]
              eq_refl H)
    as (kept & H1 & H2 & _).
  assert (Hkept : Some kept = Some [Inputs5.plainVehicle])
    by (rewrite <- H1; reflexivity).
  rewrite Hkept in H1, H2. split; [exact H1|exact H2].
Defined.

Lemma filterM_throws p before v after :
  p v = None -> filterM p (before ++ v :: after) = None.
Proof.
  intros H. induction before as [|x before IH]; cbn; [rewrite H; reflexivity|].
  destruct (p x); [|reflexivity]. rewrite IH. reflexivity.
Qed.

(** X30: a raw record whose title is a number keeps this number as title
    when it is normalised, and once it is in the list, the title filter
    throws for every search term in ASCII text that is not blank: the
    number has no [toLowerCase]. *)
Theorem numeric_title_breaks_title_filter clk apiVehicle z term before after :
  apiVehicle !! "title" = Some (JNum z) -> z <> 0%Z ->
  isAscii term = true ->
  trim term <> "" ->
  title (convertApiVehicleToVehicle clk apiVehicle) = JNum z
  /\ filteredVehicles term
       (before ++ convertApiVehicleToVehicle clk apiVehicle :: after) = None.
Proof.
  intros Ht Hz _ Hterm.
  assert (Htitle : title (convertApiVehicleToVehicle clk apiVehicle) = JNum z).
  { rewrite VehicleApiProps.title_resolution. unfold get. rewrite Ht. cbn.
    destruct (Z.eqb_spec z 0); [contradiction|reflexivity]. }
  split; [assumption|]. unfold filteredVehicles.
  destruct (String.eqb_spec (trim term) ""); [contradiction|].
  apply filterM_throws. unfold titleMatches. rewrite Htitle. reflexivity.
Qed.

Lemma numeric_title_breaks_title_filter_witness :
  Inputs5.numericTitle !! "title" = Some (JNum 2008) /\ 2008%Z <> 0%Z
  /\ isAscii "peugeot" = true
  /\ trim "peugeot" <> ""
  /\ filteredVehicles "peugeot"
       ([Inputs5.plainVehicle]
        ++ convertApiVehicleToVehicle Inputs.clk0 Inputs5.numericTitle :: []) = None.
Proof.
  assert (H1 : Inputs5.numericTitle !! "title" = Some (JNum 2008)) by reflexivity.
  assert (H2 : 2008%Z <> 0%Z) by discriminate.
  assert (H3 : trim "peugeot" <> "") by discriminate.
  split; [exact H1|]. split; [exact H2|]. split; [reflexivity|]. split; [exact H3|].
  exact (proj2 (numeric_title_breaks_title_filter Inputs.clk0 Inputs5.numericTitle
                  2008 "peugeot" [Inputs5.plainVehicle] [] H1 H2 eq_refl H3)).
Defined.

End VehicleResultsProps.

(** ** From the raw record to the result list *)

Module NormaliserProps.
Import Backend VehicleApi VehicleResults.

Lemma or_truthy a b : truthy b = true -> truthy (or a b) = true.
Proof. intros H. unfold or. destruct (truthy a) eqn:E; assumption. Qed.

Lemma append_not_empty (a b : string) : b <> "" -> a +:+ b <> "".
Proof. destruct a; [intros H; exact H|discriminate]. Qed.

(** X19: every field of a normalised record but [mileage] holds a truthy
    value, whatever the raw record holds: none is [undefined], [null], empty
    or zero; [mileage] is truthy or [undefined]. *)
Theorem normalised_fields_are_populated clk apiVehicle :
  isoNow clk <> "" ->
  let v := convertApiVehicleToVehicle clk apiVehicle in
  Forall (fun field => truthy field = true)
    [id v; title v; price v; imageUrl v; location v; registration v; source v;
     url v; timestamp v]
  /\ (truthy (mileage v) = true \/ mileage v = JUndefined).
Proof.
  intros Hiso. cbn zeta. split.
  - repeat constructor; cbn [convertApiVehicleToVehicle id title price imageUrl
                              location registration source url timestamp];
      repeat (apply or_truthy); try reflexivity;
      try apply VehicleApiProps.make_model_truthy;
      cbn [truthy]; apply negb_true_iff, String.eqb_neq;
      first [assumption | apply append_not_empty; discriminate].
  - cbn [convertApiVehicleToVehicle mileage]. unfold or.
    destruct (truthy (get apiVehicle "mileage")) eqn:E; [left; exact E|right; reflexivity].
Qed.

Lemma normalised_fields_are_populated_witness :
  isoNow Inputs.clk0 <> ""
  /\ truthy (title (convertApiVehicleToVehicle Inputs.clk0 ∅)) = true.
Proof.
  assert (H : isoNow Inputs.clk0 <> "") by discriminate.
  split; [exact H|].
  pose proof (proj1 (normalised_fields_are_populated Inputs.clk0 ∅ H)) as Hall.
  exact (Forall_inv (Forall_inv_tail Hall)).
Defined.

Lemma source_of_record clk fields (s : string) :
  s <> "" ->
  list_to_map (M := gmap string JsVal) fields !! "source" = Some (JStr s) ->
  source (convertApiVehicleToVehicle clk (list_to_map fields)) = JStr s.
Proof.
  intros Hs Hl. cbn [convertApiVehicleToVehicle source]. unfold get. rewrite Hl.
  unfold or. cbn.
  rewrite (proj2 (String.eqb_neq s "") Hs). reflexivity.
Qed.

Lemma dn_toCar_source w clk vehicle car :
  In car (DisposalNetwork.toCar w vehicle) ->
  sourceIs "DisposalNetwork" (convertApiVehicleToVehicle clk (recordOf car)) = true.
Proof.
  unfold DisposalNetwork.toCar. intros Hin.
  destruct vehicle; cbn [In] in Hin; try contradiction;
    destruct Hin as [<-|[]]; unfold sourceIs, recordOf;
    (rewrite (source_of_record clk _ "DisposalNetwork");
     [reflexivity|discriminate|reflexivity]).
Qed.

Lemma ct_carOfCard_source w clk card car :
  In car (CarToTrade.carOfCard w card) ->
  sourceIs "CarToTrade" (convertApiVehicleToVehicle clk (recordOf car)) = true.
Proof.
  unfold CarToTrade.carOfCard. intros Hin.
  destruct card; cbn [In] in Hin; [contradiction|].
  destruct Hin as [<-|[]]. unfold sourceIs, recordOf.
  rewrite (source_of_record clk _ "CarToTrade"); [reflexivity|discriminate|reflexivity].
Qed.

Lemma ct_extractPages_source w clk : forall rest p currentPage acc page cars page',
  Forall (fun car => sourceIs "CarToTrade"
                       (convertApiVehicleToVehicle clk (recordOf car)) = true) acc ->
  CarToTrade.extractPages w p rest currentPage acc page = Ok cars page' ->
  Forall (fun car => sourceIs "CarToTrade"
                       (convertApiVehicleToVehicle clk (recordOf car)) = true) cars.
Proof.
  assert (Hadd : forall acc p,
             Forall (fun car => sourceIs "CarToTrade"
                                  (convertApiVehicleToVehicle clk (recordOf car)) = true) acc ->
             Forall (fun car => sourceIs "CarToTrade"
                                  (convertApiVehicleToVehicle clk (recordOf car)) = true)
               (acc ++ flat_map (CarToTrade.carOfCard w) (CarToTrade.cards p))).
  { intros acc p Hacc. apply List.Forall_app. split; [assumption|].
    apply List.Forall_forall. intros car Hin. apply in_flat_map in Hin as (card & _ & Hin).
    eapply ct_carOfCard_source; eassumption. }
  induction rest as [|q rest IH]; intros p currentPage acc page cars page' Hacc;
    cbn [CarToTrade.extractPages]; RunInBatchesProps.unfold_M; unfold CarToTrade.op;
    destruct (CarToTrade.rejects w (CarToTrade.OpLoadPage currentPage)); try discriminate.
  - intros [= <- <-]. apply Hadd, Hacc.
  - destruct (CarToTrade.navContinues _ _).
    + apply IH. apply Hadd, Hacc.
    + intros [= <- <-]. apply Hadd, Hacc.
Qed.

(** X20: every car the Disposal Network driver extracts comes, once
    normalised, under the tab DisposalNetwork of the result list, and every
    car the CarToTrade driver extracts under the tab CarToTrade: the source
    the drivers write is the one the tabs compare with. *)
Theorem extracted_cars_come_under_their_tab clk car :
  (forall w ps page cars page',
      DisposalNetwork.extractCars w ps page = Ok cars page' ->
      In car cars ->
      sourceIs "DisposalNetwork" (convertApiVehicleToVehicle clk (recordOf car)) = true)
  /\ (forall w ps page cars page',
        CarToTrade.extractCars w ps page = Ok cars page' ->
        In car cars ->
        sourceIs "CarToTrade" (convertApiVehicleToVehicle clk (recordOf car)) = true).
Proof.
  split; intros w ps page cars page'.
  - unfold DisposalNetwork.extractCars. RunInBatchesProps.unfold_M.
    repeat case_bool_decide; intros [= <- <-]; try contradiction.
    intros Hin. apply in_flat_map in Hin as (vehicle & _ & Hin).
    eapply dn_toCar_source; eassumption.
  - unfold CarToTrade.extractCars. RunInBatchesProps.unfold_M.
    destruct (cartotradeSearchExecuted page) as [[]|];
      try (intros [= <- <-]; contradiction);
      intros Hex Hin;
      (apply (ct_extractPages_source w clk) in Hex; [|constructor]);
      rewrite List.Forall_forall in Hex; apply Hex, Hin.
Qed.

Lemma extracted_cars_come_under_their_tab_witness :
  exists car cars,
    DisposalNetwork.extractCars Inputs4.silentSite None Inputs4.silentPage
    = Ok cars Inputs4.silentPage
    /\ In car cars
    /\ sourceIs "DisposalNetwork"
         (convertApiVehicleToVehicle Inputs.clk0 (recordOf car)) = true.
Proof.
  eexists. eexists. split; [vm_compute; reflexivity|]. split; [left; reflexivity|].
  eapply (proj1 (extracted_cars_come_under_their_tab Inputs.clk0 _)
            Inputs4.silentSite None Inputs4.silentPage).
  - vm_compute. reflexivity.
  - left. reflexivity.
Defined.

End NormaliserProps.

(** ** The drivers *)

Module DriverMore.
Import Backend Observe Inputs Drivers Inputs4.
Import RunInBatchesProps EarlyExitProps CaseProps.

Module DN := DisposalNetwork.
Module CT := CarToTrade.

Lemma matchesModel_same_case m m' opt :
  toUpperCase m = toUpperCase m' -> CT.matchesModel m opt = CT.matchesModel m' opt.
Proof.
  intros H. unfold CT.matchesModel. destruct (snd opt); [|reflexivity].
  rewrite (same_case_empty _ _ H), H. reflexivity.
Qed.

Lemma find_matchesModel_same_case m m' options :
  toUpperCase m = toUpperCase m' ->
  List.find (CT.matchesModel m) options = List.find (CT.matchesModel m') options.
Proof.
  intros H. induction options as [|opt options IH]; [reflexivity|].
  cbn. rewrite (matchesModel_same_case _ _ opt H), IH. reflexivity.
Qed.

(** X13: the two drivers read the make and the model of a search without
    regard to the case of their letters: two searches that differ in this
    only make [applyFilters] do the same on every site and every page. *)
Theorem drivers_ignore_letter_case p p' :
  sameUpToCase p p' ->
  (forall w page, DN.applyFilters w p page = DN.applyFilters w p' page)
  /\ (forall w page, CT.applyFilters w p page = CT.applyFilters w p' page).
Proof.
  intros (Hmake & Hmodel & Hcolor & Hminp & Hmaxp & Hminm & Hmaxm & Hmina & Hmaxa).
  pose proof (same_case_given _ _ Hmake) as Gmake.
  pose proof (same_case_given _ _ Hmodel) as Gmodel.
  pose proof (same_case_default _ _ Hmake) as Dmake.
  pose proof (same_case_default _ _ Hmodel) as Dmodel.
  split; intros w page.
  - unfold DN.applyFilters, DN.searchAndCapture, DN.uiFilters.
    rewrite Gmake, Gmodel, Dmake, Dmodel, Hcolor, Hmaxp, Hmaxm, Hmaxa. reflexivity.
  - unfold CT.applyFilters.
    rewrite Gmake, Gmodel, Dmake, Hminp, Hmaxp, Hminm, Hmaxm, Hmina, Hmaxa.
    rewrite (find_matchesModel_same_case (default "" (model p)) (default "" (model p'))).
    + reflexivity.
    + destruct (model p), (model p'); cbn in Hmodel; try discriminate;
        [injection Hmodel as H; exact H|reflexivity].
Qed.

Lemma drivers_ignore_letter_case_witness :
  sameUpToCase lowerBmw upperBmw
  /\ DN.applyFilters dnSite lowerBmw newPage = DN.applyFilters dnSite upperBmw newPage
  /\ CT.applyFilters (ctSite true) lowerBmw newPage
     = CT.applyFilters (ctSite true) upperBmw newPage.
Proof.
  assert (H : sameUpToCase lowerBmw upperBmw) by (repeat split; reflexivity).
  split; [exact H|].
  split; [exact (proj1 (drivers_ignore_letter_case lowerBmw upperBmw H) dnSite newPage)|].
  exact (proj2 (drivers_ignore_letter_case lowerBmw upperBmw H) (ctSite true) newPage).
Defined.

Ltac settle :=
  unfold_M; unfold DN.op, tryCatch;
  repeat (case_match; try discriminate; simplify_eq);
  try (eexists; eexists; split; [reflexivity|]; intros; try discriminate; reflexivity).

Lemma mileageFilter_outcome w v page :
  exists flow page',
    DN.mileageFilter w v page = Ok flow page'
    /\ (flow = DN.Return -> disposalnetworkNoResults page' = Some true).
Proof. unfold DN.mileageFilter. settle. Qed.

Lemma uiFilters_outcome w params page :
  exists flow page',
    DN.uiFilters w params page = Ok flow page'
    /\ (flow = DN.Return -> disposalnetworkNoResults page' = Some true).
Proof. unfold DN.uiFilters, DN.dropdownFilter. settle. Qed.

(** X14: a failure while the mileage filter or the price and age filters
    of Disposal Network are applied does not fail the job: the step never
    rejects, and when it gives up the search it has flagged the page for
    the extraction. *)
Theorem dn_filter_steps_never_reject w params page :
  (forall v,
      match DN.mileageFilter w v page with
      | Ok DN.Continue _ => True
      | Ok DN.Return page' => disposalnetworkNoResults page' = Some true
      | Throw _ _ | Diverge => False
      end)
  /\ match DN.uiFilters w params page with
     | Ok DN.Continue _ => True
     | Ok DN.Return page' => disposalnetworkNoResults page' = Some true
     | Throw _ _ | Diverge => False
     end.
Proof.
  split.
  - intros v. destruct (mileageFilter_outcome w v page) as (flow & page' & -> & H).
    destruct flow; [exact I|apply H; reflexivity].
  - destruct (uiFilters_outcome w params page) as (flow & page' & -> & H).
    destruct flow; [exact I|apply H; reflexivity].
Qed.

Lemma searchAndCapture_outcome w params page page' :
  DN.searchAndCapture w params page = Ok tt page' ->
  disposalnetworkNoResults page' = Some true
  \/ (lastDisposalNetworkResponse page' = lastCaptured w /\ lastCaptured w <> None).
Proof.
  unfold DN.searchAndCapture, lastCaptured. unfold_M. unfold DN.op at 1.
  destruct (DN.rejects w DN.OpSearch); [discriminate|].
  destruct (_ && _).
  - unfold DN.op.
    repeat (case_match; try discriminate; simplify_eq);
      intros Hfin; simplify_eq; right; cbn; split; congruence.
  - destruct (uiFilters_outcome w params page) as (flow & p1 & -> & Hflag).
    destruct flow.
    + unfold DN.op.
      repeat (case_match; try discriminate; simplify_eq);
        intros Hfin; simplify_eq; right; cbn; split; congruence.
    + intros [= <-]. left. apply Hflag. reflexivity.
Qed.

(** X15: when the filters of Disposal Network resolve, the page carries
    either a flag that makes the extraction return nothing, or the last
    response to the vehicle search that was captured: the extraction does
    not meet a page without response. *)
Theorem dn_filters_leave_response_or_flag w params page page' :
  DN.applyFilters w params page = Ok tt page' ->
  flagged page'
  \/ (lastDisposalNetworkResponse page' = lastCaptured w /\ lastCaptured w <> None).
Proof.
  unfold DN.applyFilters, flagged. unfold_M. unfold DN.op at 1 2.
  destruct (DN.rejects w DN.OpInitialSearch); [discriminate|].
  destruct (DN.rejects w DN.OpOpenMake); [discriminate|].
  assert (Hrest : forall p,
             match
               match maxMileage params with
               | Some v => DN.mileageFilter w v
               | None => mret DN.Continue
               end p
             with
             | Ok DN.Continue s' => DN.searchAndCapture w params s'
             | Ok DN.Return s' => Ok tt s'
             | Throw e s' => Throw e s'
             | Diverge => Diverge
             end = Ok tt page' ->
             disposalnetworkNoResults page' = Some true
             \/ (lastDisposalNetworkResponse page' = lastCaptured w
                 /\ lastCaptured w <> None)).
  { intros p. destruct (maxMileage params) as [v|].
    - destruct (mileageFilter_outcome w v p) as (flow & p1 & -> & Hflag).
      destruct flow; [apply searchAndCapture_outcome|].
      intros [= <-]. left. apply Hflag. reflexivity.
    - apply searchAndCapture_outcome. }
  unfold DN.op.
  repeat first
    [ intros Hfin; apply Hrest in Hfin; tauto
    | case_match; try discriminate; simplify_eq ].
  all: intros Hfin; simplify_eq; cbn;
    try (apply searchAndCapture_outcome in Hfin; tauto);
    try match goal with
        | H : DN.mileageFilter ?w ?v ?p = Ok DN.Return _ |- _ =>
            destruct (mileageFilter_outcome w v p) as (flow & p' & E & Hflag);
            rewrite H in E; injection E as <- <-;
            left; right; right; apply Hflag; reflexivity
        end;
    auto.
Qed.

Lemma dn_filters_leave_response_or_flag_witness :
  exists page',
    DN.applyFilters dnSite noParams newPage = Ok tt page'
    /\ (flagged page'
        \/ (lastDisposalNetworkResponse page' = lastCaptured dnSite
            /\ lastCaptured dnSite <> None)).
Proof.
  eexists. split; [vm_compute; reflexivity|].
  apply (dn_filters_leave_response_or_flag dnSite noParams newPage).
  vm_compute. reflexivity.
Defined.

Lemma readPage_bound r acc :
  pageSizeAtMost 25 r -> length (snd (DN.readPage r acc)) <= length acc + 25.
Proof.
  intros Hr. unfold DN.readPage.
  destruct (json r) as [data|] eqn:Hj; [|cbn; lia].
  destruct (prop data "vehicles"); [|cbn; lia].
  destruct (DN.vehiclesOf data) as [vehicles|] eqn:Hv; [|cbn; lia].
  specialize (Hr data vehicles Hj Hv). cbn. rewrite length_app. lia.
Qed.

Lemma last_In {A} (l : list A) x : last l = Some x -> In x l.
Proof.
  intros H. apply last_Some in H as [l' ->]. apply in_or_app. right. left. reflexivity.
Qed.

Lemma extractLoop_bound w page :
  (forall r, lastDisposalNetworkResponse page = Some r -> pageSizeAtMost 25 r) ->
  (forall n r, In r (DN.pageResponses w n) -> pageSizeAtMost 25 r) ->
  forall pageNums allResponses acc,
    Forall (pageSizeAtMost 25) allResponses ->
    length (DN.extractLoop w page pageNums allResponses acc)
    <= length acc + 25 * length pageNums.
Proof.
  intros Hlast Hpages.
  induction pageNums as [|pageNum later IH]; intros allResponses acc Hall;
    [cbn; lia|].
  cbn [DN.extractLoop length].
  assert (Hturn : forall allResponses',
             Forall (pageSizeAtMost 25) allResponses' ->
             length
               match last allResponses' with
               | Some latest =>
                   let (t, allCarData') := DN.readPage latest acc in
                   match t with
                   | DN.Break => allCarData'
                   | DN.Next => DN.extractLoop w page later allResponses' allCarData'
                   end
               | None => DN.extractLoop w page later allResponses' acc
               end <= length acc + 25 * Datatypes.S (length later)).
  { intros allResponses' Hall'.
    destruct (last allResponses') as [latest|] eqn:Hl.
    - apply last_In in Hl. rewrite List.Forall_forall in Hall'.
      pose proof (readPage_bound latest acc (Hall' _ Hl)) as Hb.
      destruct (DN.readPage latest acc) as [[] acc']; cbn [snd] in Hb; [lia|].
      specialize (IH allResponses' acc' ltac:(apply List.Forall_forall; exact Hall')).
      lia.
    - specialize (IH allResponses' acc Hall'). lia. }
  destruct (pageNum =? 1).
  - destruct (lastDisposalNetworkResponse page) as [lastResponse|] eqn:E; [|lia].
    apply Hturn. apply List.Forall_app. split; [assumption|].
    constructor; [apply Hlast; reflexivity|constructor].
  - destruct (DN.rejects w (DN.OpFindPageButton pageNum)); [lia|].
    destruct (DN.pageButton w pageNum); cbn [negb]; [|lia].
    destruct (DN.rejects w (DN.OpClickPageButton pageNum)); [lia|].
    apply Hturn. apply List.Forall_app. split; [assumption|].
    apply List.Forall_forall. intros r Hr. eapply Hpages; eassumption.
Qed.

Lemma toCar_length w vehicles :
  length (flat_map (DN.toCar w) vehicles) <= length vehicles.
Proof.
  induction vehicles as [|v vehicles IH]; [cbn; lia|].
  cbn [flat_map]. rewrite length_app. cbn [length].
  assert (length (DN.toCar w v) <= 1) by (destruct v; cbn; lia). lia.
Qed.

(** X16: when no response to the vehicle search lists more than 25
    vehicles, the extraction of Disposal Network returns at most 75 cars:
    it reads at most three pages. *)
Theorem dn_extracts_at_most_75 w ps page cars page' :
  (forall r, lastDisposalNetworkResponse page = Some r -> pageSizeAtMost 25 r) ->
  (forall n r, In r (DN.pageResponses w n) -> pageSizeAtMost 25 r) ->
  DN.extractCars w ps page = Ok cars page' ->
  length cars <= 75.
Proof.
  intros Hlast Hpages. unfold DN.extractCars. unfold_M.
  repeat case_bool_decide; intros [= <- <-]; try (cbn; lia).
  etransitivity; [apply toCar_length|].
  pose proof (extractLoop_bound w page Hlast Hpages (seq 1 DN.maxPages) [] []
                (Forall_nil_2 _)) as Hbound.
  cbn in Hbound. cbn. lia.
Qed.

(** X17: when the first page of the search is full and the clicks on the
    buttons of the pages 2 and 3 succeed without a new response being
    captured, the extraction of Disposal Network reads the response of the
    first page three times: every vehicle comes three times in the
    result. *)
Theorem unanswered_pages_repeat_the_first w ps page r data vehicles :
  ~ flagged page ->
  lastDisposalNetworkResponse page = Some r ->
  json r = Some data ->
  DN.vehiclesOf data = Some vehicles ->
  25 <= length vehicles ->
  unanswered w ->
  DN.extractCars w ps page
  = Ok (flat_map (DN.toCar w) (vehicles ++ vehicles ++ vehicles)) page.
Proof.
  intros Hflag Hlast Hjson Hv Hlen Hun. unfold DN.extractCars. unfold_M.
  unfold flagged in Hflag.
  repeat case_bool_decide; try tauto.
  f_equal. f_equal.
  assert (Hread : forall acc, DN.readPage r acc = (DN.Next, acc ++ vehicles)).
  { intros acc. unfold DN.readPage. rewrite Hjson.
    assert (Hp : exists v, prop data "vehicles" = Some v).
    { unfold DN.vehiclesOf in Hv. destruct data; try discriminate. cbn. eauto. }
    destruct Hp as [v ->]. rewrite Hv.
    destruct (Nat.ltb_spec (length vehicles) 25); [lia|reflexivity]. }
  destruct (Hun 2) as (F2 & B2 & C2 & R2). destruct (Hun 3) as (F3 & B3 & C3 & R3).
  cbn [seq DN.maxPages DN.extractLoop Nat.eqb].
  rewrite Hlast, F2, B2, C2, R2, F3, B3, C3, R3. cbn [negb app last].
  rewrite !Hread. cbn [app]. rewrite <- app_assoc. reflexivity.
Qed.

Lemma fullPage_size r :
  lastDisposalNetworkResponse silentPage = Some r -> pageSizeAtMost 25 r.
Proof.
  intros [= <-] data vehicles [= <-] [= <-]. cbn. lia.
Qed.

Lemma silentSite_pages n r :
  In r (DN.pageResponses silentSite n) -> pageSizeAtMost 25 r.
Proof. intros []. Qed.

Lemma silentPage_not_flagged : ~ flagged silentPage.
Proof. intros [H|[H|H]]; discriminate H. Qed.

Lemma silentSite_unanswered : unanswered silentSite.
Proof. intros pageNum. repeat split. Qed.

Lemma dn_extracts_at_most_75_witness :
  (forall r, lastDisposalNetworkResponse silentPage = Some r -> pageSizeAtMost 25 r)
  /\ (forall n r, In r (DN.pageResponses silentSite n) -> pageSizeAtMost 25 r)
  /\ exists cars,
       DN.extractCars silentSite None silentPage = Ok cars silentPage
       /\ length cars <= 75.
Proof.
  split; [exact fullPage_size|]. split; [exact silentSite_pages|].
  eexists. split; [vm_compute; reflexivity|].
  apply (dn_extracts_at_most_75 silentSite None silentPage _ silentPage
           fullPage_size silentSite_pages).
  vm_compute. reflexivity.
Defined.

Lemma unanswered_pages_repeat_the_first_witness :
  ~ flagged silentPage
  /\ lastDisposalNetworkResponse silentPage = Some (searchResponse fullPage)
  /\ 25 <= length fullPage
  /\ unanswered silentSite
  /\ DN.extractCars silentSite None silentPage
     = Ok (flat_map (DN.toCar silentSite) (fullPage ++ fullPage ++ fullPage)) silentPage.
Proof.
  assert (Hlen : 25 <= length fullPage) by (cbn; lia).
  split; [exact silentPage_not_flagged|]. split; [reflexivity|].
  split; [exact Hlen|]. split; [exact silentSite_unanswered|].
  exact (unanswered_pages_repeat_the_first silentSite None silentPage
           (searchResponse fullPage) (JObj [("vehicles", JArr fullPage)]) fullPage
           silentPage_not_flagged eq_refl eq_refl eq_refl Hlen silentSite_unanswered).
Defined.

(** X18: when the search gives its make and model in ASCII text, the
    options of the range drop-down are ASCII text and the filters of
    CarToTrade resolve, the flag they leave on the page tells whether the
    model was found: it is [false] exactly when the search names a model
    and no option of the range drop-down contains it, and then the
    extraction returns nothing without loading a page. *)
Theorem ct_flag_tells_whether_model_was_found w params page page' :
  EarlyExit.asciiParams params ->
  EarlyExit.asciiOptions w ->
  CT.applyFilters w params page = Ok tt page' ->
  cartotradeSearchExecuted page' =
    Some (negb (given (model params))
          || bool_decide
               (List.find (CT.matchesModel (default "" (model params)))
                  (CT.rangeOptions w) <> None))
  /\ (cartotradeSearchExecuted page' = Some false ->
      forall ps, CT.extractCars w ps page' = Ok [] page').
Proof.
  intros _ _ H. split.
  - revert H. unfold CT.applyFilters. unfold_M. unfold CT.op.
    repeat (case_match; try discriminate; simplify_eq);
      intros Hfin; simplify_eq; cbn;
      try rewrite bool_decide_eq_true_2 by discriminate;
      try rewrite bool_decide_eq_false_2 by (intros Hne; apply Hne; assumption);
      reflexivity.
  - intros Hflag ps. apply ct_extract_flagged. assumption.
Qed.

Lemma ct_flag_tells_whether_model_was_found_witness :
  EarlyExit.asciiParams (withModel "Zafira")
  /\ EarlyExit.asciiOptions (ctSite true)
  /\ exists page',
       CT.applyFilters (ctSite true) (withModel "Zafira") newPage = Ok tt page'
       /\ cartotradeSearchExecuted page' = Some false.
Proof.
  assert (Ha : EarlyExit.asciiParams (withModel "Zafira")) by (split; reflexivity).
  assert (Ho : EarlyExit.asciiOptions (ctSite true))
    by (repeat constructor).
  split; [exact Ha|]. split; [exact Ho|].
  eexists. split; [vm_compute; reflexivity|].
  refine (eq_trans
            (proj1 (ct_flag_tells_whether_model_was_found (ctSite true)
                      (withModel "Zafira") newPage _ Ha Ho _)) _);
    vm_compute; reflexivity.
Defined.

End DriverMore.
